(** * PDFlex: bounded upload ingestion and transient-file lifecycle

    A shallow embedding of [main.py] (the FastAPI application of PDFlex)
    and the properties of its specification that can be settled on it.

    Layout of the development:
    - [PyStr]: the few operations of Python's [str] and [os.path] that the
      program calls ([rfind], slicing, [lower], [splitext], [join],
      [basename]);
    - [PyFloat]: binary64 arithmetic behind [int((ahorro / total_orig) * 100)];
    - the world (filesystem, uuid draws, background tasks) and the
      exception monad in which the routes run;
    - the functions of [main.py], one definition per function, same names;
    - the vocabulary of the statements: the predicates on worlds and
      ledgers, and the concrete libraries and uploads of the examples;
    - the proofs: strings and the extension policy, the bounded writer, a
      program logic for the routes, the ledger and the cleanup, status
      codes, validation order, workspace paths, page ranges, the savings
      percentage. *)

From Stdlib Require Import ZArith Ascii String List Lia.
From Stdlib Require Import Floats.SpecFloat.
From Equations Require Import Equations.
From stdpp Require Import base option gmap sets list strings pretty.

Set Default Proof Using "Type".

(* ===================================================================== *)
(** * Python strings and [os.path]                                        *)
(* ===================================================================== *)

(** A Python [str] is modelled by a [string]: the sequence of bytes of its
    UTF-8 encoding.  The separators the program looks for (["/"] and ["."])
    are ASCII, and an ASCII byte never occurs inside a multi-byte UTF-8
    sequence, so searching bytes and searching code points agree. *)
Module PyStr.

(** [p[:n]] for [0 <= n]. *)
Fixpoint take (n : nat) (p : string) : string :=
  match n, p with
  | S n', String a p' => String a (take n' p')
  | _, _ => EmptyString
  end.

(** [p[n:]] for [0 <= n]. *)
Fixpoint drop (n : nat) (p : string) : string :=
  match n, p with
  | S n', String _ p' => drop n' p'
  | _, _ => p
  end.

(** [p[i:i+1]] for [0 <= i]: the one-character string at [i], or the
    empty string past the end. *)
Definition char_at (i : nat) (p : string) : string := take 1 (drop i p).

(** [p.rfind(c)] for a one-character [c]: the highest index at which [c]
    occurs, or [-1].  [i] is the index of the head of [p], [found] the
    best index seen so far. *)
Fixpoint rfind_from (c : ascii) (p : string) (i found : Z) : Z :=
  match p with
  | EmptyString => found
  | String a p' => rfind_from c p' (i + 1) (if Ascii.eqb a c then i else found)
  end.

Definition rfind (p : string) (c : ascii) : Z := rfind_from c p 0 (-1).

(** [c in p]. *)
Fixpoint contains (c : ascii) (p : string) : bool :=
  match p with
  | EmptyString => false
  | String a p' => Ascii.eqb a c || contains c p'
  end.

(** [str.lower], on the ASCII letters: a byte outside ASCII is kept as it
    is, while Python lowers the cased letters outside ASCII too.  On a
    string of ASCII characters the two agree.  On any string they agree on
    whether the lowered string is one of the extensions the program
    allows, since no code point outside ASCII lowers to a letter of those;
    they may differ in the text of a refusal. *)
Definition lower_ascii (a : ascii) : ascii :=
  let n := N_of_ascii a in
  if ((65 <=? n) && (n <=? 90))%N then ascii_of_N (n + 32) else a.

Fixpoint lower (p : string) : string :=
  match p with
  | EmptyString => EmptyString
  | String a p' => String (lower_ascii a) (lower p')
  end.

(** [genericpath._splitext(p, sep="/", altsep=None, extsep=".")], which
    is [os.path.splitext] on POSIX.

<<
    sepIndex = p.rfind(sep)
    dotIndex = p.rfind(extsep)
    if dotIndex > sepIndex:
        # skip all leading dots
        filenameIndex = sepIndex + 1
        while filenameIndex < dotIndex:
            if p[filenameIndex:filenameIndex+1] != extsep:
                return p[:dotIndex], p[dotIndex:]
            filenameIndex += 1
    return p, p[:0]
>>
    The [while] loop runs [dotIndex - filenameIndex] times at most;
    [pending] counts the iterations that are left. *)
Fixpoint skip_leading_dots (pending : nat) (p : string) (dotIndex filenameIndex : nat)
  : string * string :=
  match pending with
  | O => (p, EmptyString)
  | S pending' =>
      if negb (String.eqb (char_at filenameIndex p) ".")
      then (take dotIndex p, drop dotIndex p)
      else skip_leading_dots pending' p dotIndex (S filenameIndex)
  end.

Definition splitext (p : string) : string * string :=
  let sepIndex := rfind p "/" in
  let dotIndex := rfind p "." in
  if (dotIndex >? sepIndex)%Z then
    let filenameIndex := (sepIndex + 1)%Z in
    skip_leading_dots (Z.to_nat (dotIndex - filenameIndex)) p
                      (Z.to_nat dotIndex) (Z.to_nat filenameIndex)
  else (p, EmptyString).

(** [str.startswith] and [str.endswith] for a one-character argument. *)
Definition startswith (p : string) (c : ascii) : bool :=
  match p with
  | String a _ => Ascii.eqb a c
  | EmptyString => false
  end.

Fixpoint endswith (p : string) (c : ascii) : bool :=
  match p with
  | EmptyString => false
  | String a EmptyString => Ascii.eqb a c
  | String _ p' => endswith p' c
  end.

(** [posixpath.join(a, b)] for two components. *)
Definition join (a b : string) : string :=
  if startswith b "/" then b
  else if String.eqb a "" || endswith a "/" then a +:+ b
  else a +:+ "/" +:+ b.

(** [posixpath.basename(p)]: [p[p.rfind("/") + 1:]]. *)
Definition basename (p : string) : string :=
  drop (Z.to_nat (rfind p "/" + 1)) p.

End PyStr.

(* ===================================================================== *)
(** * Python floats                                                       *)
(* ===================================================================== *)

(** Python's [float] is IEEE-754 binary64 with round-to-nearest-even.  The
    operations are those of [SpecFloat] at precision 53; they compute, and
    they round the exact result once. *)
Module PyFloat.

Definition prec : Z := 53.
Definition emax : Z := 1024.

(** [float(z)]: the nearest binary64, exact for [|z| <= 2^53]. *)
Definition of_int (z : Z) : spec_float := binary_normalize prec emax z 0 false.

(** [a / b] on two [int]s (true division).  Python does not convert the
    operands: it rounds the exact quotient of the two integers once, to
    the nearest binary64, ties to even, whatever their size.  So does the
    division of [SpecFloat] on the two magnitudes taken as the mantissas
    of exponent zero.  A quotient that is too large for a float is an
    infinity, which [to_int] refuses with the [OverflowError] that Python
    raises at the division.  Python raises [ZeroDivisionError] for
    [b = 0]; the program divides under the guard [total_orig > 0] only,
    and the value given here for [b = 0] is never looked at. *)
Definition truediv (a b : Z) : spec_float :=
  match a, b with
  | _, Z0 => S754_nan
  | Z0, _ => S754_zero (b <? 0)%Z
  | _, _ =>
      let '(q, e, l) := SFdiv_core_binary prec emax (Z.abs a) 0 (Z.abs b) 0 in
      binary_round_aux prec emax (xorb (a <? 0)%Z (b <? 0)%Z) q e l
  end.

(** [x * k] for a float [x] and an [int] [k]. *)
Definition mul_int (x : spec_float) (k : Z) : spec_float :=
  SFmul prec emax x (of_int k).

(** The magnitude [m * 2^e] with its fractional bits dropped. *)
Definition trunc_mag (m : positive) (e : Z) : Z :=
  match e with
  | Zneg k => Z.shiftr (Zpos m) (Zpos k)
  | _ => Z.shiftl (Zpos m) e
  end.

(** [int(x)]: truncation toward zero; [None] stands for the
    [OverflowError] (infinity) and [ValueError] (NaN) of Python. *)
Definition to_int (x : spec_float) : option Z :=
  match x with
  | S754_zero _ => Some 0%Z
  | S754_finite s m e => Some (if s then - trunc_mag m e else trunc_mag m e)%Z
  | S754_infinity _ | S754_nan => None
  end.

End PyFloat.

(* ===================================================================== *)
(** * Exceptions, responses and the world                                 *)
(* ===================================================================== *)

(** [fastapi.HTTPException] and every other exception (raised by pypdf,
    img2pdf, zipfile or the operating system), both subclasses of
    [Exception]. *)
Inductive exception : Type :=
| HTTPException (status_code : Z) (detail : string)
| OtherException (message : string).

(** [str(e)]; an [HTTPException] prints as ["<status_code>: <detail>"]. *)
Definition str (e : exception) : string :=
  match e with
  | HTTPException status_code detail => pretty status_code +:+ ": " +:+ detail
  | OtherException message => message
  end.

Inductive result (A : Type) : Type :=
| Ok (a : A)
| Raise (e : exception).
Arguments Ok {A} a.
Arguments Raise {A} e.

(** What a route returns: [JSONResponse(status_code, content={"message": m})]
    or [FileResponse(path, filename=..., headers=...)]. *)
Inductive response : Type :=
| JSONResponse (status_code : Z) (message : string)
| FileResponse (path : string) (filename : string) (headers : list (string * string)).

(** [fastapi.UploadFile]: the declared filename and the bytes that
    [upload_file.file.read] will deliver, in order. *)
Record UploadFile : Type := mkUploadFile {
  filename : string;
  file : list Byte.byte
}.

(** What a path of the workspace is created for: [input] is an upload
    that [guardar_con_limite] persists, [output] a file that a route writes
    (a document, or the archive of several). *)
Inductive role : Type := input | output.

(** The state a request runs in.  [fs] maps the path of each regular file
    to its content.  [uuid_draws] counts the calls of [uuid.uuid4].
    [background_tasks] holds the argument of each pending
    [background_tasks.add_task(borrar_archivos, ...)].  The last two fields
    are a history kept for the statements only, the program never reads
    them: [created] lists the paths opened for writing, in order, each with
    its role, and [borrados] the argument of each call of
    [borrar_archivos]. *)
Record World : Type := mkWorld {
  fs : gmap string (list Byte.byte);
  uuid_draws : nat;
  background_tasks : list (list string);
  created : list (role * string);
  borrados : list (list string)
}.

Definition with_fs (f : gmap string (list Byte.byte) -> gmap string (list Byte.byte))
    (w : World) : World :=
  mkWorld (f (fs w)) (uuid_draws w) (background_tasks w) (created w) (borrados w).

(** A request starts with no pending task and an empty history. *)
Definition fresh (files : gmap string (list Byte.byte)) (draws : nat) : World :=
  mkWorld files draws [] [] [].

(** ** The monad of state and exceptions

    [M S A] is a computation over a state [S] that returns an [A] or
    raises; the state reached when an exception is raised is kept, since
    the [except] clauses of the program read the local variables. *)
Definition M (S A : Type) : Type := S -> S * result A.

Definition ret {S A} (a : A) : M S A := fun s => (s, Ok a).
Definition raise {S A} (e : exception) : M S A := fun s => (s, Raise e).
Definition bind {S A B} (m : M S A) (k : A -> M S B) : M S B :=
  fun s =>
    match m s with
    | (s', Ok a) => k a s'
    | (s', Raise e) => (s', Raise e)
    end.

Notation "x <- m ;; k" := (bind m (fun x => k))
  (at level 100, m at next level, right associativity).
Notation "m ;; k" := (bind m (fun _ => k))
  (at level 100, right associativity).

Definition lift_result {S A} (r : result A) : M S A := fun s => (s, r).

(** [for x in xs: body(x)] *)
Fixpoint for_each {S A} (xs : list A) (body : A -> M S unit) : M S unit :=
  match xs with
  | [] => ret tt
  | x :: xs' => body x ;; for_each xs' body
  end.

(** A route keeps its local variables [L] next to the world. *)
Definition in_world {L A} (m : M World A) : M (World * L) A :=
  fun s => let (w', r) := m s.1 in ((w', s.2), r).
Definition get_locals {L} : M (World * L) L := fun s => (s, Ok s.2).
Definition set_locals {L} (f : L -> L) : M (World * L) unit :=
  fun s => ((s.1, f s.2), Ok tt).

(** ** The operating system *)

(** [open(path, "wb")]: creates the file, or truncates it.  [r] is what
    the caller creates the path for; it goes to the history only.  The
    faults of the disk (a full device, a missing directory, a refused
    permission) are not modelled: [open], [write] and the removal of a
    file that exists succeed. *)
Definition open_wb (r : role) (path : string) : M World unit :=
  fun w => (mkWorld (<[path := []]> (fs w)) (uuid_draws w) (background_tasks w)
                    (created w ++ [(r, path)]) (borrados w), Ok tt).

(** [f.write(data)] on the file opened at [path]. *)
Definition write (path : string) (data : list Byte.byte) : M World unit :=
  fun w => (with_fs (alter (fun old => old ++ data) path) w, Ok tt).

Definition os_path_exists (path : string) : M World bool :=
  fun w => (w, Ok (bool_decide (is_Some (fs w !! path)))).

Definition os_remove (path : string) : M World unit :=
  fun w => match fs w !! path with
           | Some _ => (with_fs (delete path) w, Ok tt)
           | None => (w, Raise (OtherException "FileNotFoundError"))
           end.

Definition os_path_getsize (path : string) : M World Z :=
  fun w => match fs w !! path with
           | Some content => (w, Ok (Z.of_nat (length content)))
           | None => (w, Raise (OtherException "FileNotFoundError"))
           end.

(** The content of [path], for the libraries that open a path to read it. *)
Definition read_file (path : string) : M World (list Byte.byte) :=
  fun w => match fs w !! path with
           | Some content => (w, Ok content)
           | None => (w, Raise (OtherException "FileNotFoundError"))
           end.

(** ** Directories

    The world holds regular files only, under the paths as the program
    writes them: two spellings of one path (["a"] and ["./a"]) are two
    paths here.  A directory exists when a file lies under it; the
    directories that exist besides are given to [os_listdir]. *)

(** [s[len(pre):]] when [s] starts with [pre]. *)
Fixpoint strip_prefix (pre s : string) : option string :=
  match pre, s with
  | EmptyString, _ => Some s
  | String a pre', String b s' => if Ascii.eqb a b then strip_prefix pre' s' else None
  | String _ _, EmptyString => None
  end.

(** The first component of a relative path: [s] up to its first separator. *)
Fixpoint primer_componente (s : string) : string :=
  match s with
  | EmptyString => EmptyString
  | String a s' => if Ascii.eqb a "/" then EmptyString else String a (primer_componente s')
  end.

(** The name of the entry of the directory [dir_path] under which the
    file [path] lies, if it lies under that directory. *)
Definition entrada (dir_path path : string) : option string :=
  match strip_prefix (PyStr.join dir_path "") path with
  | Some rest =>
      let name := primer_componente rest in
      if String.eqb name "" then None else Some name
  | None => None
  end.

(** The names of the entries of the directory [dir_path]: the regular
    files and the subdirectories directly inside it, each once, in no
    particular order.  [directorios] are the directories that exist even
    when no file lies under them. *)
Definition nombres_de (directorios : gset string) (dir_path : string) (w : World)
  : list string :=
  remove_dups (omap (entrada dir_path)
                    ((map_to_list (fs w)).*1 ++ elements directorios)).

(** [dir_path] names a directory: it is one of [directorios], or some
    file or some directory lies under it.  The empty path names none. *)
Definition es_directorio (directorios : gset string) (dir_path : string) (w : World)
  : bool :=
  negb (String.eqb dir_path "") &&
  (bool_decide (dir_path ∈ directorios) ||
   match nombres_de directorios dir_path w with [] => false | _ :: _ => true end).

(** [os.listdir(dir_path)]: the names of the entries of the directory.  It
    raises [NotADirectoryError] on a regular file and [FileNotFoundError]
    on a path that does not exist. *)
Definition os_listdir (directorios : gset string) (dir_path : string)
  : M World (list string) :=
  fun w =>
    if es_directorio directorios dir_path w
    then (w, Ok (nombres_de directorios dir_path w))
    else if bool_decide (is_Some (fs w !! dir_path))
    then (w, Raise (OtherException "NotADirectoryError"))
    else (w, Raise (OtherException "FileNotFoundError")).

(** [os.path.isfile(path)]: the world holds regular files only. *)
Definition os_path_isfile (path : string) : M World bool :=
  fun w => (w, Ok (bool_decide (is_Some (fs w !! path)))).

(** [os.unlink(path)], the same call as [os.remove]. *)
Definition os_unlink (path : string) : M World unit := os_remove path.

(** [upload_file.file.read(n)] for a count [n > 0], as the program calls
    it: the next [n] bytes, fewer at the end of the stream, and the stream
    that is left.  Errors of the transport are not modelled. *)
Fixpoint read (n : Z) (stream : list Byte.byte) : list Byte.byte * list Byte.byte :=
  match stream with
  | [] => ([], [])
  | b :: stream' =>
      if (n <=? 0)%Z then ([], stream)
      else let (chunk, rest) := read (n - 1) stream' in (b :: chunk, rest)
  end.

Definition inspect {A} (a : A) : {b | a = b} := exist _ a eq_refl.

(* ===================================================================== *)
(** * main.py                                                             *)
(* ===================================================================== *)

Definition UPLOAD_DIR : string := "temp_uploads".
Definition OUTPUT_DIR : string := "temp_outputs".
Definition MAX_MB_PER_FILE : Z := 30.
Definition ALLOWED_EXTENSIONS : gset string := {[ ".pdf"; ".jpg"; ".jpeg"; ".png" ]}.

(** <<
    def limpiar_inicio(dir_path):
        for filename in os.listdir(dir_path):
            file_path = os.path.join(dir_path, filename)
            try:
                if os.path.isfile(file_path):
                    os.unlink(file_path)
            except Exception:
                pass
>>
    [limpiar_entradas] is the loop over the names that [os.listdir] has
    returned; the [try] swallows whatever [os.unlink] raises, so the loop
    goes on to the next name.  [os.listdir] is called before the [try] is
    entered: what it raises goes to the caller. *)
Fixpoint limpiar_entradas (dir_path : string) (filenames : list string) (w : World)
  : World :=
  match filenames with
  | [] => w
  | filename :: filenames' =>
      let file_path := PyStr.join dir_path filename in
      let w' :=
        match os_path_isfile file_path w with
        | (w1, Ok true) => (os_unlink file_path w1).1
        | (w1, _) => w1
        end in
      limpiar_entradas dir_path filenames' w'
  end.

Definition limpiar_inicio (directorios : gset string) (dir_path : string) : M World unit :=
  filenames <- os_listdir directorios dir_path ;;
  fun w => (limpiar_entradas dir_path filenames w, Ok tt).

(** The module runs it on both directories when it is loaded, after
    [os.makedirs(..., exist_ok=True)] has made sure that they exist:
<<
    os.makedirs(UPLOAD_DIR, exist_ok=True)
    os.makedirs(OUTPUT_DIR, exist_ok=True)
    ...
    limpiar_inicio(UPLOAD_DIR)
    limpiar_inicio(OUTPUT_DIR)
>> *)
Definition limpieza_inicial : M World unit :=
  limpiar_inicio {[ UPLOAD_DIR; OUTPUT_DIR ]} UPLOAD_DIR ;;
  limpiar_inicio {[ UPLOAD_DIR; OUTPUT_DIR ]} OUTPUT_DIR.

(** <<
    def validar_extension(filename: str, permitidas=ALLOWED_EXTENSIONS):
        ext = os.path.splitext(filename)[1].lower()
        if ext not in permitidas:
            raise HTTPException(status_code=400, detail=f"Extensión no permitida: {ext}")
        return ext
>> *)
Definition validar_extension (filename : string) (permitidas : gset string)
  : result string :=
  let ext := PyStr.lower (PyStr.splitext filename).2 in
  if bool_decide (ext ∉ permitidas)
  then Raise (HTTPException 400 ("Extensión no permitida: " +:+ ext))
  else Ok ext.

(** <<
    def borrar_archivos(file_paths: List[str]):
        for path in file_paths:
            try:
                if os.path.exists(path):
                    os.remove(path)
            except Exception as e:
                print(f"Error borrando {path}: {e}")
>>
    [borrar_paths] is the loop; the [try] swallows whatever [os.remove]
    raises, so the loop goes on to the next path. *)
Fixpoint borrar_paths (file_paths : list string) (w : World) : World :=
  match file_paths with
  | [] => w
  | path :: file_paths' =>
      let w' :=
        match os_path_exists path w with
        | (w1, Ok true) => (os_remove path w1).1
        | (w1, _) => w1
        end in
      borrar_paths file_paths' w'
  end.

Definition borrar_archivos (file_paths : list string) : M World unit :=
  fun w =>
    let w' := borrar_paths file_paths w in
    (mkWorld (fs w') (uuid_draws w') (background_tasks w') (created w')
             (borrados w' ++ [file_paths]), Ok tt).

(** <<
    def guardar_con_limite(upload_file: UploadFile, destino_path: str, max_mb: int):
        limit_bytes = max_mb * 1024 * 1024
        file_size = 0
        with open(destino_path, "wb") as buffer:
            while True:
                chunk = upload_file.file.read(1024 * 1024) # Leer 1MB a la vez
                if not chunk:
                    break
                file_size += len(chunk)
                if file_size > limit_bytes:
                    buffer.close()
                    if os.path.exists(destino_path):
                        os.remove(destino_path)
                    raise HTTPException(status_code=413, detail=f"El archivo excede el límite de {max_mb}MB.")
                buffer.write(chunk)
>>
    [guardar_bloques] is the [while True] loop, from the stream that is
    left and the running [file_size]; every turn that goes on has read at
    least one byte, which is why the loop ends. *)
Equations guardar_bloques (stream : list Byte.byte) (destino_path : string)
    (max_mb limit_bytes file_size : Z) : M World unit by wf (length stream) lt :=
  guardar_bloques stream destino_path max_mb limit_bytes file_size
    with inspect (read (1024 * 1024) stream) := {
    | exist _ ([], _) _ => ret tt
    | exist _ (b :: chunk', rest) Hread =>
        let chunk := b :: chunk' in
        let file_size := (file_size + Z.of_nat (length chunk))%Z in
        if (file_size >? limit_bytes)%Z then
          existe <- os_path_exists destino_path ;;
          (if existe : bool then os_remove destino_path else ret tt) ;;
          raise (HTTPException 413
                   ("El archivo excede el límite de " +:+ pretty max_mb +:+ "MB."))
        else
          write destino_path chunk ;;
          guardar_bloques rest destino_path max_mb limit_bytes file_size
    }.
Next Obligation.
  intros stream b chunk' rest Hread destino_path max_mb limit_bytes file_size _.
  cbn beta in Hread.
  enough (forall n s c r, read n s = (c, r) -> c ++ r = s) as Happ.
  { apply Happ in Hread. rewrite <- Hread, length_app. simpl. lia. }
  intros n s. revert n. induction s as [|a s IH]; intros n c r; simpl.
  - by intros [= <- <-].
  - destruct (n <=? 0)%Z; [by intros [= <- <-]|].
    destruct (read (n - 1) s) as [c' r'] eqn:E. intros [= <- <-].
    simpl. f_equal. by eapply IH.
Qed.

Definition guardar_con_limite (upload_file : UploadFile) (destino_path : string)
    (max_mb : Z) : M World unit :=
  let limit_bytes := (max_mb * 1024 * 1024)%Z in
  let file_size := 0%Z in
  open_wb input destino_path ;;
  guardar_bloques (file upload_file) destino_path max_mb limit_bytes file_size.

(** ** The libraries the routes call

    pypdf, img2pdf, zipfile and [uuid] are outside the program; a request
    runs against one behaviour [lib] of them.  [page] is whatever pypdf
    holds for a page.  Each operation that parses or serialises may raise.
    A serialisation that raises has written some bytes already: it returns
    them together with the exception. *)
Record Collaborators (page : Type) : Type := mkCollaborators {
  (** the hexadecimal form of the [n]-th [uuid.uuid4()] of the process *)
  uuid4_hex : nat -> string;
  (** [PdfReader(path).pages] on the content of [path] *)
  PdfReader_pages : list Byte.byte -> result (list page);
  (** [page.compress_content_streams()], the page after it *)
  compress_content_streams : page -> result page;
  (** [page.rotate(grados)], the page after it *)
  rotate : page -> Z -> result page;
  (** [writer.write(f)] for a writer that holds these pages *)
  PdfWriter_write : list page -> list Byte.byte * option exception;
  (** [img2pdf.convert(paths)] on the contents of the paths *)
  img2pdf_convert : list (list Byte.byte) -> result (list Byte.byte);
  (** the archive [zf.write(f, name)] builds from the (name, content) pairs *)
  ZipFile_write : list (string * list Byte.byte) -> list Byte.byte * option exception
}.
Arguments uuid4_hex {page} _ _.
Arguments PdfReader_pages {page} _ _.
Arguments compress_content_streams {page} _ _.
Arguments rotate {page} _ _ _.
Arguments PdfWriter_write {page} _ _.
Arguments img2pdf_convert {page} _ _.
Arguments ZipFile_write {page} _ _.

(** [for x in xs: ys.append(f(x))], stopping at the first [f(x)] that raises. *)
Fixpoint map_result {A B} (f : A -> result B) (xs : list A) : result (list B) :=
  match xs with
  | [] => Ok []
  | x :: xs' =>
      match f x with
      | Raise e => Raise e
      | Ok y => match map_result f xs' with
                | Raise e => Raise e
                | Ok ys => Ok (y :: ys)
                end
      end
  end.

(** [range(a, b)] *)
Definition range (a b : Z) : list Z := seqZ a (b - a).

(** [xs[i]] with Python's negative indices and [IndexError]. *)
Definition py_index {A} (xs : list A) (i : Z) : result A :=
  let n := Z.of_nat (length xs) in
  let j := if (i <? 0)%Z then (i + n)%Z else i in
  if (j <? 0)%Z then Raise (OtherException "IndexError")
  else match xs !! Z.to_nat j with
       | Some x => Ok x
       | None => Raise (OtherException "IndexError")
       end.

Section Routes.

Context {page : Type} (lib : Collaborators page).

(** [uuid.uuid4().hex]: the next identifier of the process. *)
Definition uuid4_draw (w : World) : World * string :=
  (mkWorld (fs w) (S (uuid_draws w)) (background_tasks w) (created w) (borrados w),
   uuid4_hex lib (uuid_draws w)).

Definition uuid4 : M World string :=
  fun w => let (w', hex) := uuid4_draw w in (w', Ok hex).

(** [background_tasks.add_task(borrar_archivos, paths)] *)
Definition add_task (paths : list string) : M World unit :=
  fun w => (mkWorld (fs w) (uuid_draws w) (background_tasks w ++ [paths])
                    (created w) (borrados w), Ok tt).

(** [PdfReader(path)] followed by the reading of its [pages]. *)
Definition PdfReader (path : string) : M World (list page) :=
  content <- read_file path ;;
  lift_result (PdfReader_pages lib content).

(** [with open(path, "wb") as f: writer.write(f)] for a writer that holds
    [pages]; also [writer.write(path)], which opens the path itself. *)
Definition write_pdf (path : string) (pages : list page) : M World unit :=
  open_wb output path ;;
  let (data, failure) := PdfWriter_write lib pages in
  write path data ;;
  match failure with
  | Some e => raise e
  | None => ret tt
  end.

(** Every route has the same frame:
<<
    try:
        ...
    except Exception as e:
        borrar_archivos(<the paths recorded so far>)
        return JSONResponse(status_code=500, content={"message": str(e)})
>>
    [body] is the [try] block over the local variables [L], started from
    [init]; [ledger] reads off the locals the list that the [except] clause
    passes to [borrar_archivos]. *)
Definition try_except {L : Type} (body : M (World * L) response)
    (ledger : L -> list string) (init : L) (w : World) : World * response :=
  match body (w, init) with
  | ((w1, _), Ok r) => (w1, r)
  | ((w1, l), Raise e) =>
      ((borrar_archivos (ledger l) w1).1, JSONResponse 500 (str e))
  end.

(** *** 1. Unir PDFs

<<
  async def api_unir(files: List[UploadFile], background_tasks: BackgroundTasks):
      if not files:
          return JSONResponse(status_code=400, content={"message": "No enviaste archivos."})
      merger = PdfWriter()
      temp_paths = []
      output_filename = f"Unido_{uuid.uuid4().hex}.pdf"
      output_path = os.path.join(OUTPUT_DIR, output_filename)
      try:
          for file in files:
              validar_extension(file.filename, {".pdf"})
              safe_filename = f"{uuid.uuid4().hex}.pdf"
              safe_path = os.path.join(UPLOAD_DIR, safe_filename)
              guardar_con_limite(file, safe_path, MAX_MB_PER_FILE)
              temp_paths.append(safe_path)
              merger.append(safe_path)
          merger.write(output_path)
          merger.close()
          background_tasks.add_task(borrar_archivos, temp_paths + [output_path])
          return FileResponse(output_path, filename="PDFlex_Unido.pdf", headers={"X-Success-Message": "Unión exitosa"})
      except Exception as e:
          borrar_archivos(temp_paths)
          return JSONResponse(status_code=500, content={"message": str(e)})
>> *)
Record unir_locals : Type := mkUnirLocals {
  merger : list page;
  unir_temp_paths : list string
}.

Definition unir_file (file : UploadFile) : M (World * unir_locals) unit :=
  _ <- lift_result (validar_extension (filename file) {[ ".pdf" ]}) ;;
  hex <- in_world uuid4 ;;
  let safe_filename := hex +:+ ".pdf" in
  let safe_path := PyStr.join UPLOAD_DIR safe_filename in
  in_world (guardar_con_limite file safe_path MAX_MB_PER_FILE) ;;
  set_locals (fun l => mkUnirLocals (merger l) (unir_temp_paths l ++ [safe_path])) ;;
  pages <- in_world (PdfReader safe_path) ;;
  set_locals (fun l => mkUnirLocals (merger l ++ pages) (unir_temp_paths l)).

Definition unir_try (files : list UploadFile) (output_path : string)
  : M (World * unir_locals) response :=
  for_each files unir_file ;;
  l <- get_locals ;;
  in_world (write_pdf output_path (merger l)) ;;
  l <- get_locals ;;
  in_world (add_task (unir_temp_paths l ++ [output_path])) ;;
  ret (FileResponse output_path "PDFlex_Unido.pdf"
         [("X-Success-Message", "Unión exitosa")]).

Definition api_unir (files : list UploadFile) (w : World) : World * response :=
  match files with
  | [] => (w, JSONResponse 400 "No enviaste archivos.")
  | _ :: _ =>
      let (w0, hex) := uuid4_draw w in
      let output_filename := "Unido_" +:+ hex +:+ ".pdf" in
      let output_path := PyStr.join OUTPUT_DIR output_filename in
      try_except (unir_try files output_path) unir_temp_paths (mkUnirLocals [] []) w0
  end.

(** *** 2. Comprimir PDFs

<<
  async def api_comprimir(files: List[UploadFile], background_tasks: BackgroundTasks):
      if not files:
          return JSONResponse(status_code=400, content={"message": "Falta el archivo."})
      processed_files = []
      temp_inputs = []
      total_orig = 0
      total_comp = 0
      try:
          for file in files:
              validar_extension(file.filename, {".pdf"})
              safe_filename = f"{uuid.uuid4().hex}.pdf"
              input_path = os.path.join(UPLOAD_DIR, safe_filename)
              guardar_con_limite(file, input_path, MAX_MB_PER_FILE)
              temp_inputs.append(input_path)
              total_orig += os.path.getsize(input_path)
              reader = PdfReader(input_path)
              writer = PdfWriter()
              for page in reader.pages:
                  writer.add_page(page)
                  writer.pages[-1].compress_content_streams()
              output_name = f"Mini_{uuid.uuid4().hex}.pdf"
              output_path = os.path.join(OUTPUT_DIR, output_name)
              with open(output_path, "wb") as f:
                  writer.write(f)
              total_comp += os.path.getsize(output_path)
              processed_files.append(output_path)
          if len(processed_files) == 1:
              final_path = processed_files[0]
              download_name = "PDFlex_Comprimido.pdf"
          else:
              final_path = os.path.join(OUTPUT_DIR, f"Pack_{uuid.uuid4().hex}.zip")
              with zipfile.ZipFile(final_path, 'w') as zf:
                  for f in processed_files:
                      zf.write(f, os.path.basename(f))
              processed_files.append(final_path) # Agregar zip a la lista de borrado
              download_name = "PDFlex_Pack.zip"
          ahorro = total_orig - total_comp
          porcentaje = int((ahorro / total_orig) * 100) if total_orig > 0 else 0
          background_tasks.add_task(borrar_archivos, temp_inputs + processed_files)
          headers = {
              "Access-Control-Expose-Headers": "X-Savings-Percent",
              "X-Savings-Percent": str(porcentaje)
          }
          return FileResponse(final_path, filename=download_name, headers=headers)
      except Exception as e:
          borrar_archivos(temp_inputs + processed_files)
          return JSONResponse(status_code=500, content={"message": str(e)})
>> *)
Record comprimir_locals : Type := mkComprimirLocals {
  processed_files : list string;
  temp_inputs : list string;
  total_orig : Z;
  total_comp : Z
}.

Definition comprimir_file (file : UploadFile) : M (World * comprimir_locals) unit :=
  _ <- lift_result (validar_extension (filename file) {[ ".pdf" ]}) ;;
  hex <- in_world uuid4 ;;
  let safe_filename := hex +:+ ".pdf" in
  let input_path := PyStr.join UPLOAD_DIR safe_filename in
  in_world (guardar_con_limite file input_path MAX_MB_PER_FILE) ;;
  set_locals (fun l => mkComprimirLocals (processed_files l)
                         (temp_inputs l ++ [input_path]) (total_orig l) (total_comp l)) ;;
  size <- in_world (os_path_getsize input_path) ;;
  set_locals (fun l => mkComprimirLocals (processed_files l) (temp_inputs l)
                         (total_orig l + size) (total_comp l)) ;;
  reader_pages <- in_world (PdfReader input_path) ;;
  writer_pages <- lift_result (map_result (compress_content_streams lib) reader_pages) ;;
  hex <- in_world uuid4 ;;
  let output_name := "Mini_" +:+ hex +:+ ".pdf" in
  let output_path := PyStr.join OUTPUT_DIR output_name in
  in_world (write_pdf output_path writer_pages) ;;
  size <- in_world (os_path_getsize output_path) ;;
  set_locals (fun l => mkComprimirLocals (processed_files l) (temp_inputs l)
                         (total_orig l) (total_comp l + size)) ;;
  set_locals (fun l => mkComprimirLocals (processed_files l ++ [output_path])
                         (temp_inputs l) (total_orig l) (total_comp l)).

(** [with zipfile.ZipFile(final_path, 'w') as zf:
       for f in processed_files: zf.write(f, os.path.basename(f))] *)
Definition read_entry (f : string) : M World (string * list Byte.byte) :=
  content <- read_file f ;;
  ret (PyStr.basename f, content).

Fixpoint read_entries (paths : list string) : M World (list (string * list Byte.byte)) :=
  match paths with
  | [] => ret []
  | f :: paths' =>
      entry <- read_entry f ;;
      entries <- read_entries paths' ;;
      ret (entry :: entries)
  end.

Definition write_zip (final_path : string) (paths : list string) : M World unit :=
  open_wb output final_path ;;
  entries <- read_entries paths ;;
  let (data, failure) := ZipFile_write lib entries in
  write final_path data ;;
  match failure with
  | Some e => raise e
  | None => ret tt
  end.

(** [int((ahorro / total_orig) * 100) if total_orig > 0 else 0], with
    [ahorro = total_orig - total_comp]. *)
Definition porcentaje (total_orig total_comp : Z) : result Z :=
  let ahorro := (total_orig - total_comp)%Z in
  if (total_orig >? 0)%Z then
    match PyFloat.to_int (PyFloat.mul_int (PyFloat.truediv ahorro total_orig) 100) with
    | Some z => Ok z
    | None => Raise (OtherException "OverflowError")
    end
  else Ok 0%Z.

Definition comprimir_try (files : list UploadFile) : M (World * comprimir_locals) response :=
  for_each files comprimir_file ;;
  l <- get_locals ;;
  final <-
    (if (Z.of_nat (length (processed_files l)) =? 1)%Z then
       final_path <- lift_result (py_index (processed_files l) 0) ;;
       ret (final_path, "PDFlex_Comprimido.pdf")
     else
       hex <- in_world uuid4 ;;
       let final_path := PyStr.join OUTPUT_DIR ("Pack_" +:+ hex +:+ ".zip") in
       in_world (write_zip final_path (processed_files l)) ;;
       set_locals (fun l => mkComprimirLocals (processed_files l ++ [final_path])
                              (temp_inputs l) (total_orig l) (total_comp l)) ;;
       ret (final_path, "PDFlex_Pack.zip")) ;;
  let final_path : string := final.1 in
  let download_name : string := final.2 in
  l <- get_locals ;;
  pct <- lift_result (porcentaje (total_orig l) (total_comp l)) ;;
  in_world (add_task (temp_inputs l ++ processed_files l)) ;;
  let headers := [("Access-Control-Expose-Headers", "X-Savings-Percent");
                  ("X-Savings-Percent", pretty pct)] in
  ret (FileResponse final_path download_name headers).

Definition api_comprimir (files : list UploadFile) (w : World) : World * response :=
  match files with
  | [] => (w, JSONResponse 400 "Falta el archivo.")
  | _ :: _ =>
      try_except (comprimir_try files) (fun l => temp_inputs l ++ processed_files l)
        (mkComprimirLocals [] [] 0 0) w
  end.

(** *** 3. Imágenes a PDF

<<
  async def api_img2pdf(files: List[UploadFile], background_tasks: BackgroundTasks):
      if not files:
          return JSONResponse(status_code=400, content={"message": "No hay imágenes."})
      img_paths = []
      output_filename = f"Album_{uuid.uuid4().hex}.pdf"
      output_path = os.path.join(OUTPUT_DIR, output_filename)
      try:
          for file in files:
              ext = validar_extension(file.filename, {".jpg", ".jpeg", ".png"})
              safe_filename = f"{uuid.uuid4().hex}{ext}"
              path = os.path.join(UPLOAD_DIR, safe_filename)
              guardar_con_limite(file, path, MAX_MB_PER_FILE)
              img_paths.append(path)
          pdf_bytes = img2pdf.convert(img_paths)
          with open(output_path, "wb") as f:
              f.write(pdf_bytes)
          background_tasks.add_task(borrar_archivos, img_paths + [output_path])
          return FileResponse(output_path, filename="PDFlex_Album.pdf")
      except Exception as e:
          borrar_archivos(img_paths)
          return JSONResponse(status_code=500, content={"message": str(e)})
>> *)
Definition img2pdf_file (file : UploadFile) : M (World * list string) unit :=
  ext <- lift_result (validar_extension (filename file) {[ ".jpg"; ".jpeg"; ".png" ]}) ;;
  hex <- in_world uuid4 ;;
  let safe_filename := hex +:+ ext in
  let path := PyStr.join UPLOAD_DIR safe_filename in
  in_world (guardar_con_limite file path MAX_MB_PER_FILE) ;;
  set_locals (fun img_paths => img_paths ++ [path]).

Fixpoint read_files (paths : list string) : M World (list (list Byte.byte)) :=
  match paths with
  | [] => ret []
  | path :: paths' =>
      content <- read_file path ;;
      contents <- read_files paths' ;;
      ret (content :: contents)
  end.

Definition img2pdf_try (files : list UploadFile) (output_path : string)
  : M (World * list string) response :=
  for_each files img2pdf_file ;;
  img_paths <- get_locals ;;
  contents <- in_world (read_files img_paths) ;;
  pdf_bytes <- lift_result (img2pdf_convert lib contents) ;;
  in_world (open_wb output output_path) ;;
  in_world (write output_path pdf_bytes) ;;
  in_world (add_task (img_paths ++ [output_path])) ;;
  ret (FileResponse output_path "PDFlex_Album.pdf" []).

Definition api_img2pdf (files : list UploadFile) (w : World) : World * response :=
  match files with
  | [] => (w, JSONResponse 400 "No hay imágenes.")
  | _ :: _ =>
      let (w0, hex) := uuid4_draw w in
      let output_filename := "Album_" +:+ hex +:+ ".pdf" in
      let output_path := PyStr.join OUTPUT_DIR output_filename in
      try_except (img2pdf_try files output_path) (fun img_paths => img_paths) [] w0
  end.

(** *** 4. Extraer páginas

<<
  async def api_extraer(file, background_tasks, inicio: int = Form(...), fin: int = Form(...)):
      temp_paths = []
      try:
          validar_extension(file.filename, {".pdf"})
          safe_filename = f"{uuid.uuid4().hex}.pdf"
          input_path = os.path.join(UPLOAD_DIR, safe_filename)
          guardar_con_limite(file, input_path, MAX_MB_PER_FILE)
          temp_paths.append(input_path)
          reader = PdfReader(input_path)
          writer = PdfWriter()
          total_pages = len(reader.pages)
          if inicio < 1 or fin > total_pages or inicio > fin:
              raise HTTPException(status_code=400, detail=f"Rango inválido. El PDF tiene {total_pages} páginas.")
          for i in range(inicio - 1, fin):
              writer.add_page(reader.pages[i])
          output_filename = f"Extraido_{uuid.uuid4().hex}.pdf"
          output_path = os.path.join(OUTPUT_DIR, output_filename)
          with open(output_path, "wb") as f:
              writer.write(f)
          background_tasks.add_task(borrar_archivos, temp_paths + [output_path])
          return FileResponse(output_path, filename="PDFlex_Extraido.pdf")
      except Exception as e:
          borrar_archivos(temp_paths)
          return JSONResponse(status_code=500, content={"message": str(e)})
>> *)
Definition rango_invalido (total_pages : Z) : exception :=
  HTTPException 400
    ("Rango inválido. El PDF tiene " +:+ pretty total_pages +:+ " páginas.").

Definition extraer_try (file : UploadFile) (inicio fin : Z)
  : M (World * list string) response :=
  _ <- lift_result (validar_extension (filename file) {[ ".pdf" ]}) ;;
  hex <- in_world uuid4 ;;
  let safe_filename := hex +:+ ".pdf" in
  let input_path := PyStr.join UPLOAD_DIR safe_filename in
  in_world (guardar_con_limite file input_path MAX_MB_PER_FILE) ;;
  set_locals (fun temp_paths => temp_paths ++ [input_path]) ;;
  reader_pages <- in_world (PdfReader input_path) ;;
  let total_pages := Z.of_nat (length reader_pages) in
  (if (inicio <? 1)%Z || (fin >? total_pages)%Z || (inicio >? fin)%Z
   then raise (rango_invalido total_pages)
   else ret tt) ;;
  writer_pages <- lift_result (map_result (py_index reader_pages) (range (inicio - 1) fin)) ;;
  hex <- in_world uuid4 ;;
  let output_filename := "Extraido_" +:+ hex +:+ ".pdf" in
  let output_path := PyStr.join OUTPUT_DIR output_filename in
  in_world (write_pdf output_path writer_pages) ;;
  temp_paths <- get_locals ;;
  in_world (add_task (temp_paths ++ [output_path])) ;;
  ret (FileResponse output_path "PDFlex_Extraido.pdf" []).

Definition api_extraer (file : UploadFile) (inicio fin : Z) (w : World)
  : World * response :=
  try_except (extraer_try file inicio fin) (fun temp_paths => temp_paths) [] w.

(** *** 5. Rotar PDF

<<
  async def api_rotar(file, background_tasks, grados: int = Form(...)):
      temp_paths = []
      try:
          validar_extension(file.filename, {".pdf"})
          if grados not in [90, 180, 270]:
              raise HTTPException(status_code=400, detail="Solo se permiten 90, 180 o 270 grados.")
          safe_filename = f"{uuid.uuid4().hex}.pdf"
          input_path = os.path.join(UPLOAD_DIR, safe_filename)
          guardar_con_limite(file, input_path, MAX_MB_PER_FILE)
          temp_paths.append(input_path)
          reader = PdfReader(input_path)
          writer = PdfWriter()
          for page in reader.pages:
              page.rotate(grados)
              writer.add_page(page)
          output_filename = f"Rotado_{uuid.uuid4().hex}.pdf"
          output_path = os.path.join(OUTPUT_DIR, output_filename)
          with open(output_path, "wb") as f:
              writer.write(f)
          background_tasks.add_task(borrar_archivos, temp_paths + [output_path])
          return FileResponse(output_path, filename="PDFlex_Rotado.pdf")
      except Exception as e:
          borrar_archivos(temp_paths)
          return JSONResponse(status_code=500, content={"message": str(e)})
>> *)
Definition grados_invalidos : exception :=
  HTTPException 400 "Solo se permiten 90, 180 o 270 grados.".

Definition rotar_try (file : UploadFile) (grados : Z)
  : M (World * list string) response :=
  _ <- lift_result (validar_extension (filename file) {[ ".pdf" ]}) ;;
  (if bool_decide (grados ∉ [90; 180; 270]%Z)
   then raise grados_invalidos
   else ret tt) ;;
  hex <- in_world uuid4 ;;
  let safe_filename := hex +:+ ".pdf" in
  let input_path := PyStr.join UPLOAD_DIR safe_filename in
  in_world (guardar_con_limite file input_path MAX_MB_PER_FILE) ;;
  set_locals (fun temp_paths => temp_paths ++ [input_path]) ;;
  reader_pages <- in_world (PdfReader input_path) ;;
  writer_pages <- lift_result (map_result (fun p => rotate lib p grados) reader_pages) ;;
  hex <- in_world uuid4 ;;
  let output_filename := "Rotado_" +:+ hex +:+ ".pdf" in
  let output_path := PyStr.join OUTPUT_DIR output_filename in
  in_world (write_pdf output_path writer_pages) ;;
  temp_paths <- get_locals ;;
  in_world (add_task (temp_paths ++ [output_path])) ;;
  ret (FileResponse output_path "PDFlex_Rotado.pdf" []).

Definition api_rotar (file : UploadFile) (grados : Z) (w : World) : World * response :=
  try_except (rotar_try file grados) (fun temp_paths => temp_paths) [] w.

(** ** Requests

    The five [@app.post] routes, and what the framework does with a
    request: run the route, hand the response over, then run the
    background tasks the route has added, in order. *)
Inductive request : Type :=
| PostUnir (files : list UploadFile)
| PostComprimir (files : list UploadFile)
| PostImg2pdf (files : list UploadFile)
| PostExtraer (file : UploadFile) (inicio fin : Z)
| PostRotar (file : UploadFile) (grados : Z).

Definition app (req : request) : World -> World * response :=
  match req with
  | PostUnir files => api_unir files
  | PostComprimir files => api_comprimir files
  | PostImg2pdf files => api_img2pdf files
  | PostExtraer file inicio fin => api_extraer file inicio fin
  | PostRotar file grados => api_rotar file grados
  end.

Fixpoint run_tasks (tasks : list (list string)) (w : World) : World :=
  match tasks with
  | [] => w
  | paths :: tasks' => run_tasks tasks' (borrar_archivos paths w).1
  end.

Definition run_background_tasks (w : World) : World :=
  run_tasks (background_tasks w)
    (mkWorld (fs w) (uuid_draws w) [] (created w) (borrados w)).

Definition serve (req : request) (w : World) : World * response :=
  let (w', r) := app req w in (run_background_tasks w', r).

End Routes.

(* ===================================================================== *)
(** * The vocabulary of the statements                                    *)
(* ===================================================================== *)

(** ** Errors and responses *)

(** The exceptions that [validar_extension] raises on an empty extension
    and that [guardar_con_limite] raises over the limit. *)
Definition extension_vacia : exception :=
  HTTPException 400 "Extensión no permitida: ".

Definition limite_excedido (max_mb : Z) : exception :=
  HTTPException 413 ("El archivo excede el límite de " +:+ pretty max_mb +:+ "MB.").

(** The allowed sets the program passes to [validar_extension]. *)
Definition conjuntos_permitidos : list (gset string) :=
  [ ALLOWED_EXTENSIONS; {[ ".pdf" ]}; {[ ".jpg"; ".jpeg"; ".png" ]} ].

(** The response is a file, not an error. *)
Definition respuesta_archivo (r : response) : bool :=
  match r with
  | FileResponse _ _ _ => true
  | JSONResponse _ _ => false
  end.

(** The requests that the routes answer at once with a 400, having no file. *)
Definition sin_archivos (req : request) : bool :=
  match req with
  | PostUnir [] | PostComprimir [] | PostImg2pdf [] => true
  | _ => false
  end.

(** ** A program logic for the routes *)

(** [hoare P m Q E]: from a state in [P], [m] ends in a state in [Q] with
    its value, or raises in a state in [E].  [M] is total, so this is
    total correctness. *)
Definition hoare {S A : Type} (P : S -> Prop) (m : M S A)
    (Q : S -> A -> Prop) (E : S -> Prop) : Prop :=
  forall s, P s ->
    match m s with
    | (s', Ok a) => Q s' a
    | (s', Raise _) => E s'
    end.

(** [m] reads the world and leaves it as it is. *)
Definition readonly {A} (m : M World A) : Prop := forall w, (m w).1 = w.

(** [m] opens no path. *)
Definition no_crea {A} (m : M World A) : Prop := forall w, created (m w).1 = created w.

(** ** The ledger of a request *)

(** No cleanup has been scheduled or run yet. *)
Definition quiet (w : World) : Prop :=
  background_tasks w = [] /\ borrados w = [].

(** Every path created so far is in the ledger, but for those of [pend]. *)
Definition recorded {L : Type} (ledger : L -> list string)
    (pend : list (role * string)) (s : World * L) : Prop :=
  quiet s.1 /\
  forall rp, rp ∈ created s.1 -> rp.2 ∈ ledger s.2 \/ rp ∈ pend.

(** Every upload persisted so far is in the ledger; the one exception is
    the upload that was being persisted last, which is gone then. *)
Definition safe {L : Type} (ledger : L -> list string) (s : World * L) : Prop :=
  quiet s.1 /\
  forall p, (input, p) ∈ created s.1 ->
    p ∈ ledger s.2 \/
    (fs s.1 !! p = None /\ last (created s.1) = Some (input, p)).

(** One cleanup is scheduled, over a list that holds every path created. *)
Definition scheduled {L : Type} (s : World * L) : Prop :=
  exists paths, background_tasks s.1 = [paths] /\ borrados s.1 = [] /\
                forall rp, rp ∈ created s.1 -> rp.2 ∈ paths.

(** The route has scheduled its cleanup and serves a file. *)
Definition entregado {L : Type} (s : World * L) (r : response) : Prop :=
  scheduled s /\ respuesta_archivo r = true.

(** The lists that the [except] clauses pass to [borrar_archivos]:
    [temp_inputs + processed_files] for the compress route, the one list
    of paths the route keeps for the others. *)
Definition comprimir_ledger (l : comprimir_locals) : list string :=
  temp_inputs l ++ processed_files l.

Definition lista (paths : list string) : list string := paths.

(** What a request has left when its route and its background tasks are
    over: one call of [borrar_archivos]; every upload is in its list, or
    was the last path created and deleted by the writer itself; no upload
    exists any more; and when a file is served, every path created is in
    the list. *)
Definition limpio (w : World) (r : response) : Prop :=
  exists paths,
    borrados w = [paths] /\
    background_tasks w = [] /\
    (forall p, (input, p) ∈ created w ->
       p ∈ paths \/ last (created w) = Some (input, p)) /\
    (forall p, (input, p) ∈ created w -> fs w !! p = None) /\
    (if respuesta_archivo r
     then forall rp, rp ∈ created w -> rp.2 ∈ paths /\ fs w !! rp.2 = None
     else exists e, r = JSONResponse 500 (str e)).

(** Every path created during the request is in the list of some call of
    [borrar_archivos]. *)
Definition ledger_completo (w : World) : bool :=
  forallb (fun rp : role * string =>
             existsb (fun paths : list string => bool_decide (rp.2 ∈ paths)) (borrados w))
          (created w).

(** ** Validation and persistence *)

(** The outcome of a loop that meets a refused file after [r]. *)
Definition detener {S} (e : exception) (r : S * result unit) : S * result unit :=
  match r with
  | (s', Ok _) => (s', Raise e)
  | (s', Raise e') => (s', Raise e')
  end.

(** No path is created by a request in which some declared filename is
    refused: C5 as it is stated, for the merge route. *)
Definition validacion_previa {page : Type} (lib : Collaborators page)
    (files : list UploadFile) (w : World) : Prop :=
  (exists f e, f ∈ files /\ validar_extension (filename f) {[ ".pdf" ]} = Raise e) ->
  created (api_unir lib files w).1 = created w.

(** ** Paths and declared filenames *)



(** The prefixes of the names of the outputs. *)
Definition prefijos_salida : list string :=
  ["Unido_"; "Mini_"; "Pack_"; "Album_"; "Extraido_"; "Rotado_"].

(** An upload is stored under the upload directory, as an identifier
    followed by an extension of the allow-list; an output under the
    output directory, as a fixed prefix, an identifier and [".pdf"] or
    [".zip"]. *)
Definition forma {page : Type} (lib : Collaborators page) (rp : role * string) : Prop :=
  match rp.1 with
  | input =>
      exists n ext, ext ∈ ALLOWED_EXTENSIONS /\
                    rp.2 = PyStr.join UPLOAD_DIR (uuid4_hex lib n +:+ ext)
  | output =>
      exists n prefijo ext,
        prefijo ∈ prefijos_salida /\ ext ∈ [".pdf"; ".zip"] /\
        rp.2 = PyStr.join OUTPUT_DIR (prefijo +:+ uuid4_hex lib n +:+ ext)
  end.

(** Every path created since [c0] has the form of its role. *)
Definition formado {page : Type} (lib : Collaborators page) {L : Type}
    (c0 : list (role * string)) (s : World * L) : Prop :=
  forall rp, rp ∈ created s.1 -> rp ∈ c0 \/ forma lib rp.

(** Every path created since [c0] satisfies [F]. *)
Definition formado_por {L : Type} (F : role * string -> Prop)
    (c0 : list (role * string)) (s : World * L) : Prop :=
  forall rp, rp ∈ created s.1 -> rp ∈ c0 \/ F rp.

(** The form of the paths of one request: an upload of a document route
    is stored as an identifier and [".pdf"], an upload of the image route
    as an identifier and the extension that [validar_extension] has
    returned for the declared filename of one of the uploads; an output is
    the prefix of its route, an identifier and [".pdf"], or [".zip"] for
    the archive. *)
Definition forma_peticion {page : Type} (lib : Collaborators page) (req : request)
    (rp : role * string) : Prop :=
  let entrada_pdf :=
    exists n, rp.2 = PyStr.join UPLOAD_DIR (uuid4_hex lib n +:+ ".pdf") in
  let salida (prefijo ext : string) :=
    exists n, rp.2 = PyStr.join OUTPUT_DIR (prefijo +:+ uuid4_hex lib n +:+ ext) in
  match req, rp.1 with
  | PostUnir _, input => entrada_pdf
  | PostUnir _, output => salida "Unido_" ".pdf"
  | PostComprimir _, input => entrada_pdf
  | PostComprimir _, output => salida "Mini_" ".pdf" \/ salida "Pack_" ".zip"
  | PostImg2pdf files, input =>
      exists n f ext,
        f ∈ files /\
        validar_extension (filename f) {[ ".jpg"; ".jpeg"; ".png" ]} = Ok ext /\
        rp.2 = PyStr.join UPLOAD_DIR (uuid4_hex lib n +:+ ext)
  | PostImg2pdf _, output => salida "Album_" ".pdf"
  | PostExtraer _ _ _, input => entrada_pdf
  | PostExtraer _ _ _, output => salida "Extraido_" ".pdf"
  | PostRotar _ _, input => entrada_pdf
  | PostRotar _ _, output => salida "Rotado_" ".pdf"
  end.


(** ** The suffix of a filename *)

(** [s] is made of periods only. *)
Fixpoint solo_puntos (s : string) : bool :=
  match s with
  | EmptyString => true
  | String a s' => Ascii.eqb a "." && solo_puntos s'
  end.

(** The filename is [root], which has a character other than a period in
    its last component, followed by a period and by [sufijo], which holds
    neither a period nor a separator. *)
Definition con_sufijo (nombre root sufijo : string) : Prop :=
  exists pre a mid,
    a <> "."%char /\ a <> "/"%char /\ PyStr.contains "/" mid = false /\
    PyStr.contains "." sufijo = false /\ PyStr.contains "/" sufijo = false /\
    root = pre +:+ String a mid /\
    nombre = root +:+ String "." sufijo.

(** The last component of the filename is a run of periods followed by
    characters that hold no period. *)
Definition sin_sufijo (nombre : string) : Prop :=
  exists pre puntos resto,
    (pre = "" \/ PyStr.endswith pre "/" = true) /\ solo_puntos puntos = true /\
    PyStr.contains "." resto = false /\ PyStr.contains "/" resto = false /\
    nombre = pre +:+ puntos +:+ resto.

(** Every character of [s] is an ASCII character: on such a string
    [PyStr.lower] is [str.lower]. *)
Fixpoint es_ascii (s : string) : bool :=
  match s with
  | EmptyString => true
  | String a s' => (N_of_ascii a <? 128)%N && es_ascii s'
  end.

(** ** The savings percentage *)

(** The percentage as the specification words it:
    [floor((orig - compressed) / orig * 100)], and [0] when [orig == 0]. *)
Definition porcentaje_segun_spec (orig compressed : Z) : Z :=
  if (orig =? 0)%Z then 0%Z else ((orig - compressed) * 100 / orig)%Z.

(** ** The startup cleanup *)

(** [path] is a file directly inside the directory [dir_path]. *)
Definition hijo (dir_path path : string) : bool :=
  match strip_prefix (PyStr.join dir_path "") path with
  | Some rest => negb (String.eqb rest "") && negb (PyStr.contains "/" rest)
  | None => false
  end.

(** ** Documents and images that go through *)

(** An upload that the PDF routes accept, that fits the limit and that
    pypdf reads as [pages]. *)
Definition documento_valido {page : Type} (lib : Collaborators page)
    (f : UploadFile) (pages : list page) : Prop :=
  (exists ext, validar_extension (filename f) {[ ".pdf" ]} = Ok ext) /\
  (Z.of_nat (length (file f)) <= MAX_MB_PER_FILE * 1024 * 1024)%Z /\
  PdfReader_pages lib (file f) = Ok pages.

(** What the compress route writes for an upload: the serialisation of its
    pages, each with its content streams compressed. *)
Definition comprimido {page : Type} (lib : Collaborators page) (f : UploadFile)
  : result (list Byte.byte) :=
  match PdfReader_pages lib (file f) with
  | Raise e => Raise e
  | Ok reader_pages =>
      match map_result (compress_content_streams lib) reader_pages with
      | Raise e => Raise e
      | Ok writer_pages =>
          match PdfWriter_write lib writer_pages with
          | (data, None) => Ok data
          | (_, Some e) => Raise e
          end
      end
  end.

(** The sum of the sizes of some contents. *)
Definition total_bytes (contents : list (list Byte.byte)) : Z :=
  foldr (fun c n => (Z.of_nat (length c) + n)%Z) 0%Z contents.

(** The paths of the compressed documents and of the archive, by the
    number of the draw that names them. *)
Definition mini_path {page : Type} (lib : Collaborators page) (n : nat) : string :=
  PyStr.join OUTPUT_DIR ("Mini_" +:+ uuid4_hex lib n +:+ ".pdf").

Definition pack_path {page : Type} (lib : Collaborators page) (n : nat) : string :=
  PyStr.join OUTPUT_DIR ("Pack_" +:+ uuid4_hex lib n +:+ ".zip").

(** The identifiers are pairwise distinct and hold neither a period nor a
    separator, as the 32 hexadecimal digits of [uuid.uuid4().hex] do when
    no two draws collide. *)
Definition identificadores_sanos {page : Type} (lib : Collaborators page) : Prop :=
  (forall n m, uuid4_hex lib n = uuid4_hex lib m -> n = m) /\
  (forall n, PyStr.contains "." (uuid4_hex lib n) = false /\
             PyStr.contains "/" (uuid4_hex lib n) = false).

(** An upload that the image route accepts under [ext] and that fits the
    limit. *)
Definition imagen_valida (f : UploadFile) (ext : string) : Prop :=
  validar_extension (filename f) {[ ".jpg"; ".jpeg"; ".png" ]} = Ok ext /\
  (Z.of_nat (length (file f)) <= MAX_MB_PER_FILE * 1024 * 1024)%Z.

(** The paths of the images of a request whose first image is named by
    the draw [n]. *)
Fixpoint rutas_imagenes {page : Type} (lib : Collaborators page) (n : nat)
    (exts : list string) : list string :=
  match exts with
  | [] => []
  | ext :: exts' =>
      PyStr.join UPLOAD_DIR (uuid4_hex lib n +:+ ext) :: rutas_imagenes lib (S n) exts'
  end.

(** ** Isolation *)

(** The paths opened for writing so far. *)
Definition rutas (w : World) : list string := (created w).*2.

(** From [w] to [w'] paths have been created, no path was touched that
    [w'] does not list as created, and the pending tasks are the same. *)
Definition crece (w w' : World) : Prop :=
  (forall q, q ∈ rutas w -> q ∈ rutas w') /\
  (forall p, p ∉ rutas w' -> fs w' !! p = fs w !! p) /\
  background_tasks w' = background_tasks w.

(** The same, and no file has disappeared. *)
Definition conserva (w w' : World) : Prop :=
  crece w w' /\ forall q, is_Some (fs w !! q) -> is_Some (fs w' !! q).

(** Since [w0], only created paths were touched, and the pending tasks
    list created paths only. *)
Definition aislado (w0 w : World) : Prop :=
  (forall p, p ∉ rutas w -> fs w !! p = fs w0 !! p) /\
  (forall paths q, paths ∈ background_tasks w -> q ∈ paths -> q ∈ rutas w).

(** [q] was created by the request and holds a file. *)
Definition vivo (w : World) (q : string) : Prop :=
  q ∈ rutas w /\ is_Some (fs w !! q).

(** The state of a [try] block that goes on: the paths of the ledger and
    those of [pend] were created by the request and hold a file. *)
Definition propio {L : Type} (ledger : L -> list string) (w0 : World)
    (pend : list string) (s : World * L) : Prop :=
  aislado w0 s.1 /\
  forall q, q ∈ ledger s.2 \/ q ∈ pend -> vivo s.1 q.

(** The state an [except] clause starts in: the ledger lists created
    paths only. *)
Definition propio_error {L : Type} (ledger : L -> list string) (w0 : World)
    (s : World * L) : Prop :=
  aislado w0 s.1 /\
  forall q, q ∈ ledger s.2 -> q ∈ rutas s.1.

(** The route serves a file that it created and that exists. *)
Definition servido {L : Type} (w0 : World) (s : World * L) (r : response) : Prop :=
  aislado w0 s.1 /\
  exists path name headers, r = FileResponse path name headers /\ vivo s.1 path.

(** ** Concrete runs *)

(** A behaviour of the libraries to run the routes on: the identifiers are
    the decimal numbers of the draws, a document has one page per byte,
    and every operation of the libraries succeeds. *)
Definition lib_demo : Collaborators Byte.byte :=
  {| uuid4_hex n := pretty n;
     PdfReader_pages content := Ok content;
     compress_content_streams p := Ok p;
     rotate p grados := Ok p;
     PdfWriter_write pages := (pages, None);
     img2pdf_convert contents := Ok (concat contents);
     ZipFile_write entries := (concat (map snd entries), None) |}.

(** The same, but for a writer that raises while it serialises, after the
    destination has been opened: what pypdf does on a document whose
    objects it resolves only when they are written. *)
Definition lib_escritura_falla : Collaborators Byte.byte :=
  {| uuid4_hex n := pretty n;
     PdfReader_pages content := Ok content;
     compress_content_streams p := Ok p;
     rotate p grados := Ok p;
     PdfWriter_write pages := ([], Some (OtherException "PdfReadError"));
     img2pdf_convert contents := Ok (concat contents);
     ZipFile_write entries := (concat (map snd entries), None) |}.

(** A two-byte upload and a five-byte one, which the libraries above read
    as documents of two and of five pages. *)
Definition documento : UploadFile := mkUploadFile "a.pdf" [Byte.x25; Byte.x50].

Definition cinco_paginas : UploadFile :=
  mkUploadFile "informe.PDF" [Byte.x31; Byte.x32; Byte.x33; Byte.x34; Byte.x35].

(** An upload of one byte more than [MAX_MB_PER_FILE] megabytes. *)
Definition archivo_enorme : UploadFile :=
  mkUploadFile "enorme.pdf" (replicate (N.to_nat 31457281) Byte.x00).

(** Identifiers in unary: the [n]-th one is [n] times the digit ["a"]. *)
Fixpoint unario (n : nat) : string :=
  match n with
  | O => EmptyString
  | S n' => String "a" (unario n')
  end.

(** The libraries of [lib_demo] with the identifiers in unary. *)
Definition lib_unario : Collaborators Byte.byte :=
  {| uuid4_hex := unario;
     PdfReader_pages content := Ok content;
     compress_content_streams p := Ok p;
     rotate p grados := Ok p;
     PdfWriter_write pages := (pages, None);
     img2pdf_convert contents := Ok (concat contents);
     ZipFile_write entries := (concat (map snd entries), None) |}.

(** Libraries that do nothing, for the runs that stop before any of them
    is called. *)
Definition lib_nulo : Collaborators unit :=
  mkCollaborators unit (fun _ => "") (fun _ => Ok []) Ok (fun p _ => Ok p)
    (fun _ => ([], None)) (fun _ => Ok []) (fun _ => ([], None)).

(** Two images. *)
Definition foto : UploadFile := mkUploadFile "Foto.JPG" [Byte.xff; Byte.xd8].
Definition dibujo : UploadFile := mkUploadFile "dibujo.png" [Byte.x89].

(* ===================================================================== *)
(** * The model at work                                                   *)
(* ===================================================================== *)

Example splitext_upper : PyStr.splitext "a.PDF" = ("a", ".PDF").
Proof. reflexivity. Qed.
Example splitext_hidden : PyStr.splitext ".pdf" = (".pdf", "").
Proof. reflexivity. Qed.
Example splitext_dir : PyStr.splitext "x.d/..b.tar.GZ" = ("x.d/..b.tar", ".GZ").
Proof. reflexivity. Qed.
Example splitext_nodot : PyStr.splitext "x.d/document" = ("x.d/document", "").
Proof. reflexivity. Qed.
Example lower_ext : PyStr.lower ".PdF" = ".pdf".
Proof. reflexivity. Qed.
Example join_dirs : PyStr.join "temp_uploads" "ab.pdf" = "temp_uploads/ab.pdf".
Proof. reflexivity. Qed.
Example basename_out : PyStr.basename "temp_outputs/Mini_0.pdf" = "Mini_0.pdf".
Proof. reflexivity. Qed.
Example float_29_percent :
  PyFloat.to_int (PyFloat.mul_int (PyFloat.truediv 29 100) 100) = Some 28%Z.
Proof. vm_compute. reflexivity. Qed.
Example float_half :
  PyFloat.to_int (PyFloat.mul_int (PyFloat.truediv 1 2) 100) = Some 50%Z.
Proof. vm_compute. reflexivity. Qed.

Example limpiar_inicio_directo :
  let files : gmap string (list Byte.byte) :=
    {[ "temp_uploads/a.pdf" := [Byte.x25]; "temp_uploads/sub/b.pdf" := [Byte.x25];
       "temp_outputs/Pack_0.zip" := []; "notas.txt" := [Byte.x31] ]} in
  let w' := (limpiar_inicio ∅ "temp_uploads" (fresh files 0)).1 in
  fs w' !! "temp_uploads/a.pdf" = None /\
  fs w' !! "temp_uploads/sub/b.pdf" = Some [Byte.x25] /\
  fs w' !! "temp_outputs/Pack_0.zip" = Some [] /\
  fs w' !! "notas.txt" = Some [Byte.x31].
Proof. vm_compute. repeat split. Qed.

Example limpiar_inicio_sin_directorio :
  limpiar_inicio ∅ "temp_uploads" (fresh {[ "notas.txt" := [Byte.x31] ]} 0) =
  (fresh {[ "notas.txt" := [Byte.x31] ]} 0, Raise (OtherException "FileNotFoundError")).
Proof. vm_compute. reflexivity. Qed.

Example truediv_grande :
  PyFloat.truediv 9007199254740993 9007199254740995 =
  S754_finite false 9007199254740990 (-53).
Proof. vm_compute. reflexivity. Qed.

(* ===================================================================== *)
(** * Facts about the string operations                                   *)
(* ===================================================================== *)

Module PyStrFacts.
Import PyStr.

Lemma take_drop (n : nat) (p : string) : take n p +:+ drop n p = p.
Proof.
  revert n. induction p as [|a p IH]; intros [|n]; try done.
  change (String a (take n p +:+ drop n p) = String a p). by rewrite IH.
Qed.

Lemma drop_empty (n : nat) : drop n "" = "".
Proof. by destruct n. Qed.

Lemma drop_S (n : nat) (a : ascii) (p : string) : drop (S n) (String a p) = drop n p.
Proof. done. Qed.

Lemma drop_drop (n m : nat) (p : string) : drop n (drop m p) = drop (m + n) p.
Proof.
  revert p. induction m as [|m IH]; intros p; simpl; [done|].
  destruct p as [|a p]; [by rewrite drop_empty|]. apply IH.
Qed.

Lemma contains_drop (c : ascii) (n : nat) (p : string) :
  contains c p = false -> contains c (drop n p) = false.
Proof.
  revert p. induction n as [|n IH]; intros p; [done|].
  destruct p as [|a p]; simpl; [done|].
  intros [_ H]%orb_false_iff. by apply IH.
Qed.

(** What [rfind_from] returns: [found] when [c] does not occur, else the
    position of an occurrence of [c] that no other occurrence follows. *)
Lemma rfind_from_spec (c : ascii) (p : string) (i found : Z) :
  (contains c p = false /\ rfind_from c p i found = found) \/
  (exists n : nat,
      rfind_from c p i found = (i + Z.of_nat n)%Z /\
      drop n p = String c (drop (S n) p) /\
      contains c (drop (S n) p) = false).
Proof.
  revert i found. induction p as [|a p IH]; intros i found; simpl.
  - by left.
  - destruct (IH (i + 1)%Z (if Ascii.eqb a c then i else found))
      as [[Hno Hr]|(n & Hr & Hd & Hno)].
    + destruct (Ascii.eqb a c) eqn:Hac.
      * right. exists 0. apply Ascii.eqb_eq in Hac as ->.
        rewrite Hr. split; [lia|]. by split.
      * left. by rewrite Hr.
    + right. exists (S n). rewrite Hr. split; [lia|]. by split.
Qed.

Lemma rfind_spec (p : string) (c : ascii) :
  (contains c p = false /\ rfind p c = (-1)%Z) \/
  (exists n : nat,
      rfind p c = Z.of_nat n /\
      drop n p = String c (drop (S n) p) /\
      contains c (drop (S n) p) = false).
Proof.
  unfold rfind. destruct (rfind_from_spec c p 0 (-1)) as [?|(n & Hr & ?)]; [by left|].
  right. exists n. by rewrite Hr.
Qed.

Lemma rfind_absent (p : string) (c : ascii) :
  contains c p = false -> rfind p c = (-1)%Z.
Proof.
  intros Hno. destruct (rfind_spec p c) as [[_ ?]|(n & _ & Hd & _)]; [done|].
  apply (contains_drop _ n) in Hno. rewrite Hd in Hno. simpl in Hno.
  by rewrite Ascii.eqb_refl in Hno.
Qed.

(** No [c] from the position after [rfind p c] on. *)
Lemma contains_after_rfind (p : string) (c : ascii) (m : nat) :
  (rfind p c < Z.of_nat m)%Z -> contains c (drop m p) = false.
Proof.
  intros Hlt. destruct (rfind_spec p c) as [[Hno _]|(n & Hr & _ & Hno)].
  - by apply contains_drop.
  - replace m with (S n + (m - S n)) by lia. rewrite <- drop_drop.
    by apply contains_drop.
Qed.

Lemma skip_leading_dots_cases (pending : nat) (p : string) (dotIndex filenameIndex : nat) :
  skip_leading_dots pending p dotIndex filenameIndex = (p, "") \/
  skip_leading_dots pending p dotIndex filenameIndex = (take dotIndex p, drop dotIndex p).
Proof.
  revert filenameIndex. induction pending as [|pending IH]; intros k; simpl; [by left|].
  destruct (negb _); [by right | apply IH].
Qed.

(** The two results of [splitext]: no extension, or the split at the
    last dot, which then lies after the last separator. *)
Lemma splitext_cases (p : string) :
  splitext p = (p, "") \/
  (exists n : nat, rfind p "." = Z.of_nat n /\ (rfind p "/" < Z.of_nat n)%Z /\
                   splitext p = (take n p, drop n p)).
Proof.
  unfold splitext. destruct (rfind p "." >? rfind p "/")%Z eqn:Hgt; [|by left].
  apply Z.gtb_gt in Hgt.
  destruct (skip_leading_dots_cases
              (Z.to_nat (rfind p "." - (rfind p "/" + 1))) p
              (Z.to_nat (rfind p ".")) (Z.to_nat (rfind p "/" + 1))) as [->| ->];
    [by left|].
  right. destruct (rfind_spec p ".") as [[_ Hr]|(n & Hr & _)].
  - destruct (rfind_spec p "/") as [[_ Hs]|(m & Hs & _)]; lia.
  - exists n. rewrite Hr in *. rewrite Nat2Z.id. split; [done|]. split; [lia|done].
Qed.

(** [root + ext == p], as the documentation of [os.path.splitext] says. *)
Lemma splitext_concat (p : string) : (splitext p).1 +:+ (splitext p).2 = p.
Proof.
  destruct (splitext_cases p) as [->|(n & _ & _ & ->)]; simpl.
  - induction p as [|a p IH]; [done|]. by rewrite <- IH at 2.
  - apply take_drop.
Qed.

(** The extension is empty, or it begins with a period and contains no
    other period and no separator. *)
Lemma splitext_ext_shape (p : string) :
  (splitext p).2 = "" \/
  (exists s, (splitext p).2 = String "." s /\
             contains "." s = false /\ contains "/" s = false).
Proof.
  destruct (splitext_cases p) as [->|(n & Hdot & Hsep & ->)]; [by left|].
  right. simpl. destruct (rfind_spec p ".") as [[_ Hr]|(n' & Hr & Hd & Hno)]; [lia|].
  assert (n' = n) as -> by lia.
  exists (drop (S n) p). split; [done|]. split; [done|].
  apply contains_after_rfind. lia.
Qed.

Lemma splitext_no_dot (p : string) :
  contains "." p = false -> splitext p = (p, "").
Proof.
  intros Hno. unfold splitext. rewrite (rfind_absent p ".") by done.
  destruct (rfind_spec p "/") as [[_ ->]|(m & -> & _)]; [done|].
  destruct (_ >? _)%Z eqn:E; [|done]. apply Z.gtb_gt in E. lia.
Qed.

Lemma splitext_leading_dot (s : string) :
  contains "." s = false -> splitext (String "." s) = (String "." s, "").
Proof.
  intros Hno. unfold splitext.
  assert (rfind (String "." s) "." = 0%Z) as ->.
  { destruct (rfind_spec (String "." s) ".") as [[H _]|(n & Hr & Hd & _)];
      [done|]. destruct n as [|n]; [done|].
    simpl in Hd. apply (contains_drop _ n) in Hno. rewrite Hd in Hno. done. }
  destruct (rfind_spec (String "." s) "/") as [[_ ->]|(m & -> & _)].
  - reflexivity.
  - destruct (_ >? _)%Z eqn:E; [|done]. apply Z.gtb_gt in E. lia.
Qed.

End PyStrFacts.

Lemma Zgtb_false_le (a b : Z) : (a >? b)%Z = false -> (a <= b)%Z.
Proof. rewrite Z.gtb_ltb. apply Z.ltb_ge. Qed.

(** ** Appending to a filename *)

Module PyStrAppend.
Import PyStr.

Lemma rfind_from_app (c : ascii) (p q : string) (i found : Z) :
  rfind_from c (p +:+ q) i found =
  rfind_from c q (i + Z.of_nat (String.length p)) (rfind_from c p i found).
Proof.
  revert i found. induction p as [|a p IH]; intros i found.
  - change ("" +:+ q) with q. simpl. by rewrite Z.add_0_r.
  - change (String a p +:+ q) with (String a (p +:+ q)). simpl rfind_from.
    rewrite IH. f_equal. simpl String.length. lia.
Qed.

Lemma rfind_from_absent (c : ascii) (p : string) (i found : Z) :
  contains c p = false -> rfind_from c p i found = found.
Proof.
  revert i found. induction p as [|a p IH]; intros i found; simpl; [done|].
  intros [-> H]%orb_false_iff. by apply IH.
Qed.

Lemma rfind_from_bound (c : ascii) (p : string) (i found : Z) :
  (found < i)%Z ->
  (found <= rfind_from c p i found < i + Z.of_nat (String.length p))%Z.
Proof.
  revert i found. induction p as [|a p IH]; intros i found Hlt; simpl rfind_from.
  - simpl. lia.
  - simpl String.length. destruct (Ascii.eqb a c).
    + specialize (IH (i + 1)%Z i). lia.
    + specialize (IH (i + 1)%Z found). lia.
Qed.

Lemma take_app_length (p q : string) : take (String.length p) (p +:+ q) = p.
Proof.
  induction p as [|a p IH]; [by destruct q|].
  change (String a p +:+ q) with (String a (p +:+ q)). simpl. by rewrite IH.
Qed.

Lemma drop_app_length (p q : string) : drop (String.length p) (p +:+ q) = q.
Proof.
  induction p as [|a p IH]; [by destruct q|].
  change (String a p +:+ q) with (String a (p +:+ q)). simpl. by rewrite IH.
Qed.

Lemma length_string_app (p q : string) :
  String.length (p +:+ q) = String.length p + String.length q.
Proof.
  induction p as [|a p IH]; [done|].
  change (String a p +:+ q) with (String a (p +:+ q)). simpl. by rewrite IH.
Qed.

(** The loop of [splitext] stops at a character that is not a dot. *)
Lemma skip_leading_dots_found (pending : nat) (p : string) (dotIndex filenameIndex k : nat) :
  filenameIndex <= k < filenameIndex + pending ->
  String.eqb (char_at k p) "." = false ->
  skip_leading_dots pending p dotIndex filenameIndex = (take dotIndex p, drop dotIndex p).
Proof.
  revert filenameIndex. induction pending as [|pending IH]; intros f Hk Hchar; [lia|].
  simpl. destruct (String.eqb (char_at f p) ".") eqn:E; simpl; [|done].
  apply IH; [|done]. destruct (decide (k = f)) as [->|]; [congruence|lia].
Qed.

(** A name that ends in a character other than a dot or a separator,
    followed by a dot and a suffix free of dots and separators. *)
Lemma app_snoc (p : string) (a : ascii) (r : string) :
  p +:+ String a r = (p +:+ String a "") +:+ r.
Proof.
  induction p as [|b p IH]; [done|].
  change (String b (p +:+ String a r) = String b ((p +:+ String a "") +:+ r)).
  by rewrite IH.
Qed.

Lemma splitext_app (p : string) (a : ascii) (s : string) :
  a <> "."%char -> a <> "/"%char ->
  contains "." s = false -> contains "/" s = false ->
  splitext (p +:+ String a (String "." s)) = (p +:+ String a "", String "." s).
Proof.
  intros Hdot Hsep Hs1 Hs2.
  assert (String.length (p +:+ String a "") = S (String.length p)) as Hlen.
  { rewrite length_string_app. simpl. lia. }
  assert (rfind (p +:+ String a (String "." s)) "." = Z.of_nat (S (String.length p))) as Hd.
  { rewrite app_snoc. unfold rfind. rewrite rfind_from_app. simpl rfind_from.
    rewrite rfind_from_absent by done. lia. }
  assert (-1 <= rfind (p +:+ String a (String "." s)) "/" < Z.of_nat (String.length p))%Z
    as Hs.
  { unfold rfind. rewrite rfind_from_app. simpl rfind_from.
    assert (Ascii.eqb a "/" = false) as -> by by apply Ascii.eqb_neq.
    rewrite rfind_from_absent by done.
    pose proof (rfind_from_bound "/" p 0 (-1)). lia. }
  unfold splitext. rewrite Hd.
  destruct (_ >? _)%Z eqn:E; [|apply Zgtb_false_le in E; lia].
  rewrite (skip_leading_dots_found _ _ _ _ (String.length p)).
  - rewrite Nat2Z.id, app_snoc, <- Hlen. by rewrite take_app_length, drop_app_length.
  - lia.
  - unfold char_at. rewrite drop_app_length. simpl.
    destruct (Ascii.eqb a ".") eqn:Ea; [by apply Ascii.eqb_eq in Ea|done].
Qed.

End PyStrAppend.

Lemma contains_app (c : ascii) (p q : string) :
  PyStr.contains c (p +:+ q) = PyStr.contains c p || PyStr.contains c q.
Proof.
  induction p as [|a p IH]; [done|].
  change (String a p +:+ q) with (String a (p +:+ q)). simpl.
  by rewrite IH, orb_assoc.
Qed.

(** ** The two kinds of filename *)

Module PyStrSplit.
Import PyStr PyStrFacts PyStrAppend.

Lemma cadena_assoc (p q r : string) : (p +:+ q) +:+ r = p +:+ (q +:+ r).
Proof.
  induction p as [|a p IH]; [done|].
  change (String a ((p +:+ q) +:+ r) = String a (p +:+ (q +:+ r))). by rewrite IH.
Qed.

Lemma cadena_nil_r (p : string) : p +:+ "" = p.
Proof.
  induction p as [|a p IH]; [done|].
  change (String a (p +:+ "") = String a p). by rewrite IH.
Qed.

Lemma rfind_app_absent (c : ascii) (p q : string) :
  contains c q = false -> rfind (p +:+ q) c = rfind p c.
Proof. intros H. unfold rfind. by rewrite rfind_from_app, rfind_from_absent. Qed.

Lemma rfind_bound (c : ascii) (p : string) :
  (-1 <= rfind p c < Z.of_nat (String.length p))%Z.
Proof. pose proof (rfind_from_bound c p 0 (-1)). unfold rfind. lia. Qed.

(** The position of a [c] that no other [c] follows. *)
Lemma rfind_last (c : ascii) (p q : string) :
  contains c q = false -> rfind (p +:+ String c q) c = Z.of_nat (String.length p).
Proof.
  intros H. unfold rfind. rewrite rfind_from_app. simpl rfind_from.
  rewrite Ascii.eqb_refl, rfind_from_absent by done. lia.
Qed.

Lemma endswith_snoc (p : string) (c : ascii) :
  endswith p c = true -> exists p', p = p' +:+ String c "".
Proof.
  induction p as [|a p IH]; [done|]. simpl.
  destruct p as [|b p].
  - intros ->%Ascii.eqb_eq. by exists "".
  - intros H. destruct (IH H) as [p' ->]. by exists (String a p').
Qed.

Lemma solo_puntos_sin_sep (s : string) : solo_puntos s = true -> contains "/" s = false.
Proof.
  induction s as [|a s IH]; [done|]. simpl.
  intros [->%Ascii.eqb_eq H]%andb_true_iff. by rewrite IH.
Qed.

Lemma char_at_app (p q : string) (k : nat) :
  char_at (String.length p + k) (p +:+ q) = char_at k q.
Proof.
  unfold char_at. induction p as [|a p IH]; [done|].
  change (String a p +:+ q) with (String a (p +:+ q)). simpl. apply IH.
Qed.

Lemma char_at_puntos (s t : string) (k : nat) :
  solo_puntos s = true -> k < String.length s -> char_at k (s +:+ t) = ".".
Proof.
  unfold char_at. revert k. induction s as [|a s IH]; intros k; simpl; [lia|].
  intros [->%Ascii.eqb_eq H]%andb_true_iff Hk.
  change (String "." s +:+ t) with (String "." (s +:+ t)).
  destruct k as [|k]; simpl.
  - by destruct (s +:+ t).
  - apply IH; [done|lia].
Qed.

(** The loop of [splitext] goes to its end over periods. *)
Lemma skip_leading_dots_puntos (pending : nat) (p : string) (dotIndex filenameIndex : nat) :
  (forall k, filenameIndex <= k < filenameIndex + pending -> char_at k p = ".") ->
  skip_leading_dots pending p dotIndex filenameIndex = (p, "").
Proof.
  revert filenameIndex. induction pending as [|pending IH]; intros f Hk; [done|].
  simpl. rewrite (Hk f) by lia. simpl. apply IH. intros k Hk'. apply Hk. lia.
Qed.

Lemma splitext_con_sufijo (p root s : string) :
  con_sufijo p root s -> splitext p = (root, String "." s).
Proof.
  intros (pre & a & mid & Hdot & Hsep & Hmid & Hs1 & Hs2 & -> & ->).
  set (root := pre +:+ String a mid).
  assert (rfind (root +:+ String "." s) "." = Z.of_nat (String.length root)) as Hd
    by by apply rfind_last.
  assert (rfind (root +:+ String "." s) "/" < Z.of_nat (String.length pre))%Z as Hs.
  { rewrite rfind_app_absent by done. unfold root. rewrite rfind_app_absent.
    - apply rfind_bound.
    - simpl. rewrite Hmid. by apply Ascii.eqb_neq in Hsep as ->. }
  assert (-1 <= rfind (root +:+ String "." s) "/")%Z as Hs' by apply rfind_bound.
  assert (String.length root = String.length pre + S (String.length mid)) as Hlen.
  { unfold root. by rewrite length_string_app. }
  unfold splitext. rewrite Hd.
  destruct (_ >? _)%Z eqn:E; [|apply Zgtb_false_le in E; lia].
  rewrite (skip_leading_dots_found _ _ _ _ (String.length pre)).
  - by rewrite Nat2Z.id, take_app_length, drop_app_length.
  - lia.
  - unfold root. rewrite cadena_assoc.
    replace (String.length pre) with (String.length pre + 0) by lia.
    rewrite char_at_app. unfold char_at. simpl.
    destruct (Ascii.eqb a ".") eqn:Ea; [by apply Ascii.eqb_eq in Ea|done].
Qed.

Lemma splitext_sin_sufijo (p : string) : sin_sufijo p -> splitext p = (p, "").
Proof.
  intros (pre & puntos & resto & Hpre & Hp & Hr1 & Hr2 & ->).
  assert (contains "/" (puntos +:+ resto) = false) as Hsep.
  { by rewrite contains_app, solo_puntos_sin_sep, Hr2. }
  assert (rfind (pre +:+ puntos +:+ resto) "/" + 1 = Z.of_nat (String.length pre))%Z as Hs.
  { destruct Hpre as [->|[pre' ->]%endswith_snoc].
    - change ("" +:+ ?x) with x. by rewrite rfind_absent.
    - rewrite cadena_assoc. change (String "/" "" +:+ ?x) with (String "/" x).
      rewrite rfind_last by done. rewrite length_string_app. simpl. lia. }
  unfold splitext.
  destruct (_ >? _)%Z eqn:E; [|done]. apply Z.gtb_gt in E.
  apply skip_leading_dots_puntos. intros k Hk.
  assert (rfind (pre +:+ puntos +:+ resto) "."
          < Z.of_nat (String.length pre + String.length puntos))%Z as Hd.
  { rewrite <- cadena_assoc. rewrite rfind_app_absent by done.
    pose proof (rfind_bound "." (pre +:+ puntos)). rewrite length_string_app in H. lia. }
  replace k with (String.length pre + (k - String.length pre)) by lia.
  rewrite char_at_app. apply char_at_puntos; [done|lia].
Qed.

(** A component is a run of periods, followed by nothing or by a
    character that is not a period. *)
Lemma puntos_iniciales (c : string) :
  exists puntos c', solo_puntos puntos = true /\ c = puntos +:+ c' /\
    (c' = "" \/ exists a t, c' = String a t /\ a <> "."%char).
Proof.
  induction c as [|a c (puntos & c' & Hp & -> & Hc')].
  - exists "", "". split; [done|]. split; [done|]. by left.
  - destruct (Ascii.eqb a ".") eqn:Ea.
    + apply Ascii.eqb_eq in Ea as ->. exists (String "." puntos), c'.
      split; [done|]. split; [done|]. exact Hc'.
    + exists "", (String a (puntos +:+ c')). split; [done|]. split; [done|].
      right. exists a, (puntos +:+ c'). split; [done|]. by apply Ascii.eqb_neq.
Qed.

(** The cut at the last [c] of a string that holds one. *)
Lemma ultimo (c : ascii) (t : string) :
  contains c t = true ->
  exists mid s, t = mid +:+ String c s /\ contains c s = false.
Proof.
  induction t as [|a t IH]; [done|]. simpl.
  destruct (contains c t) eqn:Ht.
  - intros _. destruct (IH eq_refl) as (mid & s & -> & Hs).
    by exists (String a mid), s.
  - rewrite orb_false_r. intros ->%Ascii.eqb_eq. by exists "", t.
Qed.

(** The cut after the last separator. *)
Lemma ultimo_componente (p : string) :
  exists pre c, p = pre +:+ c /\ (pre = "" \/ endswith pre "/" = true) /\
                contains "/" c = false.
Proof.
  destruct (contains "/" p) eqn:Hp.
  - destruct (ultimo "/" p Hp) as (mid & c & -> & Hc).
    exists (mid +:+ String "/" ""), c. rewrite cadena_assoc. split; [done|]. split; [|done].
    right. clear. induction mid as [|a mid IH]; [done|].
    change (String a mid +:+ ?x) with (String a (mid +:+ x)). simpl.
    destruct (mid +:+ String "/" "") eqn:E; [by destruct mid|done].
  - exists "", p. split; [done|]. split; [by left|done].
Qed.

(** Every filename is of one of the two kinds. *)
Lemma sufijo_o_no (p : string) :
  sin_sufijo p \/ exists root s, con_sufijo p root s.
Proof.
  destruct (ultimo_componente p) as (pre & c & -> & Hpre & Hc).
  destruct (puntos_iniciales c) as (puntos & c' & Hp & -> & Hc').
  rewrite contains_app in Hc. apply orb_false_iff in Hc as [_ Hc].
  destruct Hc' as [->|(a & t & -> & Ha)].
  - left. exists pre, puntos, "". split; [done|]. split; [done|]. split; [done|].
    split; [done|]. by rewrite cadena_nil_r.
  - simpl in Hc. apply orb_false_iff in Hc as [Ha' Ht].
    destruct (contains "." t) eqn:Hdot.
    + right. destruct (ultimo "." t Hdot) as (mid & s & -> & Hs).
      rewrite contains_app in Ht. apply orb_false_iff in Ht as [Hmid Hs'].
      simpl in Hs'. exists ((pre +:+ puntos) +:+ String a mid), s.
      exists (pre +:+ puntos), a, mid.
      split; [done|]. split; [by apply Ascii.eqb_neq|]. split; [done|].
      split; [done|]. split; [done|]. split; [done|].
      rewrite !cadena_assoc. done.
    + left. exists pre, puntos, (String a t). split; [done|]. split; [done|].
      split; [|split; [|done]].
      * simpl. rewrite Hdot. by apply Ascii.eqb_neq in Ha as ->.
      * simpl. by rewrite Ha', Ht.
Qed.

End PyStrSplit.

(* ===================================================================== *)
(** * The extension policy                                                *)
(* ===================================================================== *)

Lemma lower_ascii_idemp (a : ascii) :
  PyStr.lower_ascii (PyStr.lower_ascii a) = PyStr.lower_ascii a.
Proof. by destruct a as [[] [] [] [] [] [] [] []]. Qed.

Lemma lower_idemp (p : string) : PyStr.lower (PyStr.lower p) = PyStr.lower p.
Proof.
  induction p as [|a p IH]; [done|]. simpl. by rewrite lower_ascii_idemp, IH.
Qed.

(** [validar_extension] decides on the lowered extension alone. *)
Lemma validar_extension_unfold (filename : string) (permitidas : gset string) :
  validar_extension filename permitidas =
  let ext := PyStr.lower (PyStr.splitext filename).2 in
  if bool_decide (ext ∈ permitidas) then Ok ext
  else Raise (HTTPException 400 ("Extensión no permitida: " +:+ ext)).
Proof.
  unfold validar_extension. simpl.
  destruct (decide (PyStr.lower (PyStr.splitext filename).2 ∈ permitidas)) as [Hin|Hout].
  - rewrite (bool_decide_eq_true_2 _ Hin). by rewrite bool_decide_eq_false_2 by tauto.
  - rewrite (bool_decide_eq_false_2 _ Hout). by rewrite bool_decide_eq_true_2.
Qed.

(** C9.  The extension validator takes the final suffix of the filename,
    lowers it, and returns it exactly when it belongs to the allowed set,
    raising the invalid-extension error otherwise.  The suffix is found
    in every filename that has one.  Either the last component of the
    filename is a run of periods followed by characters that hold no
    period: then [os.path.splitext] gives an empty suffix and the verdict
    is that of the empty string.  Or the filename is a root with a
    character other than a period in its last component, then a period
    and characters that hold neither a period nor a separator: then the
    suffix is that last period with what follows it, and the verdict is
    that of the lowered suffix.  Every filename is of one of the two
    kinds.  So the filename is [root + suffix], the returned extension is
    in lower case, ["a.PDF"] and ["informe.v2.pdf"] are accepted against
    [{".pdf"}], ["a.exe"] is refused.  The validator is a function of its
    two arguments: lifted into a route it leaves the state as it was. *)
Theorem validar_extension_spec (filename : string) (permitidas : gset string) :
  let suffix := (PyStr.splitext filename).2 in
  let ext := PyStr.lower suffix in
  let veredicto (e : string) : result string :=
    if bool_decide (e ∈ permitidas) then Ok e
    else Raise (HTTPException 400 ("Extensión no permitida: " +:+ e)) in
  (sin_sufijo filename \/ exists root sufijo, con_sufijo filename root sufijo) /\
  (sin_sufijo filename ->
     PyStr.splitext filename = (filename, "") /\
     validar_extension filename permitidas = veredicto "") /\
  (forall root sufijo, con_sufijo filename root sufijo ->
     PyStr.splitext filename = (root, String "." sufijo) /\
     validar_extension filename permitidas = veredicto (PyStr.lower (String "." sufijo))) /\
  (exists root, filename = root +:+ suffix) /\
  (suffix = "" \/
   exists s, suffix = String "." s /\
             PyStr.contains "." s = false /\ PyStr.contains "/" s = false) /\
  PyStr.lower ext = ext /\
  validar_extension filename permitidas = veredicto ext /\
  validar_extension "a.PDF" {[ ".pdf" ]} = Ok ".pdf" /\
  validar_extension "informe.v2.pdf" {[ ".pdf" ]} = Ok ".pdf" /\
  validar_extension "a.exe" {[ ".pdf" ]} =
    Raise (HTTPException 400 "Extensión no permitida: .exe") /\
  (forall (S : Type) (s : S),
      (lift_result (validar_extension filename permitidas) s).1 = s).
Proof.
  cbv zeta. split; [apply PyStrSplit.sufijo_o_no|]. split; [|split].
  - intros H. apply PyStrSplit.splitext_sin_sufijo in H.
    split; [done|]. rewrite validar_extension_unfold. cbv zeta. by rewrite H.
  - intros root sufijo H. apply PyStrSplit.splitext_con_sufijo in H.
    split; [done|]. rewrite validar_extension_unfold. cbv zeta. by rewrite H.
  - split.
    { exists (PyStr.splitext filename).1. symmetry. apply PyStrFacts.splitext_concat. }
    split; [apply PyStrFacts.splitext_ext_shape|].
    split; [apply lower_idemp|].
    split; [apply validar_extension_unfold|].
    repeat split.
Qed.

Lemma validar_extension_spec_witness :
  validar_extension "informe.v2.PDF" {[ ".pdf" ]} = Ok ".pdf" /\
  validar_extension "x.d/..pdf" {[ ".pdf" ]} =
    Raise (HTTPException 400 "Extensión no permitida: ").
Proof.
  split.
  - pose proof (validar_extension_spec "informe.v2.PDF" {[ ".pdf" ]}) as (_ & _ & H & _).
    apply (H "informe.v2" "PDF").
    exists "", "i"%char, "nforme.v2". repeat split; done.
  - pose proof (validar_extension_spec "x.d/..pdf" {[ ".pdf" ]}) as (_ & H & _).
    apply H. exists "x.d/", "..", "pdf". repeat split; try done. by right.
Defined.

Lemma vacia_no_permitida (permitidas : gset string) :
  permitidas ∈ conjuntos_permitidos -> "" ∉ permitidas.
Proof.
  unfold conjuntos_permitidos, ALLOWED_EXTENSIONS.
  rewrite !elem_of_cons, elem_of_nil.
  intros [->|[->|[->|[]]]]; apply (bool_decide_unpack _); by vm_compute.
Qed.

Lemma validar_extension_vacia (filename : string) (permitidas : gset string) :
  (PyStr.splitext filename).2 = "" -> "" ∉ permitidas ->
  validar_extension filename permitidas = Raise extension_vacia.
Proof.
  intros Hext Hout. rewrite validar_extension_unfold. rewrite Hext. simpl.
  by rewrite bool_decide_eq_false_2.
Qed.

Lemma sin_sufijo_vacio (nombre : string) :
  (PyStr.splitext nombre).2 = "" <-> sin_sufijo nombre.
Proof.
  split.
  - intros H. destruct (PyStrSplit.sufijo_o_no nombre) as [?|(root & s & Hc)]; [done|].
    apply PyStrSplit.splitext_con_sufijo in Hc. by rewrite Hc in H.
  - intros H. by rewrite PyStrSplit.splitext_sin_sufijo.
Qed.

(** C10.  The extracted suffix of a filename is empty exactly when the
    last component of the filename is a run of periods followed by
    characters that hold no period; a filename with no period and a
    leading period followed by period-free characters (as [".pdf"]) are
    of that kind, and so are ["..pdf"], ["dir/.pdf"], ["x.d/document"]
    and ["a.pdf/"].  Whenever the suffix is empty, each allowed set of the
    program refuses the filename with the invalid-extension error, and
    every route stops on such an upload before it draws a name or touches
    the filesystem: the state is the one the upload was met in. *)
Theorem extension_vacia_rechazada {page : Type} (lib : Collaborators page)
    (nombre : string) (data : list Byte.byte) :
  let upload := mkUploadFile nombre data in
  ((PyStr.splitext nombre).2 = "" <-> sin_sufijo nombre) /\
  (PyStr.contains "." nombre = false \/
   (exists s, nombre = String "." s /\ PyStr.contains "." s = false) ->
   (PyStr.splitext nombre).2 = "") /\
  ((PyStr.splitext nombre).2 = "" ->
   (forall permitidas, permitidas ∈ conjuntos_permitidos ->
      validar_extension nombre permitidas = Raise extension_vacia) /\
   (forall s, unir_file lib upload s = (s, Raise extension_vacia)) /\
   (forall s, comprimir_file lib upload s = (s, Raise extension_vacia)) /\
   (forall s, img2pdf_file lib upload s = (s, Raise extension_vacia)) /\
   (forall inicio fin s,
      extraer_try lib upload inicio fin s = (s, Raise extension_vacia)) /\
   (forall grados s, rotar_try lib upload grados s = (s, Raise extension_vacia))).
Proof.
  intros upload. split; [apply sin_sufijo_vacio|]. split.
  { intros [Hno|(s & -> & Hno)].
    - by rewrite PyStrFacts.splitext_no_dot.
    - by rewrite PyStrFacts.splitext_leading_dot. }
  intros Hext.
  assert (forall permitidas, permitidas ∈ conjuntos_permitidos ->
            validar_extension nombre permitidas = Raise extension_vacia) as Hval.
  { intros permitidas Hin. apply validar_extension_vacia; [done|].
    by apply vacia_no_permitida. }
  split; [done|].
  assert (validar_extension nombre {[ ".pdf" ]} = Raise extension_vacia) as Hpdf.
  { apply Hval. unfold conjuntos_permitidos. rewrite !elem_of_cons. tauto. }
  assert (validar_extension nombre {[ ".jpg"; ".jpeg"; ".png" ]} = Raise extension_vacia)
    as Himg.
  { apply Hval. unfold conjuntos_permitidos. rewrite !elem_of_cons. tauto. }
  repeat split; intros.
  - unfold unir_file, bind, lift_result. simpl. by rewrite Hpdf.
  - unfold comprimir_file, bind, lift_result. simpl. by rewrite Hpdf.
  - unfold img2pdf_file, bind, lift_result. simpl. by rewrite Himg.
  - unfold extraer_try, bind, lift_result. simpl. by rewrite Hpdf.
  - unfold rotar_try, bind, lift_result. simpl. by rewrite Hpdf.
Qed.

Lemma extension_vacia_rechazada_witness :
  validar_extension "document" {[ ".pdf" ]} = Raise extension_vacia /\
  validar_extension ".pdf" {[ ".pdf" ]} = Raise extension_vacia /\
  validar_extension "..pdf" {[ ".pdf" ]} = Raise extension_vacia /\
  validar_extension "dir/.pdf" {[ ".pdf" ]} = Raise extension_vacia /\
  validar_extension "x.d/document" {[ ".pdf" ]} = Raise extension_vacia /\
  validar_extension "a.pdf/" ALLOWED_EXTENSIONS = Raise extension_vacia.
Proof.
  assert ({[ ".pdf" ]} ∈ conjuntos_permitidos) as Hpdf.
  { unfold conjuntos_permitidos. rewrite !elem_of_cons. tauto. }
  assert (ALLOWED_EXTENSIONS ∈ conjuntos_permitidos) as Hall.
  { unfold conjuntos_permitidos. rewrite !elem_of_cons. tauto. }
  split; [|split; [|split; [|split; [|split]]]].
  - exact (proj1 (proj2 (proj2 (extension_vacia_rechazada lib_nulo "document" []))
                    eq_refl) _ Hpdf).
  - exact (proj1 (proj2 (proj2 (extension_vacia_rechazada lib_nulo ".pdf" []))
                    eq_refl) _ Hpdf).
  - exact (proj1 (proj2 (proj2 (extension_vacia_rechazada lib_nulo "..pdf" []))
                    eq_refl) _ Hpdf).
  - exact (proj1 (proj2 (proj2 (extension_vacia_rechazada lib_nulo "dir/.pdf" []))
                    eq_refl) _ Hpdf).
  - exact (proj1 (proj2 (proj2 (extension_vacia_rechazada lib_nulo "x.d/document" []))
                    eq_refl) _ Hpdf).
  - exact (proj1 (proj2 (proj2 (extension_vacia_rechazada lib_nulo "a.pdf/" []))
                    eq_refl) _ Hall).
Defined.

(* ===================================================================== *)
(** * The bounded stream writer                                           *)
(* ===================================================================== *)

Lemma read_app (n : Z) (stream chunk rest : list Byte.byte) :
  read n stream = (chunk, rest) -> chunk ++ rest = stream.
Proof.
  revert n chunk rest.
  induction stream as [|b stream IH]; intros n chunk rest; simpl.
  - by intros [= <- <-].
  - destruct (n <=? 0)%Z; [by intros [= <- <-]|].
    destruct (read (n - 1) stream) as [ch r] eqn:E. intros [= <- <-].
    simpl. f_equal. by eapply IH.
Qed.

Lemma read_shorter (n : Z) (stream : list Byte.byte) b chunk rest :
  read n stream = (b :: chunk, rest) -> length rest < length stream.
Proof.
  intros H. apply read_app in H. subst stream. rewrite length_app. simpl. lia.
Qed.

(** One turn of the loop of [guardar_con_limite]. *)
Lemma guardar_bloques_eq (stream : list Byte.byte) (destino_path : string)
    (max_mb limit_bytes file_size : Z) :
  guardar_bloques stream destino_path max_mb limit_bytes file_size =
  match read (1024 * 1024) stream with
  | ([], _) => ret tt
  | (b :: chunk', rest) =>
      let chunk := b :: chunk' in
      let file_size := (file_size + Z.of_nat (length chunk))%Z in
      if (file_size >? limit_bytes)%Z then
        existe <- os_path_exists destino_path ;;
        (if existe : bool then os_remove destino_path else ret tt) ;;
        raise (HTTPException 413
                 ("El archivo excede el límite de " +:+ pretty max_mb +:+ "MB."))
      else
        write destino_path chunk ;;
        guardar_bloques rest destino_path max_mb limit_bytes file_size
  end.
Proof.
  rewrite guardar_bloques_equation_1. unfold inspect.
  enough (forall r (H : read (1024 * 1024) stream = r),
    guardar_bloques_unfold_clause_1 stream (exist _ r H) destino_path max_mb
      limit_bytes file_size =
    match r with
    | ([], _) => ret tt
    | (b :: chunk', rest) =>
      let chunk := b :: chunk' in
      let file_size := (file_size + Z.of_nat (length chunk))%Z in
      if (file_size >? limit_bytes)%Z then
        existe <- os_path_exists destino_path ;;
        (if existe : bool then os_remove destino_path else ret tt) ;;
        raise (HTTPException 413
                 ("El archivo excede el límite de " +:+ pretty max_mb +:+ "MB."))
      else
        write destino_path chunk ;;
        guardar_bloques rest destino_path max_mb limit_bytes file_size
    end) as Hgen by apply Hgen.
  intros [[|b chunk'] rest] H; reflexivity.
Qed.

(** A read of a positive count comes back empty at the end of the stream
    only. *)
Lemma read_nil (n : Z) (stream rest : list Byte.byte) :
  (0 < n)%Z -> read n stream = ([], rest) -> stream = [].
Proof.
  intros Hn. destruct stream as [|b stream]; [done|]. simpl.
  destruct (n <=? 0)%Z eqn:E; [apply Z.leb_le in E; lia|].
  by destruct (read (n - 1) stream).
Qed.

(** The loop, started with [written] in the destination and
    [file_size = len(written)] within the limit: it deletes the destination
    and raises when the whole stream does not fit, and appends the whole
    stream otherwise. *)
Lemma guardar_bloques_spec (destino_path : string) (max_mb limit_bytes : Z)
    (m : gmap string (list Byte.byte)) (draws : nat) (tasks : list (list string))
    (hist : list (role * string)) (calls : list (list string)) :
  forall (stream written : list Byte.byte),
    (Z.of_nat (length written) <= limit_bytes)%Z ->
    guardar_bloques stream destino_path max_mb limit_bytes (Z.of_nat (length written))
      (mkWorld (<[destino_path := written]> m) draws tasks hist calls) =
    if (Z.of_nat (length written) + Z.of_nat (length stream) >? limit_bytes)%Z
    then (mkWorld (delete destino_path m) draws tasks hist calls,
          Raise (limite_excedido max_mb))
    else (mkWorld (<[destino_path := written ++ stream]> m) draws tasks hist calls,
          Ok tt).
Proof.
  intros stream. remember (length stream) as k eqn:Hk. revert stream Hk.
  induction k as [k IH] using lt_wf_ind. intros stream -> written Hfit.
  rewrite guardar_bloques_eq.
  destruct (read (1024 * 1024) stream) as [[|b chunk'] rest] eqn:Hread.
  - apply read_nil in Hread as ->; [|lia]. simpl.
    rewrite Z.add_0_r, app_nil_r.
    destruct (_ >? _)%Z eqn:E; [apply Z.gtb_gt in E; lia|]. reflexivity.
  - pose proof (read_app _ _ _ _ Hread) as Hsplit.
    assert (length stream = length (b :: chunk') + length rest) as Hlen
        by (rewrite <- Hsplit; apply length_app).
    assert (0 < length (b :: chunk')) as Hpos by (simpl; lia).
    cbv zeta.
    destruct (Z.of_nat (length written) + Z.of_nat (length (b :: chunk')) >? limit_bytes)%Z
      eqn:Hover.
    + apply Z.gtb_gt in Hover.
      destruct (_ + Z.of_nat (length stream) >? _)%Z eqn:E;
        [|apply Zgtb_false_le in E; lia].
      unfold bind, os_path_exists, os_remove, raise, with_fs; simpl.
      rewrite lookup_insert_eq.
      rewrite bool_decide_eq_true_2 by eauto. simpl.
      rewrite lookup_insert_eq. simpl. by rewrite delete_insert_eq.
    + apply Zgtb_false_le in Hover.
      unfold bind at 1. unfold write, with_fs. simpl fs. cbv beta iota.
      rewrite alter_insert_eq.
      replace (Z.of_nat (length written) + Z.of_nat (length (b :: chunk')))%Z
        with (Z.of_nat (length (written ++ b :: chunk')))
        by (rewrite length_app; lia).
      rewrite (IH (length rest)); [|lia|done|rewrite length_app; lia].
      rewrite <- app_assoc, Hsplit.
      replace (Z.of_nat (length (written ++ b :: chunk')) + Z.of_nat (length rest))%Z
        with (Z.of_nat (length written) + Z.of_nat (length stream))%Z
        by (rewrite length_app; lia).
      reflexivity.
Qed.

(** [guardar_con_limite] in closed form, for a limit that is not negative. *)
Lemma guardar_con_limite_eq (upload_file : UploadFile) (destino_path : string)
    (max_mb : Z) (w : World) :
  (0 <= max_mb)%Z ->
  guardar_con_limite upload_file destino_path max_mb w =
  if (Z.of_nat (length (file upload_file)) >? max_mb * 1024 * 1024)%Z
  then (mkWorld (delete destino_path (fs w)) (uuid_draws w) (background_tasks w)
                (created w ++ [(input, destino_path)]) (borrados w),
        Raise (limite_excedido max_mb))
  else (mkWorld (<[destino_path := file upload_file]> (fs w)) (uuid_draws w)
                (background_tasks w) (created w ++ [(input, destino_path)]) (borrados w),
        Ok tt).
Proof.
  intros Hmb. unfold guardar_con_limite. cbv zeta. unfold bind, open_wb.
  change 0%Z with (Z.of_nat (length (@nil Byte.byte))).
  rewrite guardar_bloques_spec by (simpl; lia).
  simpl length. rewrite Z.add_0_l. by destruct (_ >? _)%Z.
Qed.

(** C1.  With a limit of [max_mb >= 0] megabytes: when the stream is
    longer than [max_mb * 1024 * 1024] bytes, [guardar_con_limite] raises
    the 413 error and the destination does not exist afterwards (the rest of
    the filesystem is as before); when the stream fits, it returns and
    the destination holds exactly the bytes of the stream. *)
Theorem guardar_con_limite_spec (upload_file : UploadFile) (destino_path : string)
    (max_mb : Z) (w : World) :
  (0 <= max_mb)%Z ->
  let limit_bytes := (max_mb * 1024 * 1024)%Z in
  let total := Z.of_nat (length (file upload_file)) in
  let out := guardar_con_limite upload_file destino_path max_mb w in
  ((total > limit_bytes)%Z ->
     out.2 = Raise (limite_excedido max_mb) /\
     fs out.1 !! destino_path = None /\
     fs out.1 = delete destino_path (fs w)) /\
  ((total <= limit_bytes)%Z ->
     out.2 = Ok tt /\
     fs out.1 !! destino_path = Some (file upload_file) /\
     fs out.1 = <[destino_path := file upload_file]> (fs w)).
Proof.
  intros Hmb limit_bytes total out. subst out.
  rewrite guardar_con_limite_eq by done. fold total. fold limit_bytes.
  destruct (total >? limit_bytes)%Z eqn:E.
  - apply Z.gtb_gt in E. split; [|lia]. intros _. simpl.
    split; [done|]. split; [apply lookup_delete_eq|done].
  - apply Zgtb_false_le in E. split; [lia|]. intros _. simpl.
    split; [done|]. split; [apply lookup_insert_eq|done].
Qed.

Lemma guardar_con_limite_spec_witness :
  (guardar_con_limite (mkUploadFile "a.pdf" [Byte.x25]) "temp_uploads/0.pdf" 0
     (fresh ∅ 0)).2 = Raise (limite_excedido 0) /\
  fs (guardar_con_limite (mkUploadFile "a.pdf" [Byte.x25]) "temp_uploads/0.pdf" 1
        (fresh ∅ 0)).1 !! "temp_uploads/0.pdf" = Some [Byte.x25].
Proof.
  split.
  - apply (guardar_con_limite_spec (mkUploadFile "a.pdf" [Byte.x25])
             "temp_uploads/0.pdf" 0 (fresh ∅ 0)); simpl; lia.
  - apply (guardar_con_limite_spec (mkUploadFile "a.pdf" [Byte.x25])
             "temp_uploads/0.pdf" 1 (fresh ∅ 0)); simpl; lia.
Defined.

(* ===================================================================== *)
(** * A program logic for the routes                                      *)
(* ===================================================================== *)

Section HoareRules.
Context {S : Type}.
Implicit Types (P E : S -> Prop).

Lemma hoare_ret {A} (a : A) (Q : S -> A -> Prop) E :
  hoare (fun s => Q s a) (ret a) Q E.
Proof. by intros s H. Qed.

Lemma hoare_raise {A} (e : exception) (Q : S -> A -> Prop) E :
  hoare E (raise e) Q E.
Proof. by intros s H. Qed.

Lemma hoare_bind {A B} P (Q : S -> A -> Prop) (R : S -> B -> Prop) E
    (m : M S A) (k : A -> M S B) :
  hoare P m Q E ->
  (forall a, hoare (fun s => Q s a) (k a) R E) ->
  hoare P (bind m k) R E.
Proof.
  intros Hm Hk s HP. unfold bind. specialize (Hm s HP).
  destruct (m s) as [s' [a|e]]; [|done]. by apply Hk.
Qed.

Lemma hoare_conseq {A} P P' (Q Q' : S -> A -> Prop) E E' (m : M S A) :
  hoare P' m Q' E' ->
  (forall s, P s -> P' s) ->
  (forall s a, Q' s a -> Q s a) ->
  (forall s, E' s -> E s) ->
  hoare P m Q E.
Proof.
  intros Hm HP HQ HE s Hs. specialize (Hm s (HP s Hs)).
  destruct (m s) as [s' [a|e]]; auto.
Qed.

Lemma hoare_pre {A} P P' (Q : S -> A -> Prop) E (m : M S A) :
  hoare P' m Q E -> (forall s, P s -> P' s) -> hoare P m Q E.
Proof. intros Hm HP. eapply hoare_conseq; eauto. Qed.

(** A pure step that may raise: the state stays, the value is known. *)
Lemma hoare_lift_result {A} (r : result A) P E :
  (forall s, P s -> E s) ->
  hoare P (lift_result r) (fun s a => P s /\ r = Ok a) E.
Proof.
  intros HE s HP. unfold lift_result. revert HP. case r; simpl; auto.
Qed.

Lemma hoare_for_each {A} (Inv : S -> Prop) E (xs : list A) (body : A -> M S unit) :
  (forall x, hoare Inv (body x) (fun s _ => Inv s) E) ->
  hoare Inv (for_each xs body) (fun s _ => Inv s) E.
Proof.
  intros Hbody. induction xs as [|x xs IH]; simpl.
  - apply (hoare_ret tt (fun s _ => Inv s)).
  - eapply hoare_bind; [apply Hbody|]. intros u. apply IH.
Qed.

End HoareRules.

Section HoareWorld.
Context {L : Type}.
Implicit Types (P E : World * L -> Prop).

Lemma hoare_in_world {A} (m : M World A) P (Q : World * L -> A -> Prop) E :
  (forall w l, P (w, l) ->
     match m w with
     | (w', Ok a) => Q (w', l) a
     | (w', Raise _) => E (w', l)
     end) ->
  hoare P (in_world m) Q E.
Proof.
  intros H [w l] HP. unfold in_world. simpl. specialize (H w l HP).
  by destruct (m w) as [w' [a|e]].
Qed.

Lemma hoare_get_locals P E :
  hoare P get_locals (fun s l => P s /\ l = s.2) E.
Proof. by intros s HP. Qed.

Lemma hoare_set_locals (f : L -> L) (Q : World * L -> unit -> Prop) E :
  hoare (fun s => Q (s.1, f s.2) tt) (set_locals f) Q E.
Proof. by intros s HP. Qed.

End HoareWorld.

(** ** What the operating system and the libraries do to the world *)

Lemma readonly_read_file path : readonly (read_file path).
Proof. intros w. unfold read_file. by destruct (fs w !! path). Qed.

Lemma readonly_getsize path : readonly (os_path_getsize path).
Proof. intros w. unfold os_path_getsize. by destruct (fs w !! path). Qed.

Lemma readonly_bind {A B} (m : M World A) (k : A -> M World B) :
  readonly m -> (forall a, readonly (k a)) -> readonly (bind m k).
Proof.
  intros Hm Hk w. unfold bind. specialize (Hm w).
  destruct (m w) as [w' [a|e]]; simpl in *; subst; [apply Hk|done].
Qed.

Lemma readonly_ret {A} (a : A) : readonly (ret a).
Proof. done. Qed.

Lemma readonly_lift_result {A} (r : result A) : readonly (lift_result r).
Proof. done. Qed.

Lemma readonly_read_files paths : readonly (read_files paths).
Proof.
  induction paths as [|p paths IH]; simpl; [apply readonly_ret|].
  apply readonly_bind; [apply readonly_read_file|]. intros c.
  apply readonly_bind; [apply IH|]. intros cs. apply readonly_ret.
Qed.

Lemma hoare_readonly {L A} (m : M World A) (P : World * L -> Prop) :
  readonly m -> hoare P (in_world m) (fun s _ => P s) P.
Proof.
  intros Hm. apply hoare_in_world. intros w l HP. specialize (Hm w).
  destruct (m w) as [w' [a|e]]; simpl in Hm; by subst.
Qed.

(* ===================================================================== *)
(** * The ledger of a request                                             *)
(* ===================================================================== *)

Section Ledger.
Context {page : Type} (lib : Collaborators page).
Context {L : Type} (ledger : L -> list string).

Lemma recorded_safe (pend : list (role * string)) (s : World * L) :
  (forall rp, rp ∈ pend -> rp.1 = output) -> recorded ledger pend s -> (safe ledger) s.
Proof.
  intros Hpend [Hq Hrec]. split; [done|]. intros p Hp.
  destruct (Hrec _ Hp) as [Hin|Hin]; [by left|].
  by specialize (Hpend _ Hin).
Qed.

Lemma recorded_nil_safe (s : World * L) : recorded ledger [] s -> (safe ledger) s.
Proof. apply recorded_safe. intros rp Hin. by apply elem_of_nil in Hin. Qed.

Lemma recorded_output_safe (path : string) (s : World * L) :
  recorded ledger [(output, path)] s -> (safe ledger) s.
Proof.
  apply recorded_safe. intros rp Hin. apply list_elem_of_singleton in Hin. by subst.
Qed.

(** *** The steps of a route *)

Lemma hoare_validar (filename : string) (permitidas : gset string) pend :
  (forall s, recorded ledger pend s -> (safe ledger) s) ->
  hoare (recorded ledger pend) (lift_result (validar_extension filename permitidas))
        (fun s _ => recorded ledger pend s) (safe ledger).
Proof.
  intros Hsafe. eapply hoare_conseq; [by apply hoare_lift_result| | |]; simpl; tauto.
Qed.

Lemma hoare_pure {A} (r : result A) pend :
  (forall s, recorded ledger pend s -> (safe ledger) s) ->
  hoare (recorded ledger pend) (lift_result r) (fun s _ => recorded ledger pend s) (safe ledger).
Proof.
  intros Hsafe. eapply hoare_conseq; [by apply hoare_lift_result| | |]; simpl; tauto.
Qed.

Lemma hoare_uuid4 pend :
  hoare (recorded ledger pend) (in_world (uuid4 lib))
        (fun s _ => recorded ledger pend s) (safe ledger).
Proof. apply hoare_in_world. by intros w l H. Qed.

Lemma hoare_read {A} (m : M World A) pend :
  readonly m ->
  (forall s, recorded ledger pend s -> (safe ledger) s) ->
  hoare (recorded ledger pend) (in_world m) (fun s _ => recorded ledger pend s) (safe ledger).
Proof.
  intros Hm Hsafe.
  eapply hoare_conseq;
    [by apply hoare_readonly | intros s H; exact H | intros s a H; exact H | exact Hsafe].
Qed.

(** [guardar_con_limite] leaves the new upload pending when it returns,
    and no file behind when it raises. *)
Lemma hoare_guardar (upload_file : UploadFile) (path : string) :
  hoare (recorded ledger []) (in_world (guardar_con_limite upload_file path MAX_MB_PER_FILE))
        (fun s _ => recorded ledger [(input, path)] s) (safe ledger).
Proof.
  apply hoare_in_world. intros w l [Hq Hrec].
  rewrite guardar_con_limite_eq by done.
  destruct (_ >? _)%Z.
  - split; [done|]. simpl. intros p [Hp|Hp]%elem_of_app.
    + destruct (Hrec _ Hp) as [?|Hnil]; [by left|]. by apply elem_of_nil in Hnil.
    + apply list_elem_of_singleton in Hp. injection Hp as ->.
      right. split; [apply lookup_delete_eq | apply last_snoc].
  - split; [done|]. simpl. intros rp [Hp|Hp]%elem_of_app.
    + destruct (Hrec _ Hp) as [?|Hnil]; [by left|]. by apply elem_of_nil in Hnil.
    + right. done.
Qed.

(** [paths.append(path)] records the pending path. *)
Lemma hoare_append (rp : role * string) (f : L -> L) :
  (forall l q, q ∈ ledger l \/ q = rp.2 -> q ∈ ledger (f l)) ->
  hoare (recorded ledger [rp]) (set_locals f) (fun s _ => recorded ledger [] s) (safe ledger).
Proof.
  intros Hf. eapply hoare_pre; [apply hoare_set_locals|].
  intros [w l] [Hq Hrec]. split; [done|]. simpl in *. intros rp' Hin. left.
  apply Hf. destruct (Hrec _ Hin) as [?|Heq]; [by left|].
  apply list_elem_of_singleton in Heq. subst. by right.
Qed.

(** An assignment to a local that is not part of the ledger. *)
Lemma hoare_assign (f : L -> L) pend :
  (forall l, ledger (f l) = ledger l) ->
  hoare (recorded ledger pend) (set_locals f) (fun s _ => recorded ledger pend s) (safe ledger).
Proof.
  intros Hf. eapply hoare_pre; [apply hoare_set_locals|].
  intros [w l] [Hq Hrec]. split; [done|]. simpl in *. by rewrite Hf.
Qed.

Lemma hoare_open_wb (path : string) :
  hoare (recorded ledger []) (in_world (open_wb output path))
        (fun s _ => recorded ledger [(output, path)] s) (safe ledger).
Proof.
  apply hoare_in_world. intros w l [Hq Hrec]. split; [done|]. simpl.
  intros rp [Hp|Hp]%elem_of_app; [|by right].
  destruct (Hrec _ Hp) as [?|Hnil]; [by left|]. by apply elem_of_nil in Hnil.
Qed.

Lemma hoare_write (path : string) (data : list Byte.byte) pend :
  hoare (recorded ledger pend) (in_world (write path data))
        (fun s _ => recorded ledger pend s) (safe ledger).
Proof. apply hoare_in_world. by intros w l H. Qed.

(** A document written at [path]: the path is pending afterwards, and if
    the writer raises, the uploads are where they were. *)
Lemma hoare_write_pdf (path : string) (pages : list page) :
  hoare (recorded ledger []) (in_world (write_pdf lib path pages))
        (fun s _ => recorded ledger [(output, path)] s) (safe ledger).
Proof.
  apply hoare_in_world. intros w l Hrec.
  pose proof (hoare_open_wb path (w, l) Hrec) as Hopen.
  unfold write_pdf, bind, open_wb.
  destruct (PdfWriter_write lib pages) as [data [e|]]; simpl.
  - apply (recorded_output_safe path). exact Hopen.
  - exact Hopen.
Qed.

Lemma readonly_read_entries paths : readonly (read_entries paths).
Proof.
  induction paths as [|p paths IH]; simpl; [apply readonly_ret|].
  apply readonly_bind.
  - unfold read_entry. apply readonly_bind; [apply readonly_read_file|].
    intros c. apply readonly_ret.
  - intros entry. apply readonly_bind; [apply IH|]. intros es. apply readonly_ret.
Qed.

Lemma hoare_write_zip (final_path : string) (paths : list string) :
  hoare (recorded ledger []) (in_world (write_zip lib final_path paths))
        (fun s _ => recorded ledger [(output, final_path)] s) (safe ledger).
Proof.
  apply hoare_in_world. intros w l Hrec.
  pose proof (hoare_open_wb final_path (w, l) Hrec) as Hopen.
  unfold write_zip, bind, open_wb. unfold in_world, open_wb in Hopen. simpl in Hopen.
  match goal with |- context [read_entries paths ?w1] =>
    pose proof (readonly_read_entries paths w1) as Hro;
    destruct (read_entries paths w1) as [w2 [entries|e]]
  end; simpl in Hro; subst w2.
  - destruct (ZipFile_write lib entries) as [data [e|]]; simpl.
    + apply (recorded_output_safe final_path). exact Hopen.
    + exact Hopen.
  - apply (recorded_output_safe final_path). exact Hopen.
Qed.

(** [background_tasks.add_task(borrar_archivos, paths)] with a list that
    holds the ledger and what was pending. *)
Lemma hoare_add_task (paths : list string) pend :
  hoare (fun s => recorded ledger pend s /\
                  (forall q, q ∈ ledger s.2 -> q ∈ paths) /\
                  (forall rp, rp ∈ pend -> rp.2 ∈ paths))
        (in_world (add_task paths)) (fun s _ => scheduled s) (safe ledger).
Proof.
  apply hoare_in_world. intros w l ([[Ht Hb] Hrec] & Hled & Hpend). simpl in *.
  exists paths. simpl. rewrite Ht. split; [done|]. split; [done|].
  intros rp Hin. destruct (Hrec _ Hin) as [?|?]; auto.
Qed.

End Ledger.

(** *** The routes *)

Ltac hpre := intros ? Hpre; first [exact Hpre | exact (proj1 Hpre)].

(** One step of a [try] block: the rule [rule] for the head, then on. *)
Ltac hstep rule :=
  eapply hoare_bind;
  [eapply hoare_pre; [rule | hpre] | intros ?; cbv beta zeta].

Ltac hlast rule := eapply hoare_pre; [rule | hpre].

Section RouteLedgers.
Context {page : Type} (lib : Collaborators page).

Lemma readonly_PdfReader (path : string) : readonly (PdfReader lib path).
Proof.
  unfold PdfReader. apply readonly_bind; [apply readonly_read_file|].
  intros c. apply readonly_lift_result.
Qed.

Lemma elem_of_snoc_r (xs : list string) (x q : string) :
  q ∈ xs \/ q = x -> q ∈ xs ++ [x].
Proof.
  intros [H| ->]; apply elem_of_app; [by left|right]. by apply list_elem_of_singleton.
Qed.

Lemma unir_file_recorded (file : UploadFile) :
  hoare (recorded (@unir_temp_paths page) []) (unir_file lib file)
        (fun s _ => recorded (@unir_temp_paths page) [] s)
        (safe (@unir_temp_paths page)).
Proof.
  unfold unir_file.
  hstep ltac:(apply hoare_validar, recorded_nil_safe).
  hstep ltac:(apply hoare_uuid4).
  hstep ltac:(apply hoare_guardar).
  hstep ltac:(eapply (hoare_append _ (input, _)); intros l q; apply elem_of_snoc_r).
  hstep ltac:(apply hoare_read; [apply readonly_PdfReader | apply recorded_nil_safe]).
  hlast ltac:(by apply hoare_assign).
Qed.

Lemma hoare_file_response {L : Type} (ledger : L -> list string)
    (path name : string) (headers : list (string * string)) :
  hoare (@scheduled L) (ret (FileResponse path name headers)) entregado (safe ledger).
Proof. intros s H. by split. Qed.

Lemma unir_try_ledger (files : list UploadFile) (output_path : string) :
  hoare (recorded (@unir_temp_paths page) []) (unir_try lib files output_path)
        entregado (safe (@unir_temp_paths page)).
Proof.
  unfold unir_try.
  hstep ltac:(apply hoare_for_each, unir_file_recorded).
  eapply hoare_bind; [apply hoare_get_locals|]. intros l. cbv beta.
  hstep ltac:(apply hoare_write_pdf).
  eapply hoare_bind; [apply hoare_get_locals|]. intros l'. cbv beta.
  eapply hoare_bind.
  - eapply hoare_pre; [apply (hoare_add_task _ _ [(output, output_path)])|].
    intros s [Hrec ->]. split; [exact Hrec|]. split.
    + intros q Hq. apply elem_of_app. by left.
    + intros rp Hrp. apply list_elem_of_singleton in Hrp as ->.
      apply elem_of_app. right. by apply list_elem_of_singleton.
  - intros u. apply hoare_file_response.
Qed.

(** [if b: raise e] *)
Lemma hoare_guard {L : Type} (ledger : L -> list string) (b : bool) (e : exception) pend :
  (forall s, recorded ledger pend s -> safe ledger s) ->
  hoare (recorded ledger pend) (if b then raise e else ret tt)
        (fun s _ => recorded ledger pend s) (safe ledger).
Proof.
  intros Hsafe. destruct b.
  - eapply hoare_pre; [apply hoare_raise|exact Hsafe].
  - apply (hoare_ret tt (fun s _ => recorded ledger pend s)).
Qed.

Lemma comprimir_append_input (l : comprimir_locals) (path q : string) :
  q ∈ comprimir_ledger l \/ q = path ->
  q ∈ comprimir_ledger (mkComprimirLocals (processed_files l) (temp_inputs l ++ [path])
                          (total_orig l) (total_comp l)).
Proof.
  unfold comprimir_ledger. simpl.
  rewrite !elem_of_app, list_elem_of_singleton. tauto.
Qed.

Lemma comprimir_append_output (l : comprimir_locals) (path q : string) :
  q ∈ comprimir_ledger l \/ q = path ->
  q ∈ comprimir_ledger (mkComprimirLocals (processed_files l ++ [path]) (temp_inputs l)
                          (total_orig l) (total_comp l)).
Proof.
  unfold comprimir_ledger. simpl.
  rewrite !elem_of_app, list_elem_of_singleton. tauto.
Qed.

Lemma comprimir_file_recorded (file : UploadFile) :
  hoare (recorded comprimir_ledger []) (comprimir_file lib file)
        (fun s _ => recorded comprimir_ledger [] s) (safe comprimir_ledger).
Proof.
  unfold comprimir_file.
  hstep ltac:(apply hoare_validar, recorded_nil_safe).
  hstep ltac:(apply hoare_uuid4).
  hstep ltac:(apply hoare_guardar).
  hstep ltac:(eapply (hoare_append _ (input, _)); intros l q;
              apply comprimir_append_input).
  hstep ltac:(apply hoare_read; [apply readonly_getsize | apply recorded_nil_safe]).
  hstep ltac:(by apply hoare_assign).
  hstep ltac:(apply hoare_read; [apply readonly_PdfReader | apply recorded_nil_safe]).
  hstep ltac:(apply hoare_pure, recorded_nil_safe).
  hstep ltac:(apply hoare_uuid4).
  hstep ltac:(apply hoare_write_pdf).
  hstep ltac:(apply hoare_read; [apply readonly_getsize | apply recorded_output_safe]).
  hstep ltac:(by apply hoare_assign).
  hlast ltac:(eapply (hoare_append _ (output, _)); intros l q;
              apply comprimir_append_output).
Qed.

Lemma comprimir_try_ledger (files : list UploadFile) :
  hoare (recorded comprimir_ledger []) (comprimir_try lib files)
        entregado (safe comprimir_ledger).
Proof.
  unfold comprimir_try.
  hstep ltac:(apply hoare_for_each, comprimir_file_recorded).
  eapply hoare_bind; [apply hoare_get_locals|]. intros l. cbv beta.
  eapply hoare_bind with (Q := fun s _ => recorded comprimir_ledger [] s).
  { destruct (_ =? _)%Z.
    - hstep ltac:(apply hoare_pure, recorded_nil_safe).
      apply (hoare_ret _ (fun s _ => recorded comprimir_ledger [] s)).
    - hstep ltac:(apply hoare_uuid4).
      hstep ltac:(apply hoare_write_zip).
      hstep ltac:(eapply (hoare_append _ (output, _)); intros l0 q;
                  apply comprimir_append_output).
      apply (hoare_ret _ (fun s _ => recorded comprimir_ledger [] s)). }
  intros final. cbv beta zeta.
  eapply hoare_bind; [apply hoare_get_locals|]. intros l'. cbv beta.
  eapply hoare_bind.
  { apply (hoare_lift_result _ (fun s => recorded comprimir_ledger [] s /\ l' = s.2)).
    intros s [Hrec _]. by apply recorded_nil_safe. }
  intros pct. cbv beta.
  eapply hoare_bind.
  - eapply hoare_pre; [apply (hoare_add_task _ _ [])|].
    intros s [[Hrec ->] _]. split; [exact Hrec|]. split; [done|].
    intros rp Hrp. by apply elem_of_nil in Hrp.
  - intros u. apply hoare_file_response.
Qed.

Lemma img2pdf_file_recorded (file : UploadFile) :
  hoare (recorded lista []) (img2pdf_file lib file)
        (fun s _ => recorded lista [] s) (safe lista).
Proof.
  unfold img2pdf_file.
  hstep ltac:(apply hoare_validar, recorded_nil_safe).
  hstep ltac:(apply hoare_uuid4).
  hstep ltac:(apply hoare_guardar).
  hlast ltac:(eapply (hoare_append _ (input, _)); intros l q; apply elem_of_snoc_r).
Qed.

Lemma schedule_with_output (output_path : string) (temp_paths : list string)
    (s : World * list string) :
  recorded lista [(output, output_path)] s /\ temp_paths = s.2 ->
  recorded lista [(output, output_path)] s /\
  (forall q, q ∈ lista s.2 -> q ∈ temp_paths ++ [output_path]) /\
  (forall rp, rp ∈ [(output, output_path)] -> rp.2 ∈ temp_paths ++ [output_path]).
Proof.
  intros [Hrec ->]. split; [exact Hrec|]. split.
  - intros q Hq. apply elem_of_app. by left.
  - intros rp Hrp. apply list_elem_of_singleton in Hrp as ->.
    apply elem_of_app. right. by apply list_elem_of_singleton.
Qed.

Lemma img2pdf_try_ledger (files : list UploadFile) (output_path : string) :
  hoare (recorded lista []) (img2pdf_try lib files output_path) entregado (safe lista).
Proof.
  unfold img2pdf_try.
  hstep ltac:(apply hoare_for_each, img2pdf_file_recorded).
  eapply hoare_bind; [apply hoare_get_locals|]. intros img_paths. cbv beta.
  eapply hoare_bind with (Q := fun s _ => recorded lista [] s /\ img_paths = s.2).
  { intros s [Hrec Heq]. pose proof (readonly_read_files img_paths s.1) as Hro.
    unfold in_world. destruct (read_files img_paths s.1) as [w' [cs|e]];
      simpl in *; subst w'; destruct s; [done|by apply recorded_nil_safe]. }
  intros contents. cbv beta.
  eapply hoare_bind with (Q := fun s _ => recorded lista [] s /\ img_paths = s.2).
  { intros s [Hrec Heq]. unfold lift_result.
    destruct (img2pdf_convert lib contents); [done|by apply recorded_nil_safe]. }
  intros pdf_bytes. cbv beta.
  eapply hoare_bind
    with (Q := fun s _ => recorded lista [(output, output_path)] s /\ img_paths = s.2).
  { intros [w l] [Hrec Heq]. split; [|done].
    exact (hoare_open_wb lista output_path (w, l) Hrec). }
  intros u. cbv beta.
  eapply hoare_bind
    with (Q := fun s _ => recorded lista [(output, output_path)] s /\ img_paths = s.2).
  { by intros [w l] [Hrec Heq]. }
  intros u'. cbv beta.
  eapply hoare_bind.
  - eapply hoare_pre; [apply (hoare_add_task _ _ [(output, output_path)])|].
    intros s. apply schedule_with_output.
  - intros u''. apply hoare_file_response.
Qed.

Lemma extraer_try_ledger (file : UploadFile) (inicio fin : Z) :
  hoare (recorded lista []) (extraer_try lib file inicio fin) entregado (safe lista).
Proof.
  unfold extraer_try.
  hstep ltac:(apply hoare_validar, recorded_nil_safe).
  hstep ltac:(apply hoare_uuid4).
  hstep ltac:(apply hoare_guardar).
  hstep ltac:(eapply (hoare_append _ (input, _)); intros l q; apply elem_of_snoc_r).
  hstep ltac:(apply hoare_read; [apply readonly_PdfReader | apply recorded_nil_safe]).
  hstep ltac:(apply hoare_guard, recorded_nil_safe).
  hstep ltac:(apply hoare_pure, recorded_nil_safe).
  hstep ltac:(apply hoare_uuid4).
  hstep ltac:(apply hoare_write_pdf).
  eapply hoare_bind; [apply hoare_get_locals|]. intros temp_paths. cbv beta.
  eapply hoare_bind.
  - eapply hoare_pre; [eapply (hoare_add_task _ _ [(output, _)])|].
    intros s. apply schedule_with_output.
  - intros u. apply hoare_file_response.
Qed.

Lemma rotar_try_ledger (file : UploadFile) (grados : Z) :
  hoare (recorded lista []) (rotar_try lib file grados) entregado (safe lista).
Proof.
  unfold rotar_try.
  hstep ltac:(apply hoare_validar, recorded_nil_safe).
  hstep ltac:(apply hoare_guard, recorded_nil_safe).
  hstep ltac:(apply hoare_uuid4).
  hstep ltac:(apply hoare_guardar).
  hstep ltac:(eapply (hoare_append _ (input, _)); intros l q; apply elem_of_snoc_r).
  hstep ltac:(apply hoare_read; [apply readonly_PdfReader | apply recorded_nil_safe]).
  hstep ltac:(apply hoare_pure, recorded_nil_safe).
  hstep ltac:(apply hoare_uuid4).
  hstep ltac:(apply hoare_write_pdf).
  eapply hoare_bind; [apply hoare_get_locals|]. intros temp_paths. cbv beta.
  eapply hoare_bind.
  - eapply hoare_pre; [eapply (hoare_add_task _ _ [(output, _)])|].
    intros s. apply schedule_with_output.
  - intros u. apply hoare_file_response.
Qed.

End RouteLedgers.

(* ===================================================================== *)
(** * Cleanup                                                             *)
(* ===================================================================== *)

(** One turn of the loop of [borrar_archivos] removes the path if it is
    there and touches nothing else. *)
Lemma borrar_paths_cons (path : string) (file_paths : list string) (w : World) :
  borrar_paths (path :: file_paths) w =
  borrar_paths file_paths (with_fs (delete path) w).
Proof.
  simpl. f_equal. unfold os_path_exists, os_remove, with_fs.
  destruct (fs w !! path) as [c|] eqn:Hp; simpl.
  - reflexivity.
  - rewrite delete_id by done. by destruct w.
Qed.

Lemma borrar_paths_fs (file_paths : list string) (w : World) (p : string) :
  fs (borrar_paths file_paths w) !! p =
  if decide (p ∈ file_paths) then None else fs w !! p.
Proof.
  revert w. induction file_paths as [|path paths IH]; intros w.
  - by rewrite decide_False by apply not_elem_of_nil.
  - rewrite borrar_paths_cons, IH. simpl.
    destruct (decide (p ∈ paths)) as [Hin|Hout].
    + rewrite decide_True; [done|]. apply elem_of_cons. by right.
    + destruct (decide (p = path)) as [->|Hne].
      * rewrite decide_True by apply list_elem_of_here. apply lookup_delete_eq.
      * rewrite decide_False.
        -- by apply lookup_delete_ne.
        -- intros [?|?]%elem_of_cons; done.
Qed.

Lemma borrar_paths_history (file_paths : list string) (w : World) :
  uuid_draws (borrar_paths file_paths w) = uuid_draws w /\
  background_tasks (borrar_paths file_paths w) = background_tasks w /\
  created (borrar_paths file_paths w) = created w /\
  borrados (borrar_paths file_paths w) = borrados w.
Proof.
  revert w. induction file_paths as [|path paths IH]; intros w; [done|].
  rewrite borrar_paths_cons. apply (IH (with_fs (delete path) w)).
Qed.

(** What [borrar_archivos] leaves: the listed paths are gone, the others
    are as they were, and the call is in the history. *)
Lemma borrar_archivos_spec (file_paths : list string) (w : World) :
  let w' := (borrar_archivos file_paths w).1 in
  (forall p, fs w' !! p = if decide (p ∈ file_paths) then None else fs w !! p) /\
  background_tasks w' = background_tasks w /\
  created w' = created w /\
  borrados w' = borrados w ++ [file_paths].
Proof.
  unfold borrar_archivos. simpl.
  destruct (borrar_paths_history file_paths w) as (_ & Ht & Hc & Hb).
  rewrite Ht, Hc, Hb. split; [|done]. intros p. apply borrar_paths_fs.
Qed.

Section Serve.
Context {page : Type} (lib : Collaborators page).
Context {L : Type} (ledger : L -> list string).

Lemma run_background_tasks_none (w : World) :
  background_tasks w = [] -> run_background_tasks w = w.
Proof. intros Ht. unfold run_background_tasks. rewrite Ht. destruct w. by simplify_eq/=. Qed.

Lemma run_background_tasks_one (w : World) (paths : list string) :
  background_tasks w = [paths] ->
  let w' := run_background_tasks w in
  (forall p, fs w' !! p = if decide (p ∈ paths) then None else fs w !! p) /\
  background_tasks w' = [] /\
  created w' = created w /\
  borrados w' = borrados w ++ [paths].
Proof.
  intros Ht. unfold run_background_tasks. rewrite Ht. unfold run_tasks.
  apply (borrar_archivos_spec paths
           (mkWorld (fs w) (uuid_draws w) [] (created w) (borrados w))).
Qed.

Lemma try_except_limpio (body : M (World * L) response) (init : L) (w : World) :
  hoare (recorded ledger []) body entregado (safe ledger) ->
  quiet w -> created w = [] ->
  let out := try_except body ledger init w in
  limpio (run_background_tasks out.1) out.2.
Proof.
  intros Hbody Hq Hc. unfold try_except.
  assert (recorded ledger [] (w, init)) as Hinit.
  { split; [done|]. simpl. rewrite Hc. intros rp Hin. by apply elem_of_nil in Hin. }
  specialize (Hbody _ Hinit). destruct (body (w, init)) as [[w1 l] [r|e]]; cbn [fst snd].
  - destruct Hbody as [(paths & Ht & Hb & Hall) Hr]. cbn [fst snd] in *.
    destruct (run_background_tasks_one w1 paths Ht) as (Hfs & Ht' & Hc' & Hb').
    exists paths. rewrite Hb in Hb'. rewrite Hc'.
    split; [done|]. split; [done|].
    split; [intros p Hp; left; apply (Hall _ Hp)|].
    split.
    + intros p Hp. rewrite Hfs. rewrite decide_True; [done|]. apply (Hall _ Hp).
    + rewrite Hr. intros rp Hrp. split; [by apply Hall|].
      rewrite Hfs. rewrite decide_True; [done|]. by apply Hall.
  - destruct Hbody as [[Ht Hb] Hsafe]. cbn [fst snd] in *.
    destruct (borrar_archivos_spec (ledger l) w1) as (Hfs & Ht' & Hc' & Hb').
    cbv zeta in *. rewrite run_background_tasks_none by (by rewrite Ht').
    exists (ledger l). rewrite Hb', Hb, Hc', Ht', Ht.
    split; [done|]. split; [done|].
    split; [intros p Hp; destruct (Hsafe _ Hp) as [?|[_ ?]]; auto|].
    split; [|by exists e].
    intros p Hp. rewrite Hfs. destruct (decide _); [done|].
    destruct (Hsafe _ Hp) as [?|[? _]]; done.
Qed.

End Serve.

Section Requests.
Context {page : Type} (lib : Collaborators page).

Lemma serve_sin_archivos (req : request) (files : gmap string (list Byte.byte))
    (draws : nat) :
  sin_archivos req = true ->
  (serve lib req (fresh files draws)).1 = fresh files draws /\
  exists message, (serve lib req (fresh files draws)).2 = JSONResponse 400 message.
Proof.
  destruct req as [[|f fs']|[|f fs']|[|f fs']| |]; try discriminate; intros _;
    (split; [reflexivity|eexists; reflexivity]).
Qed.

Lemma serve_limpio (req : request) (files : gmap string (list Byte.byte)) (draws : nat) :
  sin_archivos req = false ->
  limpio (serve lib req (fresh files draws)).1 (serve lib req (fresh files draws)).2.
Proof.
  intros Hreq. unfold serve.
  destruct (app lib req (fresh files draws)) as [w' r] eqn:Happ. cbn [fst snd].
  change w' with (w', r).1. change r with (w', r).2 at 2. rewrite <- Happ. clear Happ.
  destruct req as [[|f fs']|[|f fs']|[|f fs']|f inicio fin|f grados];
    try discriminate; unfold app.
  - unfold api_unir. unfold uuid4_draw. cbn [fresh].
    apply (try_except_limpio (@unir_temp_paths page)); [apply unir_try_ledger|done|done].
  - unfold api_comprimir.
    apply (try_except_limpio comprimir_ledger); [apply comprimir_try_ledger|done|done].
  - unfold api_img2pdf. unfold uuid4_draw. cbn [fresh].
    apply (try_except_limpio lista); [apply img2pdf_try_ledger|done|done].
  - unfold api_extraer.
    apply (try_except_limpio lista); [apply extraer_try_ledger|done|done].
  - unfold api_rotar.
    apply (try_except_limpio lista); [apply rotar_try_ledger|done|done].
Qed.

End Requests.

(** ** An upload over the limit *)

(** The extract route on an accepted upload that is over the limit: the
    path of the upload has been created and deleted again, the [except]
    clause calls [borrar_archivos] on the empty list, and the 413 reaches
    the client under status 500. *)
Lemma api_extraer_excede {page : Type} (lib : Collaborators page)
    (nombre ext : string) (datos : list Byte.byte) (inicio fin : Z) (w : World) :
  validar_extension nombre {[ ".pdf" ]} = Ok ext ->
  (Z.of_nat (length datos) > MAX_MB_PER_FILE * 1024 * 1024)%Z ->
  api_extraer lib (mkUploadFile nombre datos) inicio fin w =
  (mkWorld
     (delete (PyStr.join UPLOAD_DIR (uuid4_hex lib (uuid_draws w) +:+ ".pdf")) (fs w))
     (S (uuid_draws w)) (background_tasks w)
     (created w ++
        [(input, PyStr.join UPLOAD_DIR (uuid4_hex lib (uuid_draws w) +:+ ".pdf"))])
     (borrados w ++ [[]]),
   JSONResponse 500 (str (limite_excedido MAX_MB_PER_FILE))).
Proof.
  intros Hval Hbig.
  unfold api_extraer, try_except, extraer_try.
  unfold bind at 1. unfold lift_result at 1. cbn [filename]. rewrite Hval.
  unfold bind at 1. unfold in_world at 1, uuid4 at 1, uuid4_draw. cbn [fst snd].
  unfold bind at 1. unfold in_world at 1. cbn [fst snd].
  rewrite guardar_con_limite_eq by done. cbn [file].
  destruct (_ >? _)%Z eqn:E; [|apply Zgtb_false_le in E; lia].
  reflexivity.
Qed.

(* ===================================================================== *)
(** * The ledger and the cleanup of a request                             *)
(* ===================================================================== *)

Lemma ledger_completo_intro (w : World) (paths : list string) :
  borrados w = [paths] ->
  (forall rp, rp ∈ created w -> rp.2 ∈ paths) ->
  ledger_completo w = true.
Proof.
  intros Hb Hall. unfold ledger_completo. apply forallb_forall. intros rp Hin.
  rewrite Hb. simpl. rewrite orb_false_r. apply bool_decide_eq_true_2.
  apply Hall. by apply list_elem_of_In.
Qed.

(** C2, at the failing input.  A one-page document is sent to the compress
    route and the writer raises while it serialises: the route answers with
    an error, its cleanup has run, and the output file that [open] had
    created is still in the workspace. *)
Theorem comprimir_deja_la_salida :
  let out := serve lib_escritura_falla (PostComprimir [documento]) (fresh ∅ 0) in
  out.2 = JSONResponse 500 "PdfReadError" /\
  created out.1 = [(input, "temp_uploads/0.pdf"); (output, "temp_outputs/Mini_1.pdf")] /\
  borrados out.1 = [["temp_uploads/0.pdf"]] /\
  background_tasks out.1 = [] /\
  fs out.1 !! "temp_uploads/0.pdf" = None /\
  fs out.1 !! "temp_outputs/Mini_1.pdf" = Some [].
Proof. vm_compute. repeat split. Qed.

(** On an output of the extract route: when the writer raises, the output
    path that [open] has created is in the list of no call of
    [borrar_archivos]. *)
Example ledger_sin_la_salida :
  ledger_completo
    (serve lib_escritura_falla (PostExtraer documento 1 1) (fresh ∅ 0)).1 = false.
Proof. vm_compute. reflexivity. Qed.

(* ===================================================================== *)
(** * Status codes                                                        *)
(* ===================================================================== *)

(** C3, at the failing inputs.  Every error response of a request that
    carries a file has status 500, whatever was raised: the 400 of a
    refused extension, of a page range out of bounds and of an angle that
    is not allowed, and the 413 of an upload over the limit, all reach the
    client as 500, with the intended status left in the message.  Status
    400 is returned to a request with no file only. *)
Theorem errores_devueltos_como_500 {page : Type} (lib : Collaborators page)
    (req : request) (files : gmap string (list Byte.byte)) (draws : nat) :
  match (serve lib req (fresh files draws)).2 with
  | FileResponse _ _ _ => True
  | JSONResponse status_code _ =>
      status_code = (if sin_archivos req then 400 else 500)%Z
  end /\
  (serve lib_demo (PostUnir [mkUploadFile "a.exe" [Byte.x4d; Byte.x5a]]) (fresh ∅ 0)).2 =
    JSONResponse 500 "400: Extensión no permitida: .exe" /\
  (serve lib_demo (PostExtraer documento 3 2) (fresh ∅ 0)).2 =
    JSONResponse 500 "400: Rango inválido. El PDF tiene 2 páginas." /\
  (serve lib_demo (PostRotar documento 45) (fresh ∅ 0)).2 =
    JSONResponse 500 "400: Solo se permiten 90, 180 o 270 grados." /\
  (serve lib_demo (PostExtraer archivo_enorme 1 1) (fresh ∅ 0)).2 =
    JSONResponse 500 "413: El archivo excede el límite de 30MB.".
Proof.
  split; [|split; [by vm_compute|split; [by vm_compute|split; [by vm_compute|]]]].
  - destruct (sin_archivos req) eqn:Hreq.
    + destruct (serve_sin_archivos lib req files draws Hreq) as [_ [m ->]]. done.
    + destruct (serve_limpio lib req files draws Hreq) as (paths & _ & _ & _ & _ & Hr).
      destruct (serve lib req (fresh files draws)).2 as [code m|]; [|done].
      simpl in Hr. destruct Hr as [e He]. by injection He as -> _.
  - unfold serve, app, archivo_enorme.
    rewrite (api_extraer_excede lib_demo "enorme.pdf" ".pdf").
    + by vm_compute.
    + by vm_compute.
    + rewrite length_replicate, N_nat_Z. unfold MAX_MB_PER_FILE. lia.
Qed.

(* ===================================================================== *)
(** * Validation and persistence, file by file                            *)
(* ===================================================================== *)

Lemma for_each_app {S A} (xs ys : list A) (body : A -> M S unit) (s : S) :
  for_each (xs ++ ys) body s =
  match for_each xs body s with
  | (s', Ok _) => for_each ys body s'
  | (s', Raise e) => (s', Raise e)
  end.
Proof.
  revert s. induction xs as [|x xs IH]; intros s; [done|].
  simpl. unfold bind. destruct (body x s) as [s' [[]|e]]; [apply IH|done].
Qed.

Lemma for_each_rechazo {S} (pre post : list UploadFile) (bad : UploadFile)
    (body : UploadFile -> M S unit) (e : exception) (s : S) :
  (forall s', body bad s' = (s', Raise e)) ->
  for_each (pre ++ bad :: post) body s = detener e (for_each pre body s).
Proof.
  intros Hbad. rewrite for_each_app. unfold detener.
  destruct (for_each pre body s) as [s' [[]|e']]; [|done].
  simpl. unfold bind. by rewrite Hbad.
Qed.

Section Rechazo.
Context {page : Type} (lib : Collaborators page).

Lemma unir_file_rechazo (f : UploadFile) (e : exception) s :
  validar_extension (filename f) {[ ".pdf" ]} = Raise e ->
  unir_file lib f s = (s, Raise e).
Proof. intros H. unfold unir_file, bind, lift_result. by rewrite H. Qed.

Lemma comprimir_file_rechazo (f : UploadFile) (e : exception) s :
  validar_extension (filename f) {[ ".pdf" ]} = Raise e ->
  comprimir_file lib f s = (s, Raise e).
Proof. intros H. unfold comprimir_file, bind, lift_result. by rewrite H. Qed.

Lemma img2pdf_file_rechazo (f : UploadFile) (e : exception) s :
  validar_extension (filename f) {[ ".jpg"; ".jpeg"; ".png" ]} = Raise e ->
  img2pdf_file lib f s = (s, Raise e).
Proof. intros H. unfold img2pdf_file, bind, lift_result. by rewrite H. Qed.

End Rechazo.

(** C5 as stated fails: the second file is refused after the first one
    has been persisted. *)
Lemma validacion_previa_contraejemplo :
  ~ validacion_previa lib_demo [documento; mkUploadFile "b.exe" [Byte.x4d; Byte.x5a]]
      (fresh ∅ 0).
Proof.
  intros H. unfold validacion_previa in H.
  assert (created (api_unir lib_demo
                     [documento; mkUploadFile "b.exe" [Byte.x4d; Byte.x5a]]
                     (fresh ∅ 0)).1 = [(input, "temp_uploads/1.pdf")]) as Hc
    by (by vm_compute).
  rewrite Hc in H. simpl in H. discriminate H.
  exists (mkUploadFile "b.exe" [Byte.x4d; Byte.x5a]),
         (HTTPException 400 "Extensión no permitida: .exe").
  split; [|by vm_compute].
  apply elem_of_cons. right. apply list_elem_of_here.
Qed.

(** C5, amended.  Each route validates the extension of a file before it
    does anything else for that file, one file after the other.  When the
    file [bad] is refused, the loop over [pre ++ bad :: post] ends as the
    loop over [pre] does, with the refusal raised in the state that [pre]
    has left if [pre] went through: the files before [bad] have been
    persisted, nothing is drawn or created for [bad] or for the files
    after it.  The single-file routes stop in the state they started in. *)
Theorem validacion_por_archivo {page : Type} (lib : Collaborators page)
    (pre post : list UploadFile) (bad : UploadFile) :
  match validar_extension (filename bad) {[ ".pdf" ]} with
  | Ok _ => True
  | Raise e =>
      (forall s, for_each (pre ++ bad :: post) (unir_file lib) s =
                 detener e (for_each pre (unir_file lib) s)) /\
      (forall s, for_each (pre ++ bad :: post) (comprimir_file lib) s =
                 detener e (for_each pre (comprimir_file lib) s)) /\
      (forall inicio fin s, extraer_try lib bad inicio fin s = (s, Raise e)) /\
      (forall grados s, rotar_try lib bad grados s = (s, Raise e))
  end /\
  match validar_extension (filename bad) {[ ".jpg"; ".jpeg"; ".png" ]} with
  | Ok _ => True
  | Raise e =>
      forall s, for_each (pre ++ bad :: post) (img2pdf_file lib) s =
                detener e (for_each pre (img2pdf_file lib) s)
  end.
Proof.
  split.
  - destruct (validar_extension (filename bad) {[ ".pdf" ]}) as [ext|e] eqn:Hval; [done|].
    repeat split; intros.
    + apply for_each_rechazo. intros s'. by apply unir_file_rechazo.
    + apply for_each_rechazo. intros s'. by apply comprimir_file_rechazo.
    + unfold extraer_try, bind, lift_result. by rewrite Hval.
    + unfold rotar_try, bind, lift_result. by rewrite Hval.
  - destruct (validar_extension (filename bad) _) as [ext|e] eqn:Hval; [done|].
    intros s. apply for_each_rechazo. intros s'. by apply img2pdf_file_rechazo.
Qed.

(* ===================================================================== *)
(** * Workspace paths and declared filenames                              *)
(* ===================================================================== *)




Section MismaExtension.
Context {page : Type} (lib : Collaborators page).





End MismaExtension.

(** ** The form of the paths *)

Lemma hoare_pure_pre {S A} (P : S -> Prop) (phi : Prop) (m : M S A)
    (Q : S -> A -> Prop) (E : S -> Prop) :
  (phi -> hoare P m Q E) -> hoare (fun s => P s /\ phi) m Q E.
Proof. intros H s [HP Hphi]. by apply H. Qed.

Lemma readonly_no_crea {A} (m : M World A) : readonly m -> no_crea m.
Proof. intros H w. by rewrite H. Qed.

Lemma validar_extension_Ok (filename ext : string) (permitidas : gset string) :
  validar_extension filename permitidas = Ok ext -> ext ∈ permitidas.
Proof.
  rewrite validar_extension_unfold. cbv zeta.
  destruct (bool_decide _) eqn:E; [|done]. intros [= <-].
  by apply bool_decide_eq_true_1 in E.
Qed.

Section Forma.
Context {page : Type} (lib : Collaborators page).
Context {L : Type} (c0 : list (role * string)).

Lemma formado_snoc (w w' : World) (l l' : L) (rp : role * string) :
  created w' = created w ++ [rp] -> forma lib rp ->
  formado lib c0 (w, l) -> formado lib c0 (w', l').
Proof.
  intros Hc Hrp Hf rp' Hin. simpl in *. rewrite Hc in Hin.
  apply elem_of_app in Hin as [Hin|Hin]; [by apply Hf|].
  apply list_elem_of_singleton in Hin as ->. by right.
Qed.

Lemma formado_same (w w' : World) (l l' : L) :
  created w' = created w -> formado lib c0 (w, l) -> formado lib c0 (w', l').
Proof. intros Hc Hf rp Hin. simpl in *. rewrite Hc in Hin. by apply Hf. Qed.

Lemma conserva_no_crea {A} (m : M World A) :
  no_crea m -> hoare (formado lib (L := L) c0) (in_world m)
    (fun s _ => formado lib c0 s)
    (formado lib (L := L) c0).
Proof.
  intros Hm. apply hoare_in_world. intros w l Hf. specialize (Hm w).
  destruct (m w) as [w' [a|e]]; simpl in Hm; by apply (formado_same w _ l l).
Qed.

Lemma conserva_lift_result {A} (r : result A) :
  hoare (formado lib (L := L) c0) (lift_result r)
    (fun s _ => formado lib c0 s)
    (formado lib (L := L) c0).
Proof. intros s Hf. unfold lift_result. by destruct r. Qed.

Lemma conserva_set_locals (f : L -> L) :
  hoare (formado lib (L := L) c0) (set_locals f)
    (fun s _ => formado lib c0 s)
    (formado lib (L := L) c0).
Proof. by intros [w l] Hf. Qed.

Lemma conserva_validar (filename : string) (permitidas : gset string) :
  hoare (formado lib (L := L) c0) (lift_result (validar_extension filename permitidas))
        (fun s ext => formado lib c0 s /\ ext ∈ permitidas) (formado lib (L := L) c0).
Proof.
  intros s Hf. unfold lift_result.
  destruct (validar_extension filename permitidas) as [ext|e] eqn:Hval; [|done].
  split; [done|]. by apply validar_extension_Ok in Hval.
Qed.

Lemma conserva_uuid4 :
  hoare (formado lib (L := L) c0) (in_world (uuid4 lib))
        (fun s hex => formado lib c0 s /\ exists n, hex = uuid4_hex lib n)
        (formado lib (L := L) c0).
Proof. apply hoare_in_world. intros w l Hf. split; [done|]. by eexists. Qed.

Lemma conserva_guardar (upload_file : UploadFile) (path : string) :
  forma lib (input, path) ->
  hoare (formado lib (L := L) c0) (in_world (guardar_con_limite upload_file path MAX_MB_PER_FILE))
        (fun s _ => formado lib c0 s) (formado lib (L := L) c0).
Proof.
  intros Hrp. apply hoare_in_world. intros w l Hf.
  rewrite guardar_con_limite_eq by done.
  destruct (_ >? _)%Z; by apply (formado_snoc w _ l l (input, path)).
Qed.

Lemma conserva_open_wb (path : string) :
  forma lib (output, path) ->
  hoare (formado lib (L := L) c0) (in_world (open_wb output path))
    (fun s _ => formado lib c0 s)
    (formado lib (L := L) c0).
Proof.
  intros Hrp. apply hoare_in_world. intros w l Hf.
  by apply (formado_snoc w _ l l (output, path)).
Qed.

Lemma conserva_write_pdf (path : string) (pages : list page) :
  forma lib (output, path) ->
  hoare (formado lib (L := L) c0) (in_world (write_pdf lib path pages))
    (fun s _ => formado lib c0 s)
    (formado lib (L := L) c0).
Proof.
  intros Hrp. apply hoare_in_world. intros w l Hf.
  unfold write_pdf, bind, open_wb.
  destruct (PdfWriter_write lib pages) as [data [e|]]; simpl;
    by apply (formado_snoc w _ l l (output, path)).
Qed.

Lemma conserva_write_zip (final_path : string) (paths : list string) :
  forma lib (output, final_path) ->
  hoare (formado lib (L := L) c0) (in_world (write_zip lib final_path paths))
    (fun s _ => formado lib c0 s)
    (formado lib (L := L) c0).
Proof.
  intros Hrp. apply hoare_in_world. intros w l Hf.
  unfold write_zip, bind, open_wb.
  match goal with |- context [read_entries paths ?w1] =>
    pose proof (readonly_read_entries paths w1) as Hro;
    destruct (read_entries paths w1) as [w2 [entries|e]]
  end; simpl in Hro; subst w2.
  - destruct (ZipFile_write lib entries) as [data [e|]]; simpl;
      by apply (formado_snoc w _ l l (output, final_path)).
  - by apply (formado_snoc w _ l l (output, final_path)).
Qed.

End Forma.

Ltac fstep rule := eapply hoare_bind; [rule | intros ?; cbv beta zeta].

(** A step that draws an identifier: the rest runs on the [n]-th. *)
Ltac fdraw lib := eapply hoare_bind; [apply (conserva_uuid4 lib) |];
                  intros ?; apply hoare_pure_pre; intros [? ->]; cbv beta zeta.

Section FormaRutas.
Context {page : Type} (lib : Collaborators page).
Context (c0 : list (role * string)).

Lemma forma_input (n : nat) (ext : string) :
  ext ∈ ALLOWED_EXTENSIONS ->
  forma lib (input, PyStr.join UPLOAD_DIR (uuid4_hex lib n +:+ ext)).
Proof. intros H. exists n, ext. by split. Qed.

Lemma forma_output (n : nat) (prefijo ext : string) :
  prefijo ∈ prefijos_salida -> ext ∈ [".pdf"; ".zip"] ->
  forma lib (output, PyStr.join OUTPUT_DIR (prefijo +:+ uuid4_hex lib n +:+ ext)).
Proof. intros H1 H2. by exists n, prefijo, ext. Qed.

Lemma pdf_permitida : ".pdf" ∈ ALLOWED_EXTENSIONS.
Proof. apply (bool_decide_unpack _). by vm_compute. Qed.

Lemma imagen_permitida (ext : string) :
  ext ∈ ({[ ".jpg"; ".jpeg"; ".png" ]} : gset string) -> ext ∈ ALLOWED_EXTENSIONS.
Proof.
  unfold ALLOWED_EXTENSIONS. rewrite !elem_of_union, !elem_of_singleton. tauto.
Qed.

Lemma prefijo_salida (prefijo : string) :
  bool_decide (prefijo ∈ prefijos_salida) = true -> prefijo ∈ prefijos_salida.
Proof. apply bool_decide_eq_true_1. Qed.

Lemma ext_salida (ext : string) :
  bool_decide (ext ∈ [".pdf"; ".zip"]) = true -> ext ∈ [".pdf"; ".zip"].
Proof. apply bool_decide_eq_true_1. Qed.

Lemma unir_file_forma (file : UploadFile) :
  hoare (formado lib c0) (unir_file lib file) (fun s _ => formado lib c0 s)
        (formado lib c0).
Proof.
  unfold unir_file.
  fstep ltac:(apply conserva_lift_result).
  fdraw lib.
  fstep ltac:(apply conserva_guardar, forma_input, pdf_permitida).
  fstep ltac:(apply conserva_set_locals).
  fstep ltac:(apply conserva_no_crea, readonly_no_crea, readonly_PdfReader).
  apply conserva_set_locals.
Qed.

Lemma no_crea_add_task (paths : list string) : no_crea (add_task paths).
Proof. done. Qed.

Lemma no_crea_write (path : string) (data : list Byte.byte) : no_crea (write path data).
Proof. done. Qed.

Lemma conserva_get_locals {L : Type} :
  hoare (formado lib (L := L) c0) get_locals (fun s _ => formado lib c0 s)
        (formado lib c0).
Proof. by intros s H. Qed.

Lemma conserva_ret {L A : Type} (a : A) :
  hoare (formado lib (L := L) c0) (ret a) (fun s _ => formado lib c0 s)
        (formado lib c0).
Proof. by intros s H. Qed.

Lemma conserva_guard {L : Type} (b : bool) (e : exception) :
  hoare (formado lib (L := L) c0) (if b then raise e else ret tt)
        (fun s _ => formado lib c0 s) (formado lib c0).
Proof. destruct b; by intros s H. Qed.

Lemma unir_try_forma (files : list UploadFile) (n : nat) :
  hoare (formado lib c0)
        (unir_try lib files
           (PyStr.join OUTPUT_DIR ("Unido_" +:+ uuid4_hex lib n +:+ ".pdf")))
        (fun s _ => formado lib c0 s) (formado lib c0).
Proof.
  unfold unir_try.
  fstep ltac:(apply hoare_for_each, unir_file_forma).
  fstep ltac:(apply conserva_get_locals).
  fstep ltac:(apply conserva_write_pdf, forma_output;
              [by apply prefijo_salida | by apply ext_salida]).
  fstep ltac:(apply conserva_get_locals).
  fstep ltac:(apply conserva_no_crea, no_crea_add_task).
  apply conserva_ret.
Qed.

Lemma comprimir_file_forma (file : UploadFile) :
  hoare (formado lib c0) (comprimir_file lib file) (fun s _ => formado lib c0 s)
        (formado lib c0).
Proof.
  unfold comprimir_file.
  fstep ltac:(apply conserva_lift_result).
  fdraw lib.
  fstep ltac:(apply conserva_guardar, forma_input, pdf_permitida).
  fstep ltac:(apply conserva_set_locals).
  fstep ltac:(apply conserva_no_crea, readonly_no_crea, readonly_getsize).
  fstep ltac:(apply conserva_set_locals).
  fstep ltac:(apply conserva_no_crea, readonly_no_crea, readonly_PdfReader).
  fstep ltac:(apply conserva_lift_result).
  fdraw lib.
  fstep ltac:(apply conserva_write_pdf, forma_output;
              [by apply prefijo_salida | by apply ext_salida]).
  fstep ltac:(apply conserva_no_crea, readonly_no_crea, readonly_getsize).
  fstep ltac:(apply conserva_set_locals).
  apply conserva_set_locals.
Qed.

Lemma comprimir_try_forma (files : list UploadFile) :
  hoare (formado lib c0) (comprimir_try lib files) (fun s _ => formado lib c0 s)
        (formado lib c0).
Proof.
  unfold comprimir_try.
  fstep ltac:(apply hoare_for_each, comprimir_file_forma).
  fstep ltac:(apply conserva_get_locals).
  eapply hoare_bind with (Q := fun s _ => formado lib c0 s).
  { destruct (_ =? _)%Z.
    - fstep ltac:(apply conserva_lift_result). apply conserva_ret.
    - fdraw lib.
      fstep ltac:(apply conserva_write_zip, forma_output;
                  [by apply prefijo_salida | by apply ext_salida]).
      fstep ltac:(apply conserva_set_locals).
      apply conserva_ret. }
  intros final. cbv beta zeta.
  fstep ltac:(apply conserva_get_locals).
  fstep ltac:(apply conserva_lift_result).
  fstep ltac:(apply conserva_no_crea, no_crea_add_task).
  apply conserva_ret.
Qed.

Lemma img2pdf_file_forma (file : UploadFile) :
  hoare (formado lib c0) (img2pdf_file lib file) (fun s _ => formado lib c0 s)
        (formado lib c0).
Proof.
  unfold img2pdf_file.
  eapply hoare_bind; [apply conserva_validar|].
  intros ext. apply hoare_pure_pre. intros Hext. cbv beta.
  fdraw lib.
  fstep ltac:(apply conserva_guardar, forma_input, imagen_permitida, Hext).
  apply conserva_set_locals.
Qed.

Lemma img2pdf_try_forma (files : list UploadFile) (n : nat) :
  hoare (formado lib c0)
        (img2pdf_try lib files
           (PyStr.join OUTPUT_DIR ("Album_" +:+ uuid4_hex lib n +:+ ".pdf")))
        (fun s _ => formado lib c0 s) (formado lib c0).
Proof.
  unfold img2pdf_try.
  fstep ltac:(apply hoare_for_each, img2pdf_file_forma).
  fstep ltac:(apply conserva_get_locals).
  fstep ltac:(apply conserva_no_crea, readonly_no_crea, readonly_read_files).
  fstep ltac:(apply conserva_lift_result).
  fstep ltac:(apply conserva_open_wb, forma_output;
              [by apply prefijo_salida | by apply ext_salida]).
  fstep ltac:(apply conserva_no_crea, no_crea_write).
  fstep ltac:(apply conserva_no_crea, no_crea_add_task).
  apply conserva_ret.
Qed.

Lemma extraer_try_forma (file : UploadFile) (inicio fin : Z) :
  hoare (formado lib c0) (extraer_try lib file inicio fin)
        (fun s _ => formado lib c0 s) (formado lib c0).
Proof.
  unfold extraer_try.
  fstep ltac:(apply conserva_lift_result).
  fdraw lib.
  fstep ltac:(apply conserva_guardar, forma_input, pdf_permitida).
  fstep ltac:(apply conserva_set_locals).
  fstep ltac:(apply conserva_no_crea, readonly_no_crea, readonly_PdfReader).
  fstep ltac:(apply conserva_guard).
  fstep ltac:(apply conserva_lift_result).
  fdraw lib.
  fstep ltac:(apply conserva_write_pdf, forma_output;
              [by apply prefijo_salida | by apply ext_salida]).
  fstep ltac:(apply conserva_get_locals).
  fstep ltac:(apply conserva_no_crea, no_crea_add_task).
  apply conserva_ret.
Qed.

Lemma rotar_try_forma (file : UploadFile) (grados : Z) :
  hoare (formado lib c0) (rotar_try lib file grados)
        (fun s _ => formado lib c0 s) (formado lib c0).
Proof.
  unfold rotar_try.
  fstep ltac:(apply conserva_lift_result).
  fstep ltac:(apply conserva_guard).
  fdraw lib.
  fstep ltac:(apply conserva_guardar, forma_input, pdf_permitida).
  fstep ltac:(apply conserva_set_locals).
  fstep ltac:(apply conserva_no_crea, readonly_no_crea, readonly_PdfReader).
  fstep ltac:(apply conserva_lift_result).
  fdraw lib.
  fstep ltac:(apply conserva_write_pdf, forma_output;
              [by apply prefijo_salida | by apply ext_salida]).
  fstep ltac:(apply conserva_get_locals).
  fstep ltac:(apply conserva_no_crea, no_crea_add_task).
  apply conserva_ret.
Qed.

End FormaRutas.

Lemma created_run_tasks (tasks : list (list string)) (w : World) :
  created (run_tasks tasks w) = created w.
Proof.
  revert w. induction tasks as [|paths tasks IH]; intros w; [done|].
  cbn [run_tasks]. rewrite IH.
  destruct (borrar_archivos_spec paths w) as (_ & _ & Hc & _). exact Hc.
Qed.

Lemma created_run_background_tasks (w : World) :
  created (run_background_tasks w) = created w.
Proof. unfold run_background_tasks. by rewrite created_run_tasks. Qed.

Section FormaPeticion.
Context {page : Type} (lib : Collaborators page).

Lemma try_except_forma {L : Type} (body : M (World * L) response)
    (ledger : L -> list string) (init : L) (w : World) :
  hoare (formado lib (created w)) body (fun s _ => formado lib (created w) s)
        (formado lib (created w)) ->
  forall rp, rp ∈ created (try_except body ledger init w).1 ->
             rp ∈ created w \/ forma lib rp.
Proof.
  intros Hbody. unfold try_except.
  assert (formado lib (created w) (w, init)) as Hinit by (intros rp Hin; by left).
  specialize (Hbody _ Hinit). destruct (body (w, init)) as [[w1 l] [r|e]]; cbn [fst snd].
  - exact Hbody.
  - destruct (borrar_archivos_spec (ledger l) w1) as (_ & _ & Hc & _).
    cbv zeta in Hc. rewrite Hc. exact Hbody.
Qed.

(** Whatever the request and however it ends, each path it has created
    has the form of its role. *)
Lemma serve_forma (req : request) (w : World) :
  forall rp, rp ∈ created (serve lib req w).1 -> rp ∈ created w \/ forma lib rp.
Proof.
  unfold serve. destruct (app lib req w) as [w' r] eqn:Happ. cbn [fst].
  rewrite created_run_background_tasks.
  change w' with (w', r).1. rewrite <- Happ. clear Happ.
  destruct req as [[|f fs']|[|f fs']|[|f fs']|f inicio fin|f grados]; unfold app;
    try (intros rp Hin; by left).
  - unfold api_unir, uuid4_draw.
    apply (try_except_forma _ _ _
             (mkWorld (fs w) (S (uuid_draws w)) (background_tasks w) (created w)
                      (borrados w))).
    apply unir_try_forma.
  - unfold api_comprimir. apply try_except_forma, comprimir_try_forma.
  - unfold api_img2pdf, uuid4_draw.
    apply (try_except_forma _ _ _
             (mkWorld (fs w) (S (uuid_draws w)) (background_tasks w) (created w)
                      (borrados w))).
    apply img2pdf_try_forma.
  - unfold api_extraer. apply try_except_forma, extraer_try_forma.
  - unfold api_rotar. apply try_except_forma, rotar_try_forma.
Qed.

End FormaPeticion.

(** ** The form of the paths, route by route *)

Lemma hoare_for_each_in {S A} (Inv : S -> Prop) (E : S -> Prop) (xs : list A)
    (body : A -> M S unit) :
  (forall x, x ∈ xs -> hoare Inv (body x) (fun s _ => Inv s) E) ->
  hoare Inv (for_each xs body) (fun s _ => Inv s) E.
Proof.
  induction xs as [|x xs IH]; intros Hbody; simpl.
  - apply (hoare_ret tt (fun s _ => Inv s)).
  - eapply hoare_bind; [apply Hbody, list_elem_of_here|]. intros u. apply IH.
    intros y Hy. apply Hbody. apply elem_of_cons. by right.
Qed.

Section FormaPor.
Context {page : Type} (lib : Collaborators page).
Context {L : Type} (F : role * string -> Prop) (c0 : list (role * string)).

Lemma fp_snoc (w w' : World) (l l' : L) (rp : role * string) :
  created w' = created w ++ [rp] -> F rp ->
  formado_por F c0 (w, l) -> formado_por F c0 (w', l').
Proof.
  intros Hc Hrp Hf rp' Hin. simpl in *. rewrite Hc in Hin.
  apply elem_of_app in Hin as [Hin|Hin]; [by apply Hf|].
  apply list_elem_of_singleton in Hin as ->. by right.
Qed.

Lemma fp_same (w w' : World) (l l' : L) :
  created w' = created w -> formado_por F c0 (w, l) -> formado_por F c0 (w', l').
Proof. intros Hc Hf rp Hin. simpl in *. rewrite Hc in Hin. by apply Hf. Qed.

Lemma fp_no_crea {A} (m : M World A) :
  no_crea m ->
  hoare (formado_por (L := L) F c0) (in_world m)
    (fun s _ => formado_por F c0 s)
    (formado_por (L := L) F c0).
Proof.
  intros Hm. apply hoare_in_world. intros w l Hf. specialize (Hm w).
  destruct (m w) as [w' [a|e]]; simpl in Hm; by apply (fp_same w _ l l).
Qed.

Lemma fp_lift_result {A} (r : result A) :
  hoare (formado_por (L := L) F c0) (lift_result r)
    (fun s a => formado_por F c0 s /\ r = Ok a)
    (formado_por (L := L) F c0).
Proof. intros s Hf. unfold lift_result. by destruct r. Qed.

Lemma fp_set_locals (f : L -> L) :
  hoare (formado_por (L := L) F c0) (set_locals f)
    (fun s _ => formado_por F c0 s)
    (formado_por (L := L) F c0).
Proof. by intros [w l] Hf. Qed.

Lemma fp_get_locals :
  hoare (formado_por (L := L) F c0) get_locals
    (fun s _ => formado_por F c0 s)
    (formado_por (L := L) F c0).
Proof. by intros s H. Qed.

Lemma fp_ret {A : Type} (a : A) :
  hoare (formado_por (L := L) F c0) (ret a)
    (fun s _ => formado_por F c0 s)
    (formado_por (L := L) F c0).
Proof. by intros s H. Qed.

Lemma fp_guard (b : bool) (e : exception) :
  hoare (formado_por (L := L) F c0) (if b then raise e else ret tt)
    (fun s _ => formado_por F c0 s)
    (formado_por (L := L) F c0).
Proof. destruct b; by intros s H. Qed.

Lemma fp_uuid4 :
  hoare (formado_por (L := L) F c0) (in_world (uuid4 lib))
    (fun s hex => formado_por F c0 s /\ exists n, hex = uuid4_hex lib n)
    (formado_por (L := L) F c0).
Proof. apply hoare_in_world. intros w l Hf. split; [done|]. by eexists. Qed.

Lemma fp_guardar (upload_file : UploadFile) (path : string) :
  F (input, path) ->
  hoare (formado_por (L := L) F c0)
    (in_world (guardar_con_limite upload_file path MAX_MB_PER_FILE))
    (fun s _ => formado_por F c0 s)
    (formado_por (L := L) F c0).
Proof.
  intros Hrp. apply hoare_in_world. intros w l Hf.
  rewrite guardar_con_limite_eq by done.
  destruct (_ >? _)%Z; by apply (fp_snoc w _ l l (input, path)).
Qed.

Lemma fp_open_wb (path : string) :
  F (output, path) ->
  hoare (formado_por (L := L) F c0) (in_world (open_wb output path))
    (fun s _ => formado_por F c0 s)
    (formado_por (L := L) F c0).
Proof.
  intros Hrp. apply hoare_in_world. intros w l Hf.
  by apply (fp_snoc w _ l l (output, path)).
Qed.

Lemma fp_write_pdf (path : string) (pages : list page) :
  F (output, path) ->
  hoare (formado_por (L := L) F c0) (in_world (write_pdf lib path pages))
    (fun s _ => formado_por F c0 s)
    (formado_por (L := L) F c0).
Proof.
  intros Hrp. apply hoare_in_world. intros w l Hf.
  unfold write_pdf, bind, open_wb.
  destruct (PdfWriter_write lib pages) as [data [e|]]; simpl;
    by apply (fp_snoc w _ l l (output, path)).
Qed.

Lemma fp_write_zip (final_path : string) (paths : list string) :
  F (output, final_path) ->
  hoare (formado_por (L := L) F c0) (in_world (write_zip lib final_path paths))
    (fun s _ => formado_por F c0 s)
    (formado_por (L := L) F c0).
Proof.
  intros Hrp. apply hoare_in_world. intros w l Hf.
  unfold write_zip, bind, open_wb.
  match goal with |- context [read_entries paths ?w1] =>
    pose proof (readonly_read_entries paths w1) as Hro;
    destruct (read_entries paths w1) as [w2 [entries|e]]
  end; simpl in Hro; subst w2.
  - destruct (ZipFile_write lib entries) as [data [e|]]; simpl;
      by apply (fp_snoc w _ l l (output, final_path)).
  - by apply (fp_snoc w _ l l (output, final_path)).
Qed.

End FormaPor.

(** One step under [formado_por]; [pstep_val] keeps what the step returns. *)
Ltac pstep rule :=
  eapply hoare_bind;
  [eapply hoare_conseq; [rule | intros ? Hp; exact Hp | intros ? ? Hp; exact (proj1 Hp)
                        | intros ? Hp; exact Hp]
  | intros ?; cbv beta zeta].

Ltac pstep0 rule := eapply hoare_bind; [rule | intros ?; cbv beta zeta].

Ltac pdraw lib := eapply hoare_bind; [apply (fp_uuid4 lib) |];
                  intros ?; apply hoare_pure_pre; intros [? ->]; cbv beta zeta.

Section FormaPeticionRutas.
Context {page : Type} (lib : Collaborators page).
Context (c0 : list (role * string)).

Lemma unir_file_forma_p (files : list UploadFile) (file : UploadFile) :
  hoare (formado_por (forma_peticion lib (PostUnir files)) c0) (unir_file lib file)
        (fun s _ => formado_por (forma_peticion lib (PostUnir files)) c0 s)
        (formado_por (forma_peticion lib (PostUnir files)) c0).
Proof.
  unfold unir_file.
  pstep ltac:(apply fp_lift_result).
  pdraw lib.
  pstep0 ltac:(apply fp_guardar; by eexists).
  pstep0 ltac:(apply fp_set_locals).
  pstep0 ltac:(apply fp_no_crea, readonly_no_crea, readonly_PdfReader).
  apply fp_set_locals.
Qed.

Lemma unir_try_forma_p (files files' : list UploadFile) (n : nat) :
  hoare (formado_por (forma_peticion lib (PostUnir files')) c0)
        (unir_try lib files
           (PyStr.join OUTPUT_DIR ("Unido_" +:+ uuid4_hex lib n +:+ ".pdf")))
        (fun s _ => formado_por (forma_peticion lib (PostUnir files')) c0 s)
        (formado_por (forma_peticion lib (PostUnir files')) c0).
Proof.
  unfold unir_try.
  pstep0 ltac:(apply hoare_for_each, unir_file_forma_p).
  pstep0 ltac:(apply fp_get_locals).
  pstep0 ltac:(apply fp_write_pdf; by eexists).
  pstep0 ltac:(apply fp_get_locals).
  pstep0 ltac:(apply fp_no_crea, no_crea_add_task).
  apply fp_ret.
Qed.

Lemma comprimir_file_forma_p (files : list UploadFile) (file : UploadFile) :
  hoare (formado_por (forma_peticion lib (PostComprimir files)) c0)
        (comprimir_file lib file)
        (fun s _ => formado_por (forma_peticion lib (PostComprimir files)) c0 s)
        (formado_por (forma_peticion lib (PostComprimir files)) c0).
Proof.
  unfold comprimir_file.
  pstep ltac:(apply fp_lift_result).
  pdraw lib.
  pstep0 ltac:(apply fp_guardar; by eexists).
  pstep0 ltac:(apply fp_set_locals).
  pstep0 ltac:(apply fp_no_crea, readonly_no_crea, readonly_getsize).
  pstep0 ltac:(apply fp_set_locals).
  pstep0 ltac:(apply fp_no_crea, readonly_no_crea, readonly_PdfReader).
  pstep ltac:(apply fp_lift_result).
  pdraw lib.
  pstep0 ltac:(apply fp_write_pdf; left; by eexists).
  pstep0 ltac:(apply fp_no_crea, readonly_no_crea, readonly_getsize).
  pstep0 ltac:(apply fp_set_locals).
  apply fp_set_locals.
Qed.

Lemma comprimir_try_forma_p (files files' : list UploadFile) :
  hoare (formado_por (forma_peticion lib (PostComprimir files')) c0)
        (comprimir_try lib files)
        (fun s _ => formado_por (forma_peticion lib (PostComprimir files')) c0 s)
        (formado_por (forma_peticion lib (PostComprimir files')) c0).
Proof.
  unfold comprimir_try.
  pstep0 ltac:(apply hoare_for_each, comprimir_file_forma_p).
  pstep0 ltac:(apply fp_get_locals).
  eapply hoare_bind
    with (Q := fun s _ => formado_por (forma_peticion lib (PostComprimir files')) c0 s).
  { destruct (_ =? _)%Z.
    - pstep ltac:(apply fp_lift_result). apply fp_ret.
    - pdraw lib.
      pstep0 ltac:(apply fp_write_zip; right; by eexists).
      pstep0 ltac:(apply fp_set_locals).
      apply fp_ret. }
  intros final. cbv beta zeta.
  pstep0 ltac:(apply fp_get_locals).
  pstep ltac:(apply fp_lift_result).
  pstep0 ltac:(apply fp_no_crea, no_crea_add_task).
  apply fp_ret.
Qed.

Lemma img2pdf_file_forma_p (files : list UploadFile) (file : UploadFile) :
  file ∈ files ->
  hoare (formado_por (forma_peticion lib (PostImg2pdf files)) c0)
        (img2pdf_file lib file)
        (fun s _ => formado_por (forma_peticion lib (PostImg2pdf files)) c0 s)
        (formado_por (forma_peticion lib (PostImg2pdf files)) c0).
Proof.
  intros Hin. unfold img2pdf_file.
  eapply hoare_bind; [apply fp_lift_result|].
  intros ext. apply hoare_pure_pre. intros Hext. cbv beta.
  pdraw lib.
  pstep0 ltac:(apply fp_guardar; by eexists _, file, ext).
  apply fp_set_locals.
Qed.

Lemma img2pdf_try_forma_p (files : list UploadFile) (n : nat) :
  hoare (formado_por (forma_peticion lib (PostImg2pdf files)) c0)
        (img2pdf_try lib files
           (PyStr.join OUTPUT_DIR ("Album_" +:+ uuid4_hex lib n +:+ ".pdf")))
        (fun s _ => formado_por (forma_peticion lib (PostImg2pdf files)) c0 s)
        (formado_por (forma_peticion lib (PostImg2pdf files)) c0).
Proof.
  unfold img2pdf_try.
  pstep0 ltac:(apply hoare_for_each_in; intros x Hx; by apply img2pdf_file_forma_p).
  pstep0 ltac:(apply fp_get_locals).
  pstep0 ltac:(apply fp_no_crea, readonly_no_crea, readonly_read_files).
  pstep ltac:(apply fp_lift_result).
  pstep0 ltac:(apply fp_open_wb; by eexists).
  pstep0 ltac:(apply fp_no_crea, no_crea_write).
  pstep0 ltac:(apply fp_no_crea, no_crea_add_task).
  apply fp_ret.
Qed.

Lemma extraer_try_forma_p (file : UploadFile) (inicio fin : Z) :
  hoare (formado_por (forma_peticion lib (PostExtraer file inicio fin)) c0)
        (extraer_try lib file inicio fin)
        (fun s _ => formado_por (forma_peticion lib (PostExtraer file inicio fin)) c0 s)
        (formado_por (forma_peticion lib (PostExtraer file inicio fin)) c0).
Proof.
  unfold extraer_try.
  pstep ltac:(apply fp_lift_result).
  pdraw lib.
  pstep0 ltac:(apply fp_guardar; by eexists).
  pstep0 ltac:(apply fp_set_locals).
  pstep0 ltac:(apply fp_no_crea, readonly_no_crea, readonly_PdfReader).
  pstep0 ltac:(apply fp_guard).
  pstep ltac:(apply fp_lift_result).
  pdraw lib.
  pstep0 ltac:(apply fp_write_pdf; by eexists).
  pstep0 ltac:(apply fp_get_locals).
  pstep0 ltac:(apply fp_no_crea, no_crea_add_task).
  apply fp_ret.
Qed.

Lemma rotar_try_forma_p (file : UploadFile) (grados : Z) :
  hoare (formado_por (forma_peticion lib (PostRotar file grados)) c0)
        (rotar_try lib file grados)
        (fun s _ => formado_por (forma_peticion lib (PostRotar file grados)) c0 s)
        (formado_por (forma_peticion lib (PostRotar file grados)) c0).
Proof.
  unfold rotar_try.
  pstep ltac:(apply fp_lift_result).
  pstep0 ltac:(apply fp_guard).
  pdraw lib.
  pstep0 ltac:(apply fp_guardar; by eexists).
  pstep0 ltac:(apply fp_set_locals).
  pstep0 ltac:(apply fp_no_crea, readonly_no_crea, readonly_PdfReader).
  pstep ltac:(apply fp_lift_result).
  pdraw lib.
  pstep0 ltac:(apply fp_write_pdf; by eexists).
  pstep0 ltac:(apply fp_get_locals).
  pstep0 ltac:(apply fp_no_crea, no_crea_add_task).
  apply fp_ret.
Qed.

End FormaPeticionRutas.

Section FormaDeLaPeticion.
Context {page : Type} (lib : Collaborators page).

Lemma try_except_forma_p {L : Type} (F : role * string -> Prop)
    (body : M (World * L) response) (ledger : L -> list string) (init : L) (w : World) :
  hoare (formado_por F (created w)) body (fun s _ => formado_por F (created w) s)
        (formado_por F (created w)) ->
  forall rp, rp ∈ created (try_except body ledger init w).1 -> rp ∈ created w \/ F rp.
Proof.
  intros Hbody. unfold try_except.
  assert (formado_por F (created w) (w, init)) as Hinit by (intros rp Hin; by left).
  specialize (Hbody _ Hinit). destruct (body (w, init)) as [[w1 l] [r|e]]; cbn [fst snd].
  - exact Hbody.
  - destruct (borrar_archivos_spec (ledger l) w1) as (_ & _ & Hc & _).
    cbv zeta in Hc. rewrite Hc. exact Hbody.
Qed.

(** Whatever the request and however it ends, each path it has created
    has the form that its route gives to a path of that role. *)
Lemma serve_forma_peticion (req : request) (w : World) :
  forall rp, rp ∈ created (serve lib req w).1 ->
             rp ∈ created w \/ forma_peticion lib req rp.
Proof.
  unfold serve. destruct (app lib req w) as [w' r] eqn:Happ. cbn [fst].
  rewrite created_run_background_tasks.
  change w' with (w', r).1. rewrite <- Happ. clear Happ.
  destruct req as [[|f fs']|[|f fs']|[|f fs']|f inicio fin|f grados]; unfold app;
    try (intros rp Hin; by left).
  - unfold api_unir, uuid4_draw.
    apply (try_except_forma_p _ _ _ _
             (mkWorld (fs w) (S (uuid_draws w)) (background_tasks w) (created w)
                      (borrados w))).
    apply unir_try_forma_p.
  - unfold api_comprimir. apply try_except_forma_p, comprimir_try_forma_p.
  - unfold api_img2pdf, uuid4_draw.
    apply (try_except_forma_p _ _ _ _
             (mkWorld (fs w) (S (uuid_draws w)) (background_tasks w) (created w)
                      (borrados w))).
    apply img2pdf_try_forma_p.
  - unfold api_extraer. apply try_except_forma_p, extraer_try_forma_p.
  - unfold api_rotar. apply try_except_forma_p, rotar_try_forma_p.
Qed.

End FormaDeLaPeticion.

(** ** Paths and declared filenames *)




(** At the documents: an upload of the merge route that declares
    ["../../etc/x.PDF"] is stored as an identifier and [".pdf"], whatever
    the identifiers are. *)
Example unir_guarda_pdf {page : Type} (lib : Collaborators page) (w : World)
    (data : list Byte.byte) (p : string) :
  created w = [] ->
  (input, p) ∈ created (serve lib (PostUnir [mkUploadFile "../../etc/x.PDF" data]) w).1 ->
  exists n, p = PyStr.join UPLOAD_DIR (uuid4_hex lib n +:+ ".pdf").
Proof.
  intros Hw Hin. apply serve_forma_peticion in Hin as [Hin|Hin].
  - rewrite Hw in Hin. by apply elem_of_nil in Hin.
  - exact Hin.
Qed.

(* ===================================================================== *)
(** * Page ranges                                                         *)
(* ===================================================================== *)

Lemma py_index_ok {A} (xs : list A) (n : nat) (x : A) :
  xs !! n = Some x -> py_index xs (Z.of_nat n) = Ok x.
Proof.
  intros H. unfold py_index.
  destruct (Z.of_nat n <? 0)%Z eqn:E; [apply Z.ltb_lt in E; lia|].
  rewrite E. by rewrite Nat2Z.id, H.
Qed.

(** [[xs[i] for i in range(start, start + n)]] inside the bounds of [xs]. *)
Lemma map_result_py_index {A} (xs : list A) (n start : nat) :
  start + n <= length xs ->
  map_result (py_index xs) (seqZ (Z.of_nat start) (Z.of_nat n)) =
  Ok (take n (drop start xs)).
Proof.
  revert start. induction n as [|n IH]; intros start Hlen; [done|].
  rewrite seqZ_cons by lia. simpl.
  destruct (lookup_lt_is_Some_2 xs start) as [x Hx]; [lia|].
  rewrite (py_index_ok _ _ _ Hx).
  replace (Z.succ (Z.of_nat start)) with (Z.of_nat (S start)) by lia.
  replace (Z.pred (Z.of_nat (S n))) with (Z.of_nat n) by lia.
  rewrite IH by lia. by rewrite (drop_S _ _ _ Hx).
Qed.

Lemma rango_paginas {A} (pages : list A) (inicio fin : Z) :
  (1 <= inicio)%Z -> (inicio <= fin)%Z -> (fin <= Z.of_nat (length pages))%Z ->
  map_result (py_index pages) (range (inicio - 1) fin) =
  Ok (take (Z.to_nat (fin - inicio + 1)) (drop (Z.to_nat (inicio - 1)) pages)).
Proof.
  intros H1 H2 H3. unfold range.
  replace (inicio - 1)%Z with (Z.of_nat (Z.to_nat (inicio - 1))) at 1 by lia.
  replace (fin - (inicio - 1))%Z with (Z.of_nat (Z.to_nat (fin - inicio + 1))) by lia.
  apply map_result_py_index. lia.
Qed.

Arguments guardar_con_limite : simpl never.
Arguments PyStr.join : simpl never.

Section Extraer.
Context {page : Type} (lib : Collaborators page).

(** The [try] block of the extract route on an upload that is accepted,
    fits and parses, up to the check of the range. *)
Lemma extraer_try_ingesta (upload : UploadFile) (inicio fin : Z) (w : World)
    (ext : string) (pages : list page) :
  validar_extension (filename upload) {[ ".pdf" ]} = Ok ext ->
  (Z.of_nat (length (file upload)) <= MAX_MB_PER_FILE * 1024 * 1024)%Z ->
  PdfReader_pages lib (file upload) = Ok pages ->
  let total_pages := Z.of_nat (length pages) in
  let input_path := PyStr.join UPLOAD_DIR (uuid4_hex lib (uuid_draws w) +:+ ".pdf") in
  let w1 := mkWorld (<[input_path := file upload]> (fs w)) (S (uuid_draws w))
                    (background_tasks w) (created w ++ [(input, input_path)])
                    (borrados w) in
  extraer_try lib upload inicio fin (w, []) =
  ((if (inicio <? 1)%Z || (fin >? total_pages)%Z || (inicio >? fin)%Z
    then raise (rango_invalido total_pages)
    else ret tt) ;;
   writer_pages <- lift_result (map_result (py_index pages) (range (inicio - 1) fin)) ;;
   hex <- in_world (uuid4 lib) ;;
   let output_filename := "Extraido_" +:+ hex +:+ ".pdf" in
   let output_path := PyStr.join OUTPUT_DIR output_filename in
   in_world (write_pdf lib output_path writer_pages) ;;
   temp_paths <- get_locals ;;
   in_world (add_task (temp_paths ++ [output_path])) ;;
   ret (FileResponse output_path "PDFlex_Extraido.pdf" [])) (w1, [input_path]).
Proof.
  intros Hval Hfit Hread. cbv zeta.
  unfold extraer_try at 1.
  unfold bind at 1. unfold lift_result at 1. rewrite Hval.
  unfold bind at 1. unfold in_world at 1, uuid4 at 1, uuid4_draw. cbn [fst snd].
  unfold bind at 1. unfold in_world at 1. cbn [fst snd].
  rewrite guardar_con_limite_eq by done.
  cbn [fst snd fs uuid_draws background_tasks created borrados].
  destruct (_ >? _)%Z eqn:E; [apply Z.gtb_gt in E; lia|]. clear E.
  unfold bind at 1. unfold set_locals at 1. cbn [fst snd app].
  unfold bind at 1. unfold in_world at 1, PdfReader, bind at 1, read_file.
  cbn [fst snd fs uuid_draws background_tasks created borrados].
  rewrite lookup_insert_eq. unfold lift_result at 1. rewrite Hread.
  reflexivity.
Qed.

(** C7.  On an upload that is accepted, fits the limit and parses into
    [total_pages] pages: the extract route fails with the invalid-range
    error exactly when [inicio < 1 or fin > total_pages or inicio > fin],
    and then no output is created; otherwise it hands the writer the pages
    [inicio] to [fin] of the document, [fin - inicio + 1] of them in
    order, and when the writer serialises them the response is the output
    file, which holds that serialisation. *)
Theorem api_extraer_rango (upload : UploadFile) (inicio fin : Z) (w : World)
    (ext : string) (pages : list page) :
  validar_extension (filename upload) {[ ".pdf" ]} = Ok ext ->
  (Z.of_nat (length (file upload)) <= MAX_MB_PER_FILE * 1024 * 1024)%Z ->
  PdfReader_pages lib (file upload) = Ok pages ->
  let total_pages := Z.of_nat (length pages) in
  let input_path := PyStr.join UPLOAD_DIR (uuid4_hex lib (uuid_draws w) +:+ ".pdf") in
  let output_path :=
    PyStr.join OUTPUT_DIR ("Extraido_" +:+ uuid4_hex lib (S (uuid_draws w)) +:+ ".pdf") in
  let selected :=
    take (Z.to_nat (fin - inicio + 1)) (drop (Z.to_nat (inicio - 1)) pages) in
  let out := api_extraer lib upload inicio fin w in
  if (inicio <? 1)%Z || (fin >? total_pages)%Z || (inicio >? fin)%Z
  then
    out.2 = JSONResponse 500 (str (rango_invalido total_pages)) /\
    created out.1 = created w ++ [(input, input_path)]
  else
    Z.of_nat (length selected) = (fin - inicio + 1)%Z /\
    (forall k : nat, k < length selected ->
       selected !! k = pages !! (Z.to_nat (inicio - 1) + k)) /\
    match PdfWriter_write lib selected with
    | (data, None) =>
        out.2 = FileResponse output_path "PDFlex_Extraido.pdf" [] /\
        fs out.1 !! output_path = Some data
    | (data, Some e) => out.2 = JSONResponse 500 (str e)
    end.
Proof.
  intros Hval Hfit Hread. cbv zeta.
  set (input_path := PyStr.join UPLOAD_DIR (uuid4_hex lib (uuid_draws w) +:+ ".pdf")).
  set (output_path :=
         PyStr.join OUTPUT_DIR ("Extraido_" +:+ uuid4_hex lib (S (uuid_draws w)) +:+ ".pdf")).
  set (selected := take (Z.to_nat (fin - inicio + 1)) (drop (Z.to_nat (inicio - 1)) pages)).
  set (w1 := mkWorld (<[input_path := file upload]> (fs w)) (S (uuid_draws w))
                     (background_tasks w) (created w ++ [(input, input_path)])
                     (borrados w)).
  pose proof (extraer_try_ingesta upload inicio fin w ext pages Hval Hfit Hread) as Htry.
  cbv zeta in Htry. fold input_path in Htry. fold w1 in Htry.
  destruct ((inicio <? 1)%Z || (fin >? Z.of_nat (length pages))%Z || (inicio >? fin)%Z)
    eqn:Hrango.
  - assert (api_extraer lib upload inicio fin w =
            ((borrar_archivos [input_path] w1).1,
             JSONResponse 500 (str (rango_invalido (Z.of_nat (length pages)))))) as ->.
    { unfold api_extraer, try_except. rewrite Htry. reflexivity. }
    cbn [fst snd]. split; [done|].
    by destruct (borrar_archivos_spec [input_path] w1) as (_ & _ & -> & _).
  - apply orb_false_iff in Hrango as [[H1 H2]%orb_false_iff H3].
    apply Z.ltb_ge in H1. apply Zgtb_false_le in H2. apply Zgtb_false_le in H3.
    split; [unfold selected; rewrite length_take, length_drop; lia|].
    split.
    { intros k Hk. unfold selected in *.
      rewrite lookup_take_lt by (rewrite length_take in Hk; lia).
      by rewrite lookup_drop. }
    assert (extraer_try lib upload inicio fin (w, []) =
            (in_world (write_pdf lib output_path selected) ;;
             temp_paths <- get_locals ;;
             in_world (add_task (temp_paths ++ [output_path])) ;;
             ret (FileResponse output_path "PDFlex_Extraido.pdf" []))
              (mkWorld (fs w1) (S (S (uuid_draws w))) (background_tasks w1)
                       (created w1) (borrados w1), [input_path])) as Hrest.
    { rewrite Htry. unfold bind at 1, ret. unfold bind at 1. unfold lift_result at 1.
      rewrite rango_paginas by done. reflexivity. }
    unfold api_extraer, try_except. rewrite Hrest. clear Hrest Htry.
    unfold bind at 1. unfold in_world at 1, write_pdf, bind at 1, open_wb.
    cbn [fst snd fs uuid_draws background_tasks created borrados].
    destruct (PdfWriter_write lib selected) as [data [e|]].
    + reflexivity.
    + unfold bind at 1, write, ret. cbn [fst snd].
      split; [reflexivity|].
      unfold bind, get_locals, in_world, add_task, with_fs.
      cbn [fst snd fs]. rewrite alter_insert_eq. apply lookup_insert_eq.
Qed.

End Extraer.

Lemma api_extraer_rango_witness :
  (api_extraer lib_demo cinco_paginas 3 2 (fresh ∅ 0)).2 =
    JSONResponse 500 "400: Rango inválido. El PDF tiene 5 páginas." /\
  (api_extraer lib_demo cinco_paginas 6 6 (fresh ∅ 0)).2 =
    JSONResponse 500 "400: Rango inválido. El PDF tiene 5 páginas." /\
  (api_extraer lib_demo cinco_paginas 1 5 (fresh ∅ 0)).2 =
    FileResponse "temp_outputs/Extraido_1.pdf" "PDFlex_Extraido.pdf" [] /\
  fs (api_extraer lib_demo cinco_paginas 1 5 (fresh ∅ 0)).1 !! "temp_outputs/Extraido_1.pdf" =
    Some [Byte.x31; Byte.x32; Byte.x33; Byte.x34; Byte.x35].
Proof.
  assert (Z.of_nat (length (file cinco_paginas)) <= MAX_MB_PER_FILE * 1024 * 1024)%Z
    as Hfit by (unfold MAX_MB_PER_FILE; simpl; lia).
  pose proof (api_extraer_rango lib_demo cinco_paginas 3 2 (fresh ∅ 0) ".pdf"
                (file cinco_paginas) eq_refl Hfit eq_refl) as H32.
  pose proof (api_extraer_rango lib_demo cinco_paginas 6 6 (fresh ∅ 0) ".pdf"
                (file cinco_paginas) eq_refl Hfit eq_refl) as H66.
  pose proof (api_extraer_rango lib_demo cinco_paginas 1 5 (fresh ∅ 0) ".pdf"
                (file cinco_paginas) eq_refl Hfit eq_refl) as H15.
  cbv zeta in H32, H66, H15.
  split; [exact (proj1 H32)|]. split; [exact (proj1 H66)|].
  exact (proj2 (proj2 H15)).
Defined.

(* ===================================================================== *)
(** * The savings percentage                                              *)
(* ===================================================================== *)

(** C8 as stated fails, twice over.  [int] truncates toward zero, it is
    not the floor: a document of 1000 bytes that grows to 1001 reports 0,
    not -1.  And the quotient and the product are rounded to binary64:
    7100 bytes out of 10000 is [0.29 * 100 = 28.999999999999996], which
    reports 28, not 29. *)
Lemma porcentaje_contraejemplo :
  porcentaje 1000 1001 <> Ok (porcentaje_segun_spec 1000 1001) /\
  porcentaje 10000 7100 <> Ok (porcentaje_segun_spec 10000 7100).
Proof. split; vm_compute; discriminate. Qed.

Example porcentaje_crece : porcentaje 1000 1001 = Ok 0%Z.
Proof. by vm_compute. Qed.
Example porcentaje_spec_crece : porcentaje_segun_spec 1000 1001 = (-1)%Z.
Proof. by vm_compute. Qed.
Example porcentaje_29 : porcentaje 10000 7100 = Ok 28%Z.
Proof. by vm_compute. Qed.
Example porcentaje_spec_29 : porcentaje_segun_spec 10000 7100 = 29%Z.
Proof. by vm_compute. Qed.

Module PyFloatFacts.
Import PyFloat.
Local Open Scope Z_scope.

(** The number of binary digits. *)
Lemma digits2_pos_bounds (p : positive) :
  2 ^ (Zpos (digits2_pos p) - 1) <= Zpos p < 2 ^ Zpos (digits2_pos p).
Proof.
  induction p as [p IH|p IH|]; simpl digits2_pos.
  - rewrite Pos2Z.inj_succ.
    replace (Z.succ (Zpos (digits2_pos p)) - 1) with (Z.succ (Zpos (digits2_pos p) - 1)) by lia.
    rewrite !Z.pow_succ_r by lia. lia.
  - rewrite Pos2Z.inj_succ.
    replace (Z.succ (Zpos (digits2_pos p)) - 1) with (Z.succ (Zpos (digits2_pos p) - 1)) by lia.
    rewrite !Z.pow_succ_r by lia. lia.
  - simpl. lia.
Qed.

Lemma Zdigits2_unique (m d : Z) :
  0 < m -> 2 ^ (d - 1) <= m < 2 ^ d -> Zdigits2 m = d.
Proof.
  intros Hm [Hlo Hhi]. destruct m as [|p|p]; try lia. simpl.
  pose proof (digits2_pos_bounds p) as [Hlo' Hhi'].
  assert (0 <= d).
  { destruct (Z.le_gt_cases 0 d) as [|Hneg]; [assumption|].
    rewrite Z.pow_neg_r in Hhi by lia. lia. }
  assert (Zpos (digits2_pos p) - 1 < d).
  { apply (Z.pow_lt_mono_r_iff 2); lia. }
  assert (d - 1 < Zpos (digits2_pos p)).
  { apply (Z.pow_lt_mono_r_iff 2); lia. }
  lia.
Qed.

(** Shifting right drops the low bits. *)
Lemma shr_1_m (r : shr_record) :
  0 <= shr_m r -> shr_m (shr_1 r) = shr_m r / 2.
Proof.
  destruct r as [m r s]. simpl. intros Hm.
  destruct m as [|[p|p|]|p]; simpl; try lia.
  - reflexivity.
  - apply (Z.div_unique_pos _ _ _ 1); [lia|]. rewrite Pos2Z.inj_xI. lia.
  - apply (Z.div_unique_pos _ _ _ 0); [lia|]. rewrite Pos2Z.inj_xO. lia.
  - reflexivity.
Qed.

Lemma pow2_xI (n : positive) : 2 ^ Zpos n~1 = 2 * (2 ^ Zpos n * 2 ^ Zpos n).
Proof.
  change (Zpos n~1) with (2 * Zpos n + 1). rewrite Z.pow_add_r, Z.pow_twice_r by lia. change (2 ^ 1) with 2. ring.
Qed.

Lemma pow2_xO (n : positive) : 2 ^ Zpos n~0 = 2 ^ Zpos n * 2 ^ Zpos n.
Proof. change (Zpos n~0) with (2 * Zpos n). by rewrite Z.pow_twice_r. Qed.

Lemma iter_shr_1_m (n : positive) (r : shr_record) :
  0 <= shr_m r -> shr_m (SpecFloat.iter_pos shr_1 n r) = shr_m r / 2 ^ Zpos n.
Proof.
  revert r. induction n as [n IH|n IH|]; intros r Hr; simpl SpecFloat.iter_pos.
  - assert (0 < 2 ^ Zpos n) as Hpos by (apply Z.pow_pos_nonneg; lia).
    assert (0 <= shr_m (shr_1 r)) as H1.
    { rewrite shr_1_m by done. apply Z.div_pos; lia. }
    assert (0 <= shr_m (SpecFloat.iter_pos shr_1 n (shr_1 r))) as H2.
    { rewrite IH by done. apply Z.div_pos; [done|]. lia. }
    rewrite IH, IH, shr_1_m by done.
    rewrite !Z.div_div by lia. by rewrite pow2_xI.
  - assert (0 < 2 ^ Zpos n) as Hpos by (apply Z.pow_pos_nonneg; lia).
    assert (0 <= shr_m (SpecFloat.iter_pos shr_1 n r)) as H2.
    { rewrite IH by done. apply Z.div_pos; [done|]. lia. }
    rewrite IH, IH by done.
    rewrite !Z.div_div by lia. by rewrite pow2_xO.
  - rewrite shr_1_m by done. reflexivity.
Qed.

Lemma shr_m_shr (r : shr_record) (e n : Z) :
  0 <= shr_m r -> 0 <= n ->
  shr_m (fst (shr r e n)) = shr_m r / 2 ^ n /\ snd (shr r e n) = e + n.
Proof.
  intros Hr Hn. destruct n as [|p|p]; try lia; simpl.
  - rewrite Z.div_1_r. lia.
  - split; [|reflexivity]. apply iter_shr_1_m; assumption.
Qed.

Lemma shr_m_of_loc (m : Z) (l : location) : shr_m (shr_record_of_loc m l) = m.
Proof. destruct l as [|[]]; reflexivity. Qed.

Lemma round_nearest_even_cases (m : Z) (l : location) :
  round_nearest_even m l = m \/ round_nearest_even m l = m + 1.
Proof. destruct l as [|[]]; simpl; try tauto. destruct (Z.even m); tauto. Qed.

(** Rounding a mantissa of at least 53 digits in the normal range: the
    result is the mantissa shifted to 53 digits, or that plus one. *)
Lemma binary_round_aux_normal (s : bool) (m : positive) (e n : Z) (l : location) :
  Zdigits2 (Zpos m) = 53 + n -> 0 <= n -> -1074 <= e + n -> e + n + 1 <= 971 ->
  exists m' e',
    binary_round_aux prec emax s (Zpos m) e l = S754_finite s m' e' /\
    2 ^ 52 <= Zpos m' < 2 ^ 53 /\
    e + n <= e' <= e + n + 1 /\
    Zpos m / 2 ^ n <= Zpos m' * 2 ^ (e' - (e + n)) <= Zpos m / 2 ^ n + 1.
Proof.
  intros Hd Hn Hlo Hhi.
  unfold binary_round_aux, shr_fexp. rewrite Hd.
  assert (fexp prec emax (53 + n + e) - e = n) as ->
    by (unfold fexp, emin, prec, emax; lia).
  destruct (shr_m_shr (shr_record_of_loc (Zpos m) l) e n) as [Hm He];
    [rewrite shr_m_of_loc; lia|lia|].
  destruct (shr (shr_record_of_loc (Zpos m) l) e n) as [mrs e0].
  simpl in Hm, He. subst e0. rewrite shr_m_of_loc in Hm.
  assert (2 ^ 52 <= Zpos m / 2 ^ n < 2 ^ 53) as Hm0.
  { pose proof (digits2_pos_bounds m) as Hb. change (Zdigits2 (Zpos m)) with (Zpos (digits2_pos m)) in Hd. rewrite Hd in Hb.
    assert (0 < 2 ^ n) by (apply Z.pow_pos_nonneg; lia).
    replace (53 + n - 1) with (52 + n) in Hb by lia.
    rewrite !Z.pow_add_r in Hb by lia. split.
    - apply Z.div_le_lower_bound; lia.
    - apply Z.div_lt_upper_bound; lia. }
  pose proof (round_nearest_even_cases (shr_m mrs) (loc_of_shr_record mrs)) as Hr.
  set (m1 := round_nearest_even (shr_m mrs) (loc_of_shr_record mrs)) in *.
  rewrite Hm in Hr. clearbody m1. clear Hm mrs.
  destruct (Z.eq_dec m1 (2 ^ 53)) as [->|Hne].
  - change (Zdigits2 (2 ^ 53)) with 54.
    assert (fexp prec emax (54 + (e + n)) - (e + n) = 1) as ->
      by (unfold fexp, emin, prec, emax; lia).
    change (2 ^ 53) with (Zpos 9007199254740992).
    cbn [shr fst snd shr_record_of_loc shr_m SpecFloat.iter_pos shr_1].
    assert ((e + n + 1 <=? emax - prec) = true) as ->
      by (apply Z.leb_le; unfold emax, prec; lia).
    eexists _, _. split; [reflexivity|].
    split; [split; [reflexivity|reflexivity]|]. split; [lia|].
    replace (e + n + 1 - (e + n)) with 1 by lia.
    change (Z.pos 4503599627370496 * 2 ^ 1) with (Zpos 9007199254740992). lia.
  - assert (2 ^ 52 <= m1 < 2 ^ 53) as Hm1 by lia.
    rewrite (Zdigits2_unique m1 53) by (change (53 - 1) with 52; lia).
    assert (fexp prec emax (53 + (e + n)) - (e + n) = 0) as ->
      by (unfold fexp, emin, prec, emax; lia).
    cbn [shr fst snd shr_record_of_loc shr_m].
    destruct m1 as [|p|p]; try lia.
    assert ((e + n <=? emax - prec) = true) as ->
      by (apply Z.leb_le; unfold emax, prec; lia).
    exists p, (e + n). split; [reflexivity|]. split; [done|]. split; [lia|].
    rewrite Z.sub_diag, Z.mul_1_r. lia.
Qed.

Lemma digits2_pos_le (p : positive) (k : Z) :
  0 <= k -> Zpos p < 2 ^ k -> 1 <= Zpos (digits2_pos p) <= k.
Proof.
  intros Hk Hp. pose proof (digits2_pos_bounds p) as [Hlo _]. split; [lia|].
  assert (Zpos (digits2_pos p) - 1 < k); [|lia].
  apply (Z.pow_lt_mono_r_iff 2); lia.
Qed.

(** The quotient of two sizes: the mantissa, scaled to an integer by
    [2 ^ K], is the floor of the scaled quotient or that plus one. *)
Lemma truediv_core (a b : positive) (s : bool) :
  Zpos a < 2 ^ 43 -> Zpos b < 2 ^ 43 ->
  exists my ey K,
    (let '(q, e, l) := SFdiv_core_binary prec emax (Zpos a) 0 (Zpos b) 0 in
     binary_round_aux prec emax s q e l) = S754_finite s my ey /\
    2 ^ 52 <= Zpos my < 2 ^ 53 /\
    10 <= K <= 95 /\ 2 ^ 9 * Zpos b < 2 ^ K /\
    - K <= ey <= - K + 1 /\
    Zpos a * 2 ^ K / Zpos b <= Zpos my * 2 ^ (ey + K) <= Zpos a * 2 ^ K / Zpos b + 1.
Proof.
  intros Ha Hb. unfold SFdiv_core_binary.
  change (Zdigits2 (Zpos a)) with (Zpos (digits2_pos a)).
  change (Zdigits2 (Zpos b)) with (Zpos (digits2_pos b)).
  pose proof (digits2_pos_bounds a) as Hda. pose proof (digits2_pos_bounds b) as Hdb.
  pose proof (digits2_pos_le a 43 ltac:(lia) Ha) as Hda'.
  pose proof (digits2_pos_le b 43 ltac:(lia) Hb) as Hdb'.
  set (d1 := Zpos (digits2_pos a)) in *. set (d2 := Zpos (digits2_pos b)) in *.
  clearbody d1 d2.
  assert (Z.min (fexp prec emax (d1 + 0 - (d2 + 0))) (0 - 0) = - (53 + d2 - d1)) as ->
    by (unfold fexp, emin, prec, emax; lia).
  replace (0 - 0 - - (53 + d2 - d1)) with (53 + d2 - d1) by lia.
  remember (53 + d2 - d1) as sh eqn:Esh.
  assert (11 <= sh <= 95) as Hsh by lia.
  destruct sh as [|shp|shp]; try lia.
  set (sh := Zpos shp) in *. clearbody sh. clear shp.
  rewrite Z.shiftl_mul_pow2 by lia.
  assert (0 < 2 ^ sh) as Hpsh by (apply Z.pow_pos_nonneg; lia).
  pose proof (Z.div_eucl_eq (Zpos a * 2 ^ sh) (Zpos b) ltac:(lia)) as Heucl.
  pose proof (Z.mod_pos_bound (Zpos a * 2 ^ sh) (Zpos b) ltac:(lia)) as Hmod.
  unfold Z.modulo in Hmod. 
  assert (fst (Z.div_eucl (Zpos a * 2 ^ sh) (Zpos b)) = Zpos a * 2 ^ sh / Zpos b) as Hq
    by reflexivity.
  destruct (Z.div_eucl (Zpos a * 2 ^ sh) (Zpos b)) as [q r]. cbn [fst] in Hq. subst q.
  clear Heucl Hmod.
  set (q := Zpos a * 2 ^ sh / Zpos b).
  assert (2 ^ 52 <= q < 2 ^ 54) as Hq.
  { assert (2 ^ (d1 - 1) * 2 ^ sh = 2 ^ 52 * 2 ^ d2) as E1.
    { rewrite <- !Z.pow_add_r by lia. f_equal. lia. }
    assert (2 ^ d1 * 2 ^ sh = 2 ^ 54 * 2 ^ (d2 - 1)) as E2.
    { rewrite <- !Z.pow_add_r by lia. f_equal. lia. }
    split.
    - apply Z.div_le_lower_bound; [lia|]. nia.
    - apply Z.div_lt_upper_bound; [lia|]. nia. }
  set (n := if q <? 2 ^ 53 then 0 else 1).
  assert (0 <= n <= 1 /\ 2 ^ (53 + n - 1) <= q < 2 ^ (53 + n)) as [Hn Hqn].
  { unfold n. destruct (q <? 2 ^ 53) eqn:E.
    - apply Z.ltb_lt in E. split; [lia|]. change (53 + 0 - 1) with 52.
      change (53 + 0) with 53. lia.
    - apply Z.ltb_ge in E. split; [lia|]. change (53 + 1 - 1) with 53.
      change (53 + 1) with 54. lia. }
  clearbody n.
  assert (0 < q) as Hq0 by lia.
  destruct q as [|qp|qp] eqn:Eq; try lia.
  destruct (binary_round_aux_normal s qp (- sh) n (new_location (Zpos b) r))
    as (my & ey & Hres & Hmy & Hey & Hfl); [|lia|lia|lia|].
  { apply Zdigits2_unique; lia. }
  exists my, ey, (sh - n). split; [exact Hres|]. split; [exact Hmy|].
  split; [lia|]. split.
  { assert (2 ^ (sh - n) = 2 ^ (sh - n - 9 - d2) * (2 ^ 9 * 2 ^ d2)) as ->.
    { rewrite <- !Z.pow_add_r by (lia). f_equal. lia. }
    assert (0 < 2 ^ (sh - n - 9 - d2)) by (apply Z.pow_pos_nonneg; lia).
    nia. }
  split; [lia|].
  replace (ey + (sh - n)) with (ey - (- sh + n)) by lia.
  assert (Zpos a * 2 ^ (sh - n) / Zpos b = Zpos qp / 2 ^ n) as ->; [|exact Hfl].
  rewrite <- Eq. unfold q.
  assert (0 < 2 ^ n) by (apply Z.pow_pos_nonneg; lia).
  rewrite Z.div_div by lia.
  replace (2 ^ sh) with (2 ^ (sh - n) * 2 ^ n)
    by (rewrite <- Z.pow_add_r by lia; f_equal; lia).
  rewrite Z.mul_assoc, Z.div_mul_cancel_r by lia. reflexivity.
Qed.

(** [float(100)] *)
Lemma of_int_100 : of_int 100 = S754_finite false 7036874417766400 (-46).
Proof. reflexivity. Qed.

(** The product by 100 of a normal float below one thousandth of the
    largest: again a floor, or a floor plus one, of the scaled product. *)
Lemma mul_100_core (s : bool) (my : positive) (ey : Z) :
  2 ^ 52 <= Zpos my < 2 ^ 53 -> -1000 <= ey <= 900 ->
  exists mx ex n,
    mul_int (S754_finite s my ey) 100 = S754_finite s mx ex /\
    2 ^ 52 <= Zpos mx < 2 ^ 53 /\
    52 <= n <= 53 /\
    ey - 46 + n <= ex <= ey - 46 + n + 1 /\
    Zpos my * (100 * 2 ^ 46) / 2 ^ n <= Zpos mx * 2 ^ (ex - (ey - 46 + n))
      <= Zpos my * (100 * 2 ^ 46) / 2 ^ n + 1.
Proof.
  intros Hmy Hey. unfold mul_int. rewrite of_int_100. cbn [SFmul].
  rewrite xorb_false_r.
  set (c := 7036874417766400%positive).
  assert (Zpos c = 100 * 2 ^ 46) as Hc by reflexivity.
  assert (2 ^ 104 < Zpos (my * c) < 2 ^ 106) as HP.
  { rewrite Pos2Z.inj_mul, Hc.
    change (2 ^ 104) with (2 ^ 52 * 2 ^ 52). change (2 ^ 106) with (2 ^ 53 * 2 ^ 53).
    change (2 ^ 46) with 70368744177664 in *.
    change (2 ^ 52) with 4503599627370496 in *.
    change (2 ^ 53) with 9007199254740992 in *. nia. }
  set (n := if Zpos (my * c) <? 2 ^ 105 then 52 else 53).
  assert (52 <= n <= 53 /\ 2 ^ (53 + n - 1) <= Zpos (my * c) < 2 ^ (53 + n)) as [Hn HPn].
  { unfold n. destruct (Zpos (my * c) <? 2 ^ 105) eqn:E.
    - apply Z.ltb_lt in E. split; [lia|]. change (53 + 52 - 1) with 104.
      change (53 + 52) with 105. lia.
    - apply Z.ltb_ge in E. split; [lia|]. change (53 + 53 - 1) with 105.
      change (53 + 53) with 106. lia. }
  clearbody n.
  destruct (binary_round_aux_normal s (my * c) (ey + -46) n loc_Exact)
    as (mx & ex & Hres & Hmx & Hex & Hfl); [|lia|lia|lia|].
  { apply Zdigits2_unique; lia. }
  exists mx, ex, n. split; [exact Hres|]. split; [exact Hmx|]. split; [exact Hn|].
  split; [lia|].
  rewrite Pos2Z.inj_mul, Hc in Hfl.
  replace (ey - 46 + n) with (ey + -46 + n) by lia. exact Hfl.
Qed.

(** The arithmetic of the two roundings.  [Y] is the rounded quotient
    scaled by [2 ^ K], [X] the rounded product scaled, and [z] the integer
    part of the product: [z] is the integer part of [100 a / b], or one
    less when the division is exact. *)

(** The arithmetic of the two roundings.  [my * pj] is the rounded
    quotient scaled by [pK], [mx * pj2] the rounded product scaled by
    [pn], and [z] the integer part of the product: [z] is the integer part
    of [100 a / b], or one less when the division is exact. *)
Lemma dos_redondeos (a b my mx z pK pj pn pj2 pH : Z) :
  0 < a -> 0 < b -> 0 < my -> 0 < mx ->
  0 < pK -> 1 <= pj <= 2 -> 0 < pn <= 2 ^ 53 -> 1 <= pj2 -> 0 < pH ->
  pH * pj2 * pn * pj = 2 ^ 46 * pK ->
  2 ^ 9 * b < pK ->
  a * pK / b <= my * pj <= a * pK / b + 1 ->
  my * (100 * 2 ^ 46) / pn <= mx * pj2 <= my * (100 * 2 ^ 46) / pn + 1 ->
  z = mx / pH ->
  z * b <= 100 * a <= (z + 1) * b.
Proof.
  intros Ha Hb Hmy Hmx HpK Hpj Hpn Hpj2 HpH HD Hb9 HY HX Hz.
  change (2 ^ 46) with 70368744177664 in *.
  change (2 ^ 53) with 9007199254740992 in *.
  change (2 ^ 9) with 512 in *.
  change (100 * 70368744177664) with 7036874417766400 in *.
  (* the three floors *)
  pose proof (Z.mul_div_le (a * pK) b Hb) as HA1.
  pose proof (Z.mul_succ_div_gt (a * pK) b Hb) as HA2.
  set (A := a * pK / b) in *. clearbody A.
  pose proof (Z.mul_div_le (my * 7036874417766400) pn ltac:(lia)) as HB1.
  pose proof (Z.mul_succ_div_gt (my * 7036874417766400) pn ltac:(lia)) as HB2.
  set (B := my * 7036874417766400 / pn) in *. clearbody B.
  pose proof (Z.mul_div_le mx pH HpH) as HZ1.
  pose proof (Z.mul_succ_div_gt mx pH HpH) as HZ2.
  rewrite <- Hz in HZ1, HZ2. clear Hz.
  (* the quotient: [b * y] is within [b] of [a * pK] *)
  set (y := my * pj) in *.
  assert (b * A <= b * y) as Y1 by (apply Z.mul_le_mono_nonneg_l; lia).
  assert (b * y <= b * (A + 1)) as Y2 by (apply Z.mul_le_mono_nonneg_l; lia).
  assert (b * y - b <= a * pK < b * y + b) as HQ by lia.
  clear Y1 Y2 HA1 HA2 HY A.
  (* the product: [pn * x] is within [pn] of [my * c] *)
  set (x := mx * pj2) in *.
  assert (pn * B <= pn * x) as X1 by (apply Z.mul_le_mono_nonneg_l; lia).
  assert (pn * x <= pn * (B + 1)) as X2 by (apply Z.mul_le_mono_nonneg_l; lia).
  assert (pn * x - pn <= my * 7036874417766400 < pn * x + pn) as HP by lia.
  clear X1 X2 HB1 HB2 HX B.
  (* scaled by [pj] *)
  assert (pj * (pn * x - pn) <= pj * (my * 7036874417766400)) as P1
    by (apply Z.mul_le_mono_nonneg_l; lia).
  assert (pj * (my * 7036874417766400) < pj * (pn * x + pn)) as P2
    by (apply Z.mul_lt_mono_pos_l; lia).
  set (Q := pn * pj2 * pj).
  assert (0 < Q) as HQ0 by (unfold Q; repeat apply Z.mul_pos_pos; lia).
  assert (pj * (pn * x) = Q * mx) as E1 by (unfold Q, x; ring).
  assert (pj * (my * 7036874417766400) = 7036874417766400 * y) as E2 by (unfold y; ring).
  assert (Q * mx - pj * pn <= 7036874417766400 * y < Q * mx + pj * pn) as HP'.
  { rewrite <- E1, <- E2. split.
    - replace (pj * (pn * x) - pj * pn) with (pj * (pn * x - pn)) by ring. exact P1.
    - replace (pj * (pn * x) + pj * pn) with (pj * (pn * x + pn)) by ring. exact P2. }
  clear P1 P2 E1 E2 HP.
  (* the integer part *)
  set (D := 70368744177664 * pK) in *.
  assert (Q * pH = D) as ED by (unfold Q; rewrite <- HD; ring).
  assert (Q * (pH * z) <= Q * mx) as Z1 by (apply Z.mul_le_mono_nonneg_l; lia).
  assert (Q * mx < Q * (pH * z + pH)) as Z2 by (apply Z.mul_lt_mono_pos_l; lia).
  assert (D * z <= Q * mx < D * z + D) as HZ.
  { rewrite <- ED. split.
    - replace (Q * pH * z) with (Q * (pH * z)) by ring. exact Z1.
    - replace (Q * pH * z + Q * pH) with (Q * (pH * z + pH)) by ring. exact Z2. }
  clear Z1 Z2 HZ1 HZ2.
  set (W := Q * mx) in *. clearbody W.
  (* the error is below one unit of [D] *)
  assert (pj * pn <= 18014398509481984) as HE1.
  { assert (pj * pn <= 2 * pn) by (apply Z.mul_le_mono_nonneg_r; lia). lia. }
  set (t := pj * pn) in *. clearbody t.
  assert (b * (t + 7036874417766400) < D) as HE.
  { unfold D.
    assert (b * (t + 7036874417766400) <= b * 25051272927248384)
      by (apply Z.mul_le_mono_nonneg_l; lia).
    lia. }
  assert (0 < D) as HD0 by (unfold D; lia).
  assert (7036874417766400 * (a * pK) = 100 * a * D) as EN by (unfold D; ring).
  assert (7036874417766400 * (b * y) = b * (7036874417766400 * y)) as EM by ring.
  assert (b * (W - t) <= b * (7036874417766400 * y)) as M1
    by (apply Z.mul_le_mono_nonneg_l; lia).
  assert (b * (7036874417766400 * y) < b * (W + t)) as M2
    by (apply Z.mul_lt_mono_pos_l; lia).
  assert (b * (D * z) <= b * W) as M3 by (apply Z.mul_le_mono_nonneg_l; lia).
  assert (b * W < b * (D * z + D)) as M4 by (apply Z.mul_lt_mono_pos_l; lia).
  assert (b * (W - t) = b * W - b * t) as R1 by ring.
  assert (b * (W + t) = b * W + b * t) as R2 by ring.
  assert (b * (t + 7036874417766400) = b * t + 7036874417766400 * b) as R3 by ring.
  assert (b * (D * z) = D * (b * z)) as R4 by ring.
  assert (b * (D * z + D) = D * (b * z) + D * b) as R5 by ring.
  assert (100 * a * D = D * (100 * a)) as R6 by ring.
  assert (D * (b * z - 1) < D * (100 * a)) as LF.
  { replace (D * (b * z - 1)) with (D * (b * z) - D) by ring. lia. }
  assert (D * (100 * a) < D * (b * z + b + 1)) as UF.
  { replace (D * (b * z + b + 1)) with (D * (b * z) + D * b + D) by ring. lia. }
  apply Z.mul_lt_mono_pos_l in LF; [|exact HD0].
  apply Z.mul_lt_mono_pos_l in UF; [|exact HD0].
  split; lia.
Qed.

Lemma trunc_mag_neg (m : positive) (e : Z) :
  e < 0 -> trunc_mag m e = Zpos m / 2 ^ (- e).
Proof.
  intros He. destruct e as [|k|k]; try lia.
  unfold trunc_mag. rewrite Z.shiftr_div_pow2 by lia. reflexivity.
Qed.

(** [int((a / b) * 100)] for two sizes below [2 ^ 43]. *)
Lemma porcentaje_core (a b : positive) (sg : bool) :
  Zpos a < 2 ^ 43 -> Zpos b < 2 ^ 43 ->
  exists z,
    to_int (mul_int
              (let '(q, e, l) := SFdiv_core_binary prec emax (Zpos a) 0 (Zpos b) 0 in
               binary_round_aux prec emax sg q e l) 100) =
    Some (if sg then - z else z) /\
    z * Zpos b <= 100 * Zpos a <= (z + 1) * Zpos b.
Proof.
  intros Ha Hb.
  destruct (truediv_core a b sg Ha Hb) as (my & ey & K & -> & Hmy & HK & Hb9 & Hey & HY).
  destruct (mul_100_core sg my ey Hmy ltac:(lia)) as (mx & ex & n & -> & Hmx & Hn & Hex & HX).
  exists (Zpos mx / 2 ^ (- ex)). split.
  { cbn [to_int]. rewrite trunc_mag_neg by lia. reflexivity. }
  assert (0 < 2 ^ K) as P1 by (apply Z.pow_pos_nonneg; lia).
  assert (1 <= 2 ^ (ey + K) <= 2) as P2.
  { assert (ey + K = 0 \/ ey + K = 1) as [->| ->] by lia;
      [change (2 ^ 0) with 1|change (2 ^ 1) with 2]; lia. }
  assert (0 < 2 ^ n <= 2 ^ 53) as P3.
  { split; [apply Z.pow_pos_nonneg; lia|]. apply Z.pow_le_mono_r; lia. }
  assert (1 <= 2 ^ (ex - (ey - 46 + n))) as P4.
  { assert (0 < 2 ^ (ex - (ey - 46 + n))) by (apply Z.pow_pos_nonneg; lia). lia. }
  assert (0 < 2 ^ (- ex)) as P5 by (apply Z.pow_pos_nonneg; lia).
  assert (2 ^ (- ex) * 2 ^ (ex - (ey - 46 + n)) * 2 ^ n * 2 ^ (ey + K) = 2 ^ 46 * 2 ^ K)
    as P6.
  { rewrite <- !Z.pow_add_r by lia. f_equal. lia. }
  exact (dos_redondeos (Zpos a) (Zpos b) (Zpos my) (Zpos mx) _ (2 ^ K) (2 ^ (ey + K))
           (2 ^ n) (2 ^ (ex - (ey - 46 + n))) (2 ^ (- ex))
           ltac:(lia) ltac:(lia) ltac:(lia) ltac:(lia) P1 P2 P3 P4 P5 P6 Hb9 HY HX
           eq_refl).
Qed.

End PyFloatFacts.

Lemma parte_entera (N b z : Z) :
  (0 < b)%Z -> (z * b <= N <= (z + 1) * b)%Z ->
  (z = N / b \/ (N mod b = 0 /\ z = N / b - 1))%Z.
Proof.
  intros Hb [Hlo Hhi]. destruct (Z.eq_dec N ((z + 1) * b)%Z) as [->|Hne].
  - right. rewrite Z.mod_mul, Z.div_mul by lia. lia.
  - left. apply (Z.div_unique_pos N b z (N - z * b)%Z); lia.
Qed.

(** C8, amended.  For a total of the uploads that is positive and totals
    below [2 ^ 43] bytes the percentage is [100 * ahorro / total_orig]
    truncated toward zero, or that number one unit nearer to zero, which
    happens only when [total_orig] divides [100 * ahorro] (the quotient
    is an integer that the two roundings of binary64 have missed from
    below).  So it is the floor of the specification when the output is
    not larger than the input and the quotient is not an integer, and the
    floor plus one when the output is larger and the quotient is not an
    integer.  It is [0] when [total_orig] is not positive.  A saving of a
    half reports 50, a growth of a third reports -33, nothing at all
    reports 0, and 7100 bytes out of 10000 report 28. *)
Theorem porcentaje_truncado (total_orig total_comp : Z) :
  ((0 < total_orig < 2 ^ 43)%Z -> (0 <= total_comp < 2 ^ 43)%Z ->
   exists pct,
     porcentaje total_orig total_comp = Ok pct /\
     (pct = Z.quot (100 * (total_orig - total_comp)) total_orig \/
      ((100 * (total_orig - total_comp)) mod total_orig = 0 /\
       pct = Z.quot (100 * (total_orig - total_comp)) total_orig
             - Z.sgn (total_orig - total_comp)))%Z /\
     ((100 * (total_orig - total_comp)) mod total_orig <> 0 ->
      total_comp <= total_orig ->
      pct = porcentaje_segun_spec total_orig total_comp)%Z /\
     ((100 * (total_orig - total_comp)) mod total_orig <> 0 ->
      total_orig < total_comp ->
      pct = porcentaje_segun_spec total_orig total_comp + 1)%Z) /\
  ((total_orig <= 0)%Z -> porcentaje total_orig total_comp = Ok 0%Z) /\
  porcentaje 100 50 = Ok 50%Z /\
  porcentaje 3 4 = Ok (-33)%Z /\
  porcentaje 0 0 = Ok 0%Z /\
  porcentaje 10000 7100 = Ok 28%Z.
Proof.
  split; [|split; [|by vm_compute]].
  - intros Horig Hcomp. unfold porcentaje, porcentaje_segun_spec.
    assert ((total_orig >? 0)%Z = true) as -> by (apply Z.gtb_lt; lia).
    assert ((total_orig =? 0)%Z = false) as -> by (apply Z.eqb_neq; lia).
    destruct total_orig as [|b|b]; try lia.
    assert (Z.abs (Zpos b - total_comp) < 2 ^ 43)%Z as Ha by lia.
    destruct (Zpos b - total_comp)%Z as [|a|a] eqn:Ea.
    + exists 0%Z. split; [reflexivity|]. split; [by left|]. split; [done|]. lia.
    + destruct (PyFloatFacts.porcentaje_core a b false ltac:(lia) ltac:(lia))
        as (z & Hz & Hb).
      change (PyFloat.truediv (Zpos a) (Zpos b))
        with (let '(q, e, l) :=
                SFdiv_core_binary PyFloat.prec PyFloat.emax (Zpos a) 0 (Zpos b) 0 in
              binary_round_aux PyFloat.prec PyFloat.emax false q e l).
      rewrite Hz. exists z. split; [reflexivity|].
      destruct (parte_entera (100 * Zpos a)%Z (Zpos b) z ltac:(lia) Hb) as [Hq|[Hm Hq]].
      * split; [left; rewrite Z.quot_div_nonneg by lia; exact Hq|].
        split; [|lia]. intros _ _. rewrite (Z.mul_comm (Zpos a) 100). exact Hq.
      * split; [right; split; [exact Hm|]; rewrite Z.quot_div_nonneg by lia;
                change (Z.sgn (Zpos a)) with 1%Z; exact Hq|].
        split; [|lia]. intros Hn. by destruct Hn.
    + destruct (PyFloatFacts.porcentaje_core a b true ltac:(lia) ltac:(lia))
        as (z & Hz & Hb).
      change (PyFloat.truediv (Zneg a) (Zpos b))
        with (let '(q, e, l) :=
                SFdiv_core_binary PyFloat.prec PyFloat.emax (Zpos a) 0 (Zpos b) 0 in
              binary_round_aux PyFloat.prec PyFloat.emax true q e l).
      rewrite Hz. exists (- z)%Z. split; [reflexivity|].
      assert (100 * Zneg a = - (100 * Zpos a))%Z as -> by lia.
      assert (Zneg a * 100 = - (100 * Zpos a))%Z as -> by lia.
      rewrite Z.quot_opp_l by lia. rewrite Z.quot_div_nonneg by lia.
      change (Z.sgn (Zneg a)) with (-1)%Z.
      destruct (parte_entera (100 * Zpos a)%Z (Zpos b) z ltac:(lia) Hb) as [Hq|[Hm Hq]].
      * split; [left; lia|]. split; [lia|]. intros Hn _.
        rewrite Z.div_opp_l_nz; [lia|lia|].
        intros Hm. apply Hn. by apply Z.mod_opp_l_z.
      * assert ((- (100 * Zpos a)) mod Zpos b = 0)%Z as Hm'
          by (by apply Z.mod_opp_l_z).
        split; [right; split; [exact Hm'|lia]|].
        split; [lia|]. intros Hn. by destruct Hn.
  - intros Horig. unfold porcentaje.
    by assert ((total_orig >? 0)%Z = false) as ->
      by (rewrite Z.gtb_ltb; apply Z.ltb_ge; lia).
Qed.

Lemma porcentaje_truncado_witness :
  porcentaje 1000 1001 = Ok (porcentaje_segun_spec 1000 1001 + 1)%Z /\
  porcentaje 1000 667 = Ok (porcentaje_segun_spec 1000 667).
Proof.
  split.
  - destruct (proj1 (porcentaje_truncado 1000 1001) ltac:(lia) ltac:(lia))
      as (pct & -> & _ & _ & H). f_equal. apply H; [by vm_compute|lia].
  - destruct (proj1 (porcentaje_truncado 1000 667) ltac:(lia) ltac:(lia))
      as (pct & -> & _ & H & _). f_equal. apply H; [by vm_compute|lia].
Defined.

(* ===================================================================== *)
(** * The writer under any limit                                        *)
(* ===================================================================== *)

Lemma read_cons_pos (n : Z) (b : Byte.byte) (stream : list Byte.byte) :
  (0 < n)%Z -> exists chunk' rest, read n (b :: stream) = (b :: chunk', rest).
Proof.
  intros Hn. simpl. destruct (n <=? 0)%Z eqn:E; [apply Z.leb_le in E; lia|].
  destruct (read (n - 1) stream) as [c r]. by exists c, r.
Qed.

(** X2.  For every limit, a negative one included, [guardar_con_limite]
    refuses an upload exactly when it is not empty and longer than
    [max_mb * 1024 * 1024] bytes: it then removes the destination and
    raises the 413 error; otherwise the destination holds the bytes of
    the upload.  So an empty upload is stored, as an empty file, under
    any limit, and a negative limit refuses every upload that is not
    empty.  Either way the destination is the one path recorded as
    created, and nothing else of the world changes. *)
Theorem guardar_con_limite_cualquier_limite (upload_file : UploadFile)
    (destino_path : string) (max_mb : Z) (w : World) :
  let total := Z.of_nat (length (file upload_file)) in
  guardar_con_limite upload_file destino_path max_mb w =
  if (0 <? total)%Z && (total >? max_mb * 1024 * 1024)%Z
  then (mkWorld (delete destino_path (fs w)) (uuid_draws w) (background_tasks w)
                (created w ++ [(input, destino_path)]) (borrados w),
        Raise (limite_excedido max_mb))
  else (mkWorld (<[destino_path := file upload_file]> (fs w)) (uuid_draws w)
                (background_tasks w) (created w ++ [(input, destino_path)]) (borrados w),
        Ok tt).
Proof.
  cbv zeta. destruct (Z.le_gt_cases 0 max_mb) as [Hmb|Hmb].
  - rewrite guardar_con_limite_eq by done.
    destruct (_ >? _)%Z eqn:E.
    + apply Z.gtb_gt in E.
      destruct (0 <? _)%Z eqn:E0; [done|]. apply Z.ltb_ge in E0. lia.
    + by rewrite andb_false_r.
  - unfold guardar_con_limite. cbv zeta. unfold bind, open_wb.
    rewrite guardar_bloques_eq.
    destruct (file upload_file) as [|b stream] eqn:Hfile.
    + reflexivity.
    + destruct (read_cons_pos (1024 * 1024) b stream) as (chunk' & rest & ->); [lia|].
      cbv zeta.
      assert ((0 + Z.of_nat (length (b :: chunk')) >? max_mb * 1024 * 1024)%Z = true) as ->.
      { apply Z.gtb_gt. simpl length. lia. }
      assert ((0 <? Z.of_nat (length (b :: stream)))%Z = true) as ->.
      { apply Z.ltb_lt. simpl length. lia. }
      assert ((Z.of_nat (length (b :: stream)) >? max_mb * 1024 * 1024)%Z = true) as ->.
      { apply Z.gtb_gt. simpl length. lia. }
      unfold bind, os_path_exists, os_remove, raise, with_fs; simpl.
      rewrite lookup_insert_eq.
      rewrite bool_decide_eq_true_2 by eauto. simpl.
      rewrite lookup_insert_eq. simpl. by rewrite delete_insert_eq.
Qed.

(* ===================================================================== *)
(** * More on the extension policy                                      *)
(* ===================================================================== *)

Module PyStrLower.
Import PyStr.

Lemma lower_ascii_dot (a : ascii) : Ascii.eqb (lower_ascii a) "." = Ascii.eqb a ".".
Proof. by destruct a as [[] [] [] [] [] [] [] []]. Qed.

Lemma lower_ascii_sep (a : ascii) : Ascii.eqb (lower_ascii a) "/" = Ascii.eqb a "/".
Proof. by destruct a as [[] [] [] [] [] [] [] []]. Qed.

Lemma rfind_from_lower (c : ascii) (p : string) (i found : Z) :
  (forall a, Ascii.eqb (lower_ascii a) c = Ascii.eqb a c) ->
  rfind_from c (lower p) i found = rfind_from c p i found.
Proof.
  intros Hc. revert i found. induction p as [|a p IH]; intros i found; simpl; [done|].
  by rewrite Hc, IH.
Qed.

Lemma take_lower (n : nat) (p : string) : take n (lower p) = lower (take n p).
Proof.
  revert p. induction n as [|n IH]; intros [|a p]; simpl; try done. by rewrite IH.
Qed.

Lemma drop_lower (n : nat) (p : string) : drop n (lower p) = lower (drop n p).
Proof.
  revert p. induction n as [|n IH]; intros [|a p]; simpl; try done.
Qed.

Lemma eqb_dot_lower (s : string) : String.eqb (lower s) "." = String.eqb s ".".
Proof.
  destruct s as [|a [|b s]]; simpl; try done.
  - by rewrite lower_ascii_dot.
  - by destruct (Ascii.eqb _ _), (Ascii.eqb _ _).
Qed.

Lemma skip_leading_dots_lower (pending : nat) (p : string) (dotIndex filenameIndex : nat) :
  skip_leading_dots pending (lower p) dotIndex filenameIndex =
  (lower (skip_leading_dots pending p dotIndex filenameIndex).1,
   lower (skip_leading_dots pending p dotIndex filenameIndex).2).
Proof.
  revert filenameIndex. induction pending as [|pending IH]; intros k; simpl; [done|].
  unfold char_at. rewrite drop_lower, take_lower, eqb_dot_lower.
  destruct (negb _); simpl.
  - by rewrite take_lower, drop_lower.
  - apply IH.
Qed.

Lemma splitext_lower (p : string) :
  splitext (lower p) = (lower (splitext p).1, lower (splitext p).2).
Proof.
  unfold splitext, rfind.
  rewrite !rfind_from_lower by (apply lower_ascii_sep || apply lower_ascii_dot).
  destruct (_ >? _)%Z; [|done]. apply skip_leading_dots_lower.
Qed.

End PyStrLower.

(** X3.  For filenames of ASCII characters, the verdict of
    [validar_extension] does not depend on the case of any letter of the
    filename: two such filenames that are equal once lowered get the same
    result, the same extension or the same error. *)
Theorem validar_extension_sin_mayusculas (nombre1 nombre2 : string)
    (permitidas : gset string) :
  es_ascii nombre1 = true -> es_ascii nombre2 = true ->
  PyStr.lower nombre1 = PyStr.lower nombre2 ->
  validar_extension nombre1 permitidas = validar_extension nombre2 permitidas.
Proof.
  intros _ _ Heq.
  assert (forall p, validar_extension p permitidas =
                    validar_extension (PyStr.lower p) permitidas) as Hlow.
  { intros p. unfold validar_extension.
    rewrite PyStrLower.splitext_lower. cbn [snd]. by rewrite lower_idemp. }
  by rewrite (Hlow nombre1), (Hlow nombre2), Heq.
Qed.

Lemma validar_extension_sin_mayusculas_witness :
  validar_extension "Informe.PDF" {[ ".pdf" ]} = validar_extension "INFORME.pdf" {[ ".pdf" ]}.
Proof.
  apply (validar_extension_sin_mayusculas "Informe.PDF" "INFORME.pdf" {[ ".pdf" ]});
    reflexivity.
Defined.

(** X4.  Only the last suffix of a filename counts.  For a filename made
    of a root that ends in a character other than a period or a
    separator, then a period and a suffix free of periods and separators,
    [os.path.splitext] splits at that last period, and [validar_extension]
    decides on the lowered suffix alone: ["x.pdf.EXE"] is refused by the
    PDF routes, ["a.exe.PDF"] is accepted. *)
Theorem validar_extension_ultimo_sufijo (raiz : string) (a : ascii) (sufijo : string)
    (permitidas : gset string) :
  a <> "."%char -> a <> "/"%char ->
  PyStr.contains "." sufijo = false -> PyStr.contains "/" sufijo = false ->
  let nombre := raiz +:+ String a "" +:+ String "." sufijo in
  let ext := PyStr.lower (String "." sufijo) in
  PyStr.splitext nombre = (raiz +:+ String a "", String "." sufijo) /\
  validar_extension nombre permitidas =
    (if bool_decide (ext ∈ permitidas) then Ok ext
     else Raise (HTTPException 400 ("Extensión no permitida: " +:+ ext))).
Proof.
  intros Hdot Hsep Hs1 Hs2. cbv zeta.
  pose proof (PyStrAppend.splitext_app raiz a sufijo Hdot Hsep Hs1 Hs2) as Hsplit.
  change (raiz +:+ String a "" +:+ String "." sufijo)
    with (raiz +:+ String a (String "." sufijo)).
  split; [done|]. rewrite validar_extension_unfold. cbv zeta. by rewrite Hsplit.
Qed.

Lemma validar_extension_ultimo_sufijo_witness :
  validar_extension "../x.pdf.EXE" {[ ".pdf" ]} =
    Raise (HTTPException 400 "Extensión no permitida: .exe") /\
  validar_extension "a.exe.PDF" {[ ".pdf" ]} = Ok ".pdf".
Proof.
  split.
  - exact (proj2 (validar_extension_ultimo_sufijo "../x.pd" "f" "EXE" {[ ".pdf" ]}
                    ltac:(done) ltac:(done) eq_refl eq_refl)).
  - exact (proj2 (validar_extension_ultimo_sufijo "a.ex" "e" "PDF" {[ ".pdf" ]}
                    ltac:(done) ltac:(done) eq_refl eq_refl)).
Defined.

(* ===================================================================== *)
(** * The rotate route                                                  *)
(* ===================================================================== *)

Lemma map_result_Forall2 {A B} (f : A -> result B) (xs : list A) (ys : list B) :
  map_result f xs = Ok ys <-> Forall2 (fun x y => f x = Ok y) xs ys.
Proof.
  revert ys. induction xs as [|x xs IH]; intros ys; simpl.
  - split; [by intros [= <-]; constructor | by intros ->%Forall2_nil_inv_l].
  - split.
    + destruct (f x) as [y|e] eqn:Hx; [|done].
      destruct (map_result f xs) as [ys'|e] eqn:Hxs; [|done].
      intros [= <-]. constructor; [done|]. by apply IH.
    + intros (y & ys' & Hx & Hxs & ->)%Forall2_cons_inv_l.
      rewrite Hx. apply IH in Hxs. by rewrite Hxs.
Qed.

Section Rotar.
Context {page : Type} (lib : Collaborators page).

(** X5.  The rotate route checks the angle before it stores anything: for
    an angle other than 90, 180 and 270 the response is a 500 that carries
    the message of the refused angle (or that of the refused extension,
    which is checked first), and no identifier has been drawn, no path
    created, no file written and no task scheduled. *)
Theorem api_rotar_grados_invalidos (upload : UploadFile) (grados : Z) (w : World) :
  grados ∉ [90; 180; 270]%Z ->
  let out := api_rotar lib upload grados w in
  out.2 = JSONResponse 500
            (match validar_extension (filename upload) {[ ".pdf" ]} with
             | Ok _ => "400: Solo se permiten 90, 180 o 270 grados."
             | Raise e => str e
             end) /\
  fs out.1 = fs w /\
  uuid_draws out.1 = uuid_draws w /\
  created out.1 = created w /\
  background_tasks out.1 = background_tasks w.
Proof.
  intros Hgrados. cbv zeta. unfold api_rotar, try_except, rotar_try.
  unfold bind at 1. unfold lift_result at 1.
  destruct (validar_extension (filename upload) {[ ".pdf" ]}) as [ext|e]; [|done].
  unfold bind at 1. rewrite bool_decide_eq_true_2 by done. done.
Qed.

(** X6.  On an upload that is accepted, fits the limit and parses, with
    an allowed angle: the rotate route rotates every page of the document
    by [grados], in order.  If a rotation raises, the response is the 500
    of that exception, no output has been created and the upload is
    deleted.  Otherwise the writer gets the rotated pages, and when it
    serialises them the response is the output file, which holds that
    serialisation, and the cleanup of the upload and of the output is
    scheduled. *)
Theorem api_rotar_paginas (upload : UploadFile) (grados : Z) (w : World)
    (ext : string) (pages : list page) :
  validar_extension (filename upload) {[ ".pdf" ]} = Ok ext ->
  grados ∈ [90; 180; 270]%Z ->
  (Z.of_nat (length (file upload)) <= MAX_MB_PER_FILE * 1024 * 1024)%Z ->
  PdfReader_pages lib (file upload) = Ok pages ->
  let input_path := PyStr.join UPLOAD_DIR (uuid4_hex lib (uuid_draws w) +:+ ".pdf") in
  let output_path :=
    PyStr.join OUTPUT_DIR ("Rotado_" +:+ uuid4_hex lib (S (uuid_draws w)) +:+ ".pdf") in
  let out := api_rotar lib upload grados w in
  match map_result (fun p => rotate lib p grados) pages with
  | Raise e =>
      out.2 = JSONResponse 500 (str e) /\
      created out.1 = created w ++ [(input, input_path)] /\
      fs out.1 !! input_path = None
  | Ok rotadas =>
      Forall2 (fun p r => rotate lib p grados = Ok r) pages rotadas /\
      match PdfWriter_write lib rotadas with
      | (data, None) =>
          out.2 = FileResponse output_path "PDFlex_Rotado.pdf" [] /\
          fs out.1 !! output_path = Some data /\
          background_tasks out.1 = background_tasks w ++ [[input_path; output_path]]
      | (data, Some e) => out.2 = JSONResponse 500 (str e)
      end
  end.
Proof.
  intros Hval Hgrados Hfit Hread. cbv zeta.
  set (input_path := PyStr.join UPLOAD_DIR (uuid4_hex lib (uuid_draws w) +:+ ".pdf")).
  set (output_path :=
         PyStr.join OUTPUT_DIR ("Rotado_" +:+ uuid4_hex lib (S (uuid_draws w)) +:+ ".pdf")).
  set (w1 := mkWorld (<[input_path := file upload]> (fs w)) (S (uuid_draws w))
                     (background_tasks w) (created w ++ [(input, input_path)])
                     (borrados w)).
  assert (rotar_try lib upload grados (w, []) =
          (writer_pages <- lift_result (map_result (fun p => rotate lib p grados) pages) ;;
           hex <- in_world (uuid4 lib) ;;
           let output_filename := "Rotado_" +:+ hex +:+ ".pdf" in
           let output_path := PyStr.join OUTPUT_DIR output_filename in
           in_world (write_pdf lib output_path writer_pages) ;;
           temp_paths <- get_locals ;;
           in_world (add_task (temp_paths ++ [output_path])) ;;
           ret (FileResponse output_path "PDFlex_Rotado.pdf" [])) (w1, [input_path]))
    as Htry.
  { unfold rotar_try at 1.
    unfold bind at 1. unfold lift_result at 1. rewrite Hval.
    unfold bind at 1. rewrite bool_decide_eq_false_2 by (intros H; by apply H).
    unfold ret at 1.
    unfold bind at 1. unfold in_world at 1, uuid4 at 1, uuid4_draw. cbn [fst snd].
    unfold bind at 1. unfold in_world at 1. cbn [fst snd].
    rewrite guardar_con_limite_eq by done.
    cbn [fst snd fs uuid_draws background_tasks created borrados].
    destruct (_ >? _)%Z eqn:E; [apply Z.gtb_gt in E; lia|]. clear E.
    unfold bind at 1. unfold set_locals at 1. cbn [fst snd app].
    unfold bind at 1. unfold in_world at 1, PdfReader, bind at 1, read_file.
    cbn [fst snd fs uuid_draws background_tasks created borrados].
    rewrite lookup_insert_eq. unfold lift_result at 1. rewrite Hread.
    reflexivity. }
  destruct (map_result (fun p => rotate lib p grados) pages) as [rotadas|e] eqn:Hrot.
  - split; [by apply map_result_Forall2|].
    assert (rotar_try lib upload grados (w, []) =
            (in_world (write_pdf lib output_path rotadas) ;;
             temp_paths <- get_locals ;;
             in_world (add_task (temp_paths ++ [output_path])) ;;
             ret (FileResponse output_path "PDFlex_Rotado.pdf" []))
              (mkWorld (fs w1) (S (S (uuid_draws w))) (background_tasks w1)
                       (created w1) (borrados w1), [input_path])) as Hrest.
    { rewrite Htry. unfold bind at 1. unfold lift_result at 1. reflexivity. }
    unfold api_rotar, try_except. rewrite Hrest. clear Hrest Htry.
    unfold bind at 1. unfold in_world at 1, write_pdf, bind at 1, open_wb.
    cbn [fst snd fs uuid_draws background_tasks created borrados].
    destruct (PdfWriter_write lib rotadas) as [data [e|]].
    + reflexivity.
    + unfold bind at 1, write, ret. cbn [fst snd].
      split; [reflexivity|].
      unfold bind, get_locals, in_world, add_task, with_fs.
      cbn [fst snd fs background_tasks]. rewrite alter_insert_eq.
      split; [apply lookup_insert_eq|done].
  - assert (api_rotar lib upload grados w =
            ((borrar_archivos [input_path] w1).1, JSONResponse 500 (str e))) as ->.
    { unfold api_rotar, try_except. rewrite Htry. reflexivity. }
    cbn [fst snd]. split; [done|].
    destruct (borrar_archivos_spec [input_path] w1) as (Hfs & _ & -> & _).
    split; [done|]. cbv zeta in Hfs. rewrite Hfs.
    rewrite decide_True; [done|]. apply list_elem_of_here.
Qed.

End Rotar.

Lemma api_rotar_grados_invalidos_witness :
  (api_rotar lib_demo documento 45 (fresh ∅ 0)).2 =
    JSONResponse 500 "400: Solo se permiten 90, 180 o 270 grados." /\
  created (api_rotar lib_demo documento 45 (fresh ∅ 0)).1 = [].
Proof.
  assert (45 ∉ [90; 180; 270])%Z as H.
  { rewrite !elem_of_cons, elem_of_nil. lia. }
  pose proof (api_rotar_grados_invalidos lib_demo documento 45 (fresh ∅ 0) H)
    as (Hr & _ & _ & Hc & _).
  split; [exact Hr|exact Hc].
Defined.

Lemma api_rotar_paginas_witness :
  (api_rotar lib_demo documento 90 (fresh ∅ 0)).2 =
    FileResponse "temp_outputs/Rotado_1.pdf" "PDFlex_Rotado.pdf" [] /\
  fs (api_rotar lib_demo documento 90 (fresh ∅ 0)).1 !! "temp_outputs/Rotado_1.pdf" =
    Some [Byte.x25; Byte.x50].
Proof.
  assert (Z.of_nat (length (file documento)) <= MAX_MB_PER_FILE * 1024 * 1024)%Z
    as Hfit by (unfold MAX_MB_PER_FILE; simpl; lia).
  assert (90 ∈ [90; 180; 270])%Z as Hg by apply list_elem_of_here.
  pose proof (api_rotar_paginas lib_demo documento 90 (fresh ∅ 0) ".pdf"
                (file documento) eq_refl Hg Hfit eq_refl) as (_ & Hr & Hfs & _).
  split; [exact Hr|exact Hfs].
Defined.

(* ===================================================================== *)
(** * The merge route                                                   *)
(* ===================================================================== *)

Section Unir.
Context {page : Type} (lib : Collaborators page).

Lemma unir_file_valido (f : UploadFile) (pages : list page) (w : World)
    (l : unir_locals) :
  documento_valido lib f pages ->
  let safe_path := PyStr.join UPLOAD_DIR (uuid4_hex lib (uuid_draws w) +:+ ".pdf") in
  unir_file lib f (w, l) =
  ((mkWorld (<[safe_path := file f]> (fs w)) (S (uuid_draws w)) (background_tasks w)
            (created w ++ [(input, safe_path)]) (borrados w),
    mkUnirLocals (merger l ++ pages) (unir_temp_paths l ++ [safe_path])), Ok tt).
Proof.
  intros ((ext & Hval) & Hfit & Hread). cbv zeta.
  unfold unir_file.
  unfold bind at 1. unfold lift_result at 1. rewrite Hval.
  unfold bind at 1. unfold in_world at 1, uuid4 at 1, uuid4_draw. cbn [fst snd].
  unfold bind at 1. unfold in_world at 1. cbn [fst snd].
  rewrite guardar_con_limite_eq by done.
  cbn [fst snd fs uuid_draws background_tasks created borrados].
  destruct (_ >? _)%Z eqn:E; [apply Z.gtb_gt in E; lia|]. clear E.
  unfold bind at 1. unfold set_locals at 1. cbn [fst snd].
  unfold bind at 1. unfold in_world at 1, PdfReader, bind at 1, read_file.
  cbn [fst snd fs uuid_draws background_tasks created borrados].
  rewrite lookup_insert_eq. unfold lift_result at 1. rewrite Hread.
  reflexivity.
Qed.

Lemma unir_files_validos (files : list UploadFile) (pagess : list (list page)) :
  Forall2 (documento_valido lib) files pagess ->
  forall (w : World) (l : unir_locals),
  exists w' paths,
    for_each files (unir_file lib) (w, l) =
      ((w', mkUnirLocals (merger l ++ concat pagess) (unir_temp_paths l ++ paths)), Ok tt) /\
    background_tasks w' = background_tasks w /\
    length paths = length files.
Proof.
  induction 1 as [|f pages files pagess Hf _ IH]; intros w l.
  - exists w, []. simpl. rewrite !app_nil_r. by destruct l.
  - simpl for_each. unfold bind. rewrite (unir_file_valido f pages w l Hf).
    match goal with |- context [for_each files _ (?w1, ?l1)] =>
      destruct (IH w1 l1) as (w' & paths & -> & Ht & Hlen)
    end.
    exists w', (PyStr.join UPLOAD_DIR (uuid4_hex lib (uuid_draws w) +:+ ".pdf") :: paths).
    cbn [merger unir_temp_paths concat] in *.
    rewrite <- !app_assoc. simpl. split; [done|]. split; [done|]. by rewrite Hlen.
Qed.

(** X7.  On uploads that are all accepted, fit the limit and parse: the
    merge route hands the writer the pages of the uploads, one document
    after the other in the order of the request, so the merged document
    has as many pages as the inputs together.  When the writer serialises
    them the response is the output file, which holds that
    serialisation, and one cleanup is scheduled, over one path for each
    upload and the output. *)
Theorem api_unir_concatena (files : list UploadFile) (pagess : list (list page))
    (w : World) :
  files <> [] ->
  Forall2 (documento_valido lib) files pagess ->
  let output_path :=
    PyStr.join OUTPUT_DIR ("Unido_" +:+ uuid4_hex lib (uuid_draws w) +:+ ".pdf") in
  let out := api_unir lib files w in
  match PdfWriter_write lib (concat pagess) with
  | (data, None) =>
      out.2 = FileResponse output_path "PDFlex_Unido.pdf"
                [("X-Success-Message", "Unión exitosa")] /\
      fs out.1 !! output_path = Some data /\
      exists paths, length paths = length files /\
                    background_tasks out.1 = background_tasks w ++ [paths ++ [output_path]]
  | (data, Some e) => out.2 = JSONResponse 500 (str e)
  end.
Proof.
  intros Hne Hfiles. cbv zeta.
  set (output_path :=
         PyStr.join OUTPUT_DIR ("Unido_" +:+ uuid4_hex lib (uuid_draws w) +:+ ".pdf")).
  set (w0 := mkWorld (fs w) (S (uuid_draws w)) (background_tasks w) (created w)
                     (borrados w)).
  destruct (unir_files_validos files pagess Hfiles w0 (mkUnirLocals [] []))
    as (w' & paths & Hloop & Ht & Hlen).
  cbn [merger unir_temp_paths app] in Hloop.
  assert (api_unir lib files w =
          try_except (unir_try lib files output_path) unir_temp_paths
            (mkUnirLocals [] []) w0) as ->.
  { destruct files; [done|reflexivity]. }
  assert (unir_try lib files output_path (w0, mkUnirLocals [] []) =
          (in_world (write_pdf lib output_path (concat pagess)) ;;
           l <- get_locals ;;
           in_world (add_task (unir_temp_paths l ++ [output_path])) ;;
           ret (FileResponse output_path "PDFlex_Unido.pdf"
                  [("X-Success-Message", "Unión exitosa")]))
            (w', mkUnirLocals (concat pagess) paths)) as Htry.
  { unfold unir_try. unfold bind at 1. rewrite Hloop.
    unfold bind at 1. unfold get_locals at 1. reflexivity. }
  unfold try_except. rewrite Htry. clear Htry Hloop.
  unfold bind at 1. unfold in_world at 1, write_pdf, bind at 1, open_wb.
  cbn [fst snd fs uuid_draws background_tasks created borrados].
  destruct (PdfWriter_write lib (concat pagess)) as [data [e|]].
  - reflexivity.
  - unfold bind at 1, write, ret. cbn [fst snd].
    split; [reflexivity|].
    unfold bind, get_locals, in_world, add_task, with_fs.
    cbn [fst snd fs background_tasks unir_temp_paths]. rewrite alter_insert_eq.
    split; [apply lookup_insert_eq|]. exists paths. by rewrite Ht.
Qed.

End Unir.

Lemma api_unir_concatena_witness :
  (api_unir lib_demo [documento; cinco_paginas] (fresh ∅ 0)).2 =
    FileResponse "temp_outputs/Unido_0.pdf" "PDFlex_Unido.pdf"
      [("X-Success-Message", "Unión exitosa")] /\
  fs (api_unir lib_demo [documento; cinco_paginas] (fresh ∅ 0)).1
    !! "temp_outputs/Unido_0.pdf" =
    Some [Byte.x25; Byte.x50; Byte.x31; Byte.x32; Byte.x33; Byte.x34; Byte.x35].
Proof.
  assert (Forall2 (documento_valido lib_demo) [documento; cinco_paginas]
            [file documento; file cinco_paginas]) as Hfiles.
  { constructor; [|constructor; [|constructor]].
    - split; [by exists ".pdf"|]. split; [|done]. unfold MAX_MB_PER_FILE. simpl. lia.
    - split; [by exists ".pdf"|]. split; [|done]. unfold MAX_MB_PER_FILE. simpl. lia. }
  pose proof (api_unir_concatena lib_demo [documento; cinco_paginas]
                [file documento; file cinco_paginas] (fresh ∅ 0)
                ltac:(done) Hfiles) as (Hr & Hfs & _).
  split; [exact Hr|exact Hfs].
Defined.

(* ===================================================================== *)
(** * The compress route                                                *)
(* ===================================================================== *)

Section Comprimir.
Context {page : Type} (lib : Collaborators page).

(** One turn of the loop of the compress route that goes through. *)
Lemma comprimir_file_Ok (f : UploadFile) (w w' : World) (l l' : comprimir_locals) :
  comprimir_file lib f (w, l) = ((w', l'), Ok tt) ->
  exists data,
    comprimido lib f = Ok data /\
    l' = mkComprimirLocals (processed_files l ++ [mini_path lib (S (uuid_draws w))])
           (temp_inputs l ++ [PyStr.join UPLOAD_DIR (uuid4_hex lib (uuid_draws w) +:+ ".pdf")])
           (total_orig l + Z.of_nat (length (file f)))
           (total_comp l + Z.of_nat (length data)) /\
    fs w' !! mini_path lib (S (uuid_draws w)) = Some data /\
    uuid_draws w' = S (S (uuid_draws w)).
Proof.
  unfold comprimir_file, comprimido.
  unfold bind at 1. unfold lift_result at 1.
  destruct (validar_extension (filename f) {[ ".pdf" ]}) as [ext|e]; [|done].
  unfold bind at 1. unfold in_world at 1, uuid4 at 1, uuid4_draw. cbn [fst snd].
  unfold bind at 1. unfold in_world at 1. cbn [fst snd].
  rewrite guardar_con_limite_eq by done.
  cbn [fst snd fs uuid_draws background_tasks created borrados].
  destruct (_ >? _)%Z; [done|].
  unfold bind at 1. unfold set_locals at 1. cbn [fst snd].
  unfold bind at 1. unfold in_world at 1, os_path_getsize at 1.
  cbn [fst snd fs uuid_draws background_tasks created borrados].
  rewrite lookup_insert_eq.
  unfold bind at 1. unfold set_locals at 1.
  cbn [fst snd processed_files temp_inputs total_orig total_comp].
  unfold bind at 1. unfold in_world at 1, PdfReader, bind at 1, read_file.
  cbn [fst snd fs uuid_draws background_tasks created borrados].
  rewrite lookup_insert_eq. unfold lift_result at 1.
  destruct (PdfReader_pages lib (file f)) as [reader_pages|e]; [|done].
  unfold bind at 1. unfold lift_result at 1.
  destruct (map_result (compress_content_streams lib) reader_pages)
    as [writer_pages|e]; [|done].
  unfold bind at 1. unfold in_world at 1, uuid4 at 1, uuid4_draw. cbn [fst snd].
  unfold bind at 1. unfold in_world at 1, write_pdf, bind at 1, open_wb.
  cbn [fst snd fs uuid_draws background_tasks created borrados].
  destruct (PdfWriter_write lib writer_pages) as [data [e|]]; [done|].
  unfold bind at 1, write at 1, ret at 1, with_fs. cbn [fst snd fs].
  rewrite alter_insert_eq. cbn [app].
  unfold bind at 1. unfold in_world at 1, os_path_getsize at 1.
  cbn [fst snd fs uuid_draws background_tasks created borrados].
  rewrite lookup_insert_eq.
  unfold bind at 1. unfold set_locals at 1.
  cbn [fst snd processed_files temp_inputs total_orig total_comp].
  unfold set_locals. cbn [fst snd processed_files temp_inputs total_orig total_comp].
  intros [= <- <-]. eexists. split; [done|]. split; [done|].
  cbn [fs uuid_draws]. split; [apply lookup_insert_eq|done].
Qed.

Lemma comprimir_files_Ok (files : list UploadFile) :
  forall (w w' : World) (l l' : comprimir_locals),
  for_each files (comprimir_file lib) (w, l) = ((w', l'), Ok tt) ->
  exists datas,
    Forall2 (fun f data => comprimido lib f = Ok data) files datas /\
    processed_files l' =
      processed_files l ++
      ((fun i => mini_path lib (uuid_draws w + 2 * i + 1)) <$> seq 0 (length files)) /\
    total_orig l' = (total_orig l + total_bytes (file <$> files))%Z /\
    total_comp l' = (total_comp l + total_bytes datas)%Z /\
    uuid_draws w' = uuid_draws w + 2 * length files.
Proof.
  induction files as [|f files IH]; intros w w' l l'.
  - simpl. intros [= <- <-]. exists []. simpl.
    rewrite app_nil_r, !Z.add_0_r. split; [constructor|]. repeat split; lia.
  - simpl for_each. unfold bind.
    destruct (comprimir_file lib f (w, l)) as [[w1 l1] [[]|e]] eqn:Hf; [|done].
    intros Hrest.
    apply comprimir_file_Ok in Hf as (data & Hdata & -> & _ & Hd).
    apply IH in Hrest as (datas & Hall & Hp & Ho & Hc & Hd').
    cbn [processed_files total_orig total_comp] in *.
    exists (data :: datas).
    split; [by constructor|]. rewrite Hp, Ho, Hc, Hd', Hd, <- app_assoc.
    split.
    { f_equal. cbn [length seq fmap list_fmap app].
      replace (uuid_draws w + 2 * 0 + 1) with (S (uuid_draws w)) by lia.
      f_equal. rewrite <- fmap_S_seq, <- list_fmap_compose. apply list_fmap_ext.
      intros i x _. simpl. f_equal. lia. }
    split; [unfold total_bytes; cbn [fmap list_fmap foldr]; by rewrite Z.add_assoc|].
    split; [unfold total_bytes; cbn [foldr]; by rewrite Z.add_assoc|].
    simpl. lia.
Qed.

(** X9.  Whenever the compress route serves a file, every upload of the
    request went through (its compressed form is [comprimido]); the
    [X-Savings-Percent] header is the percentage computed from the sum of
    the sizes of the uploads and the sum of the sizes of the compressed
    documents; and the request with exactly one upload is served that
    compressed document under the name ["PDFlex_Comprimido.pdf"], any
    other an archive under the name ["PDFlex_Pack.zip"], named by the
    draw that follows the two draws of each upload. *)
Theorem api_comprimir_descarga (files : list UploadFile) (w : World)
    (path name : string) (headers : list (string * string)) :
  (api_comprimir lib files w).2 = FileResponse path name headers ->
  exists datas pct,
    Forall2 (fun f data => comprimido lib f = Ok data) files datas /\
    porcentaje (total_bytes (file <$> files)) (total_bytes datas) = Ok pct /\
    headers = [("Access-Control-Expose-Headers", "X-Savings-Percent");
               ("X-Savings-Percent", pretty pct)] /\
    (path, name) =
      (if decide (length files = 1)
       then (mini_path lib (S (uuid_draws w)), "PDFlex_Comprimido.pdf")
       else (pack_path lib (uuid_draws w + 2 * length files), "PDFlex_Pack.zip")).
Proof.
  unfold api_comprimir. destruct files as [|f0 files0] eqn:Hfiles; [done|].
  rewrite <- Hfiles. unfold try_except.
  destruct (comprimir_try lib files (w, mkComprimirLocals [] [] 0 0))
    as [[w1 l1] [r|e]] eqn:Htry; [|done].
  cbn [snd]. intros ->. revert Htry.
  unfold comprimir_try. unfold bind at 1.
  destruct (for_each files (comprimir_file lib) (w, mkComprimirLocals [] [] 0 0))
    as [[w' l'] [[]|e]] eqn:Hloop; [|done].
  apply comprimir_files_Ok in Hloop as (datas & Hall & Hp & Ho & Hc & Hd).
  cbn [processed_files total_orig total_comp] in Hp, Ho, Hc.
  rewrite app_nil_l in Hp. rewrite Z.add_0_l in Ho, Hc.
  unfold bind at 1. unfold get_locals at 1. cbn [fst snd].
  rewrite Hp, length_fmap, length_seq.
  destruct (decide (length files = 1)) as [Hone|Hmany].
  - rewrite Hone. simpl Z.eqb. cbv iota.
    unfold bind at 1. unfold bind at 1. unfold lift_result at 1.
    cbn [seq fmap list_fmap].
    change (py_index [mini_path lib (uuid_draws w + 2 * 0 + 1)] 0)
      with (Ok (mini_path lib (uuid_draws w + 2 * 0 + 1))).
    unfold ret at 1.
    unfold bind at 1. unfold get_locals at 1. cbn [fst snd].
    unfold bind at 1. unfold lift_result at 1. rewrite Ho, Hc.
    destruct (porcentaje _ _) as [pct|e] eqn:Hpct; [|done].
    unfold bind, in_world, add_task, ret. cbn [fst snd].
    intros [= _ _ <- <- <-]. exists datas, pct.
    split; [done|]. split; [done|]. split; [done|].
    do 2 f_equal. unfold mini_path. do 3 f_equal. lia.
  - destruct (_ =? _)%Z eqn:E; [apply Z.eqb_eq in E; lia|].
    unfold bind at 1. unfold bind at 1. unfold in_world at 1, uuid4 at 1, uuid4_draw.
    cbn [fst snd].
    unfold bind at 1.
    match goal with |- context [in_world (write_zip lib ?p ?ps) ?s] =>
      destruct (in_world (write_zip lib p ps) s) as [[w2 l2] [[]|e]] eqn:Hzip
    end; [|done].
    assert (l2 = l') as ->.
    { revert Hzip. unfold in_world. cbn [fst snd].
      destruct (write_zip _ _ _ _) as [? ?]. by intros [= _ <- _]. }
    unfold bind at 1. unfold set_locals at 1. unfold ret at 1. cbn [fst snd].
    unfold bind at 1. unfold get_locals at 1.
    cbn [fst snd processed_files temp_inputs total_orig total_comp].
    unfold bind at 1. unfold lift_result at 1. rewrite Ho, Hc.
    destruct (porcentaje _ _) as [pct|e] eqn:Hpct; [|done].
    unfold bind, in_world, add_task, ret. cbn [fst snd].
    intros [= _ _ <- <- <-]. exists datas, pct.
    split; [done|]. split; [done|]. split; [done|].
    by rewrite Hd.
Qed.

End Comprimir.

Lemma api_comprimir_descarga_witness :
  exists pct,
    porcentaje 2 2 = Ok pct /\
    (api_comprimir lib_demo [documento] (fresh ∅ 0)).2 =
      FileResponse "temp_outputs/Mini_1.pdf" "PDFlex_Comprimido.pdf"
        [("Access-Control-Expose-Headers", "X-Savings-Percent");
         ("X-Savings-Percent", pretty pct)].
Proof.
  assert ((api_comprimir lib_demo [documento] (fresh ∅ 0)).2 =
          FileResponse "temp_outputs/Mini_1.pdf" "PDFlex_Comprimido.pdf"
            [("Access-Control-Expose-Headers", "X-Savings-Percent");
             ("X-Savings-Percent", "0")]) as Hrun by (vm_compute; reflexivity).
  destruct (api_comprimir_descarga lib_demo [documento] (fresh ∅ 0) _ _ _ Hrun)
    as (datas & pct & Hall & Hpct & Hh & _).
  apply Forall2_cons_inv_l in Hall as (data & datas' & Hdata & Hnil & ->).
  apply Forall2_nil_inv_l in Hnil as ->.
  injection Hdata as <-.
  exists pct. split; [exact Hpct|]. by rewrite <- Hh.
Defined.

Section ComprimirUno.
Context {page : Type} (lib : Collaborators page).

(** X8.  On one upload that is accepted, fits the limit and that the
    libraries compress into [data]: the compress route serves the
    compressed document itself, not an archive, under the name
    ["PDFlex_Comprimido.pdf"]; the file served holds [data]; the header
    carries the percentage computed from the size of the upload and the
    size of [data]; the cleanup of the upload and of the output is
    scheduled; and two identifiers have been drawn. *)
Theorem api_comprimir_un_archivo (upload : UploadFile) (w : World)
    (ext : string) (data : list Byte.byte) :
  validar_extension (filename upload) {[ ".pdf" ]} = Ok ext ->
  (Z.of_nat (length (file upload)) <= MAX_MB_PER_FILE * 1024 * 1024)%Z ->
  comprimido lib upload = Ok data ->
  let input_path := PyStr.join UPLOAD_DIR (uuid4_hex lib (uuid_draws w) +:+ ".pdf") in
  let output_path :=
    PyStr.join OUTPUT_DIR ("Mini_" +:+ uuid4_hex lib (S (uuid_draws w)) +:+ ".pdf") in
  let out := api_comprimir lib [upload] w in
  match porcentaje (Z.of_nat (length (file upload))) (Z.of_nat (length data)) with
  | Ok pct =>
      out.2 = FileResponse output_path "PDFlex_Comprimido.pdf"
                [("Access-Control-Expose-Headers", "X-Savings-Percent");
                 ("X-Savings-Percent", pretty pct)] /\
      fs out.1 !! output_path = Some data /\
      background_tasks out.1 = background_tasks w ++ [[input_path; output_path]] /\
      uuid_draws out.1 = S (S (uuid_draws w))
  | Raise e => out.2 = JSONResponse 500 (str e)
  end.
Proof.
  intros Hval Hfit Hdata. cbv zeta.
  set (input_path := PyStr.join UPLOAD_DIR (uuid4_hex lib (uuid_draws w) +:+ ".pdf")).
  set (output_path :=
         PyStr.join OUTPUT_DIR ("Mini_" +:+ uuid4_hex lib (S (uuid_draws w)) +:+ ".pdf")).
  set (w2 := mkWorld (<[output_path := data]> (<[input_path := file upload]> (fs w)))
                     (S (S (uuid_draws w))) (background_tasks w)
                     ((created w ++ [(input, input_path)]) ++ [(output, output_path)])
                     (borrados w)).
  assert (comprimir_file lib upload (w, mkComprimirLocals [] [] 0 0) =
          ((w2, mkComprimirLocals [output_path] [input_path]
                  (Z.of_nat (length (file upload))) (Z.of_nat (length data))), Ok tt))
    as Hfile.
  { revert Hdata. unfold comprimir_file, comprimido.
    unfold bind at 1. unfold lift_result at 1. rewrite Hval.
    unfold bind at 1. unfold in_world at 1, uuid4 at 1, uuid4_draw. cbn [fst snd].
    unfold bind at 1. unfold in_world at 1. cbn [fst snd].
    rewrite guardar_con_limite_eq by done.
    cbn [fst snd fs uuid_draws background_tasks created borrados].
    destruct (_ >? _)%Z eqn:E; [apply Z.gtb_gt in E; lia|]. clear E.
    unfold bind at 1. unfold set_locals at 1. cbn [fst snd].
    unfold bind at 1. unfold in_world at 1, os_path_getsize at 1.
    cbn [fst snd fs uuid_draws background_tasks created borrados].
    rewrite lookup_insert_eq.
    unfold bind at 1. unfold set_locals at 1.
    cbn [fst snd processed_files temp_inputs total_orig total_comp].
    unfold bind at 1. unfold in_world at 1, PdfReader, bind at 1, read_file.
    cbn [fst snd fs uuid_draws background_tasks created borrados].
    rewrite lookup_insert_eq. unfold lift_result at 1.
    destruct (PdfReader_pages lib (file upload)) as [reader_pages|e]; [|done].
    unfold bind at 1. unfold lift_result at 1.
    destruct (map_result (compress_content_streams lib) reader_pages)
      as [writer_pages|e]; [|done].
    unfold bind at 1. unfold in_world at 1, uuid4 at 1, uuid4_draw. cbn [fst snd].
    unfold bind at 1. unfold in_world at 1, write_pdf, bind at 1, open_wb.
    cbn [fst snd fs uuid_draws background_tasks created borrados].
    destruct (PdfWriter_write lib writer_pages) as [data' [e|]]; [done|].
    intros [= ->].
    unfold bind at 1, write at 1, ret at 1, with_fs. cbn [fst snd fs].
    rewrite alter_insert_eq. cbn [app].
    unfold bind at 1. unfold in_world at 1, os_path_getsize at 1.
    cbn [fst snd fs uuid_draws background_tasks created borrados].
    rewrite lookup_insert_eq.
    unfold bind at 1. unfold set_locals at 1.
    cbn [fst snd processed_files temp_inputs total_orig total_comp].
    unfold set_locals. cbn [fst snd processed_files temp_inputs total_orig total_comp].
    reflexivity. }
  assert (comprimir_try lib [upload] (w, mkComprimirLocals [] [] 0 0) =
          (pct <- lift_result (porcentaje (Z.of_nat (length (file upload)))
                                 (Z.of_nat (length data))) ;;
           in_world (add_task [input_path; output_path]) ;;
           ret (FileResponse output_path "PDFlex_Comprimido.pdf"
                  [("Access-Control-Expose-Headers", "X-Savings-Percent");
                   ("X-Savings-Percent", pretty pct)]))
            (w2, mkComprimirLocals [output_path] [input_path]
                   (Z.of_nat (length (file upload))) (Z.of_nat (length data)))) as Htry.
  { unfold comprimir_try. cbn [for_each].
    unfold bind at 1. unfold bind at 1. rewrite Hfile. reflexivity. }
  unfold api_comprimir, try_except. rewrite Htry. clear Htry Hfile.
  unfold bind at 1. unfold lift_result at 1.
  destruct (porcentaje _ _) as [pct|e]; [|done].
  unfold bind, in_world, add_task, ret. cbn [fst snd fs background_tasks uuid_draws].
  split; [done|]. split; [apply lookup_insert_eq|done].
Qed.

End ComprimirUno.

Lemma api_comprimir_un_archivo_witness :
  (api_comprimir lib_demo [documento] (fresh ∅ 0)).2 =
    FileResponse "temp_outputs/Mini_1.pdf" "PDFlex_Comprimido.pdf"
      [("Access-Control-Expose-Headers", "X-Savings-Percent");
       ("X-Savings-Percent", "0")] /\
  fs (api_comprimir lib_demo [documento] (fresh ∅ 0)).1 !! "temp_outputs/Mini_1.pdf" =
    Some [Byte.x25; Byte.x50].
Proof.
  assert (Z.of_nat (length (file documento)) <= MAX_MB_PER_FILE * 1024 * 1024)%Z
    as Hfit by (unfold MAX_MB_PER_FILE; simpl; lia).
  pose proof (api_comprimir_un_archivo lib_demo documento (fresh ∅ 0) ".pdf"
                (file documento) eq_refl Hfit eq_refl) as H.
  cbv zeta in H.
  change (porcentaje (Z.of_nat (length (file documento)))
            (Z.of_nat (length (file documento)))) with (Ok 0%Z : result Z) in H.
  destruct H as (Hr & Hfs & _). split; [exact Hr|exact Hfs].
Defined.

(* ===================================================================== *)
(** * The ledger, recorded late                                           *)
(* ===================================================================== *)

(** An upload never has the path of an output whose name is not absolute. *)
Lemma rutas_distintas (x y : string) :
  PyStr.startswith y "/" = false ->
  PyStr.join UPLOAD_DIR x <> PyStr.join OUTPUT_DIR y.
Proof.
  intros Hy. unfold PyStr.join. rewrite Hy.
  destruct (PyStr.startswith x "/") eqn:Hx.
  - destruct x as [|a x]; [done|]. simpl in Hx. apply Ascii.eqb_eq in Hx as ->.
    discriminate.
  - discriminate.
Qed.

Section LedgerTardio.
Context {page : Type} (lib : Collaborators page).

Lemma unir_files_rutas (files : list UploadFile) (pagess : list (list page)) :
  Forall2 (documento_valido lib) files pagess ->
  forall (w : World) (l : unir_locals),
  exists w' paths,
    for_each files (unir_file lib) (w, l) =
      ((w', mkUnirLocals (merger l ++ concat pagess) (unir_temp_paths l ++ paths)), Ok tt) /\
    Forall (fun p => exists n, p = PyStr.join UPLOAD_DIR (uuid4_hex lib n +:+ ".pdf")) paths /\
    length paths = length files /\
    borrados w' = borrados w /\
    background_tasks w' = background_tasks w /\
    created w' = created w ++ ((fun p => (input, p)) <$> paths).
Proof.
  induction 1 as [|f pages files pagess Hf _ IH]; intros w l.
  - exists w, []. simpl. rewrite !app_nil_r. by destruct l.
  - simpl for_each. unfold bind. rewrite (unir_file_valido lib f pages w l Hf).
    match goal with |- context [for_each files _ (?w1, ?l1)] =>
      destruct (IH w1 l1) as (w' & paths & -> & Hall & Hlen & Hb & Ht & Hc)
    end.
    exists w', (PyStr.join UPLOAD_DIR (uuid4_hex lib (uuid_draws w) +:+ ".pdf") :: paths).
    cbn [merger unir_temp_paths concat borrados background_tasks created] in *.
    rewrite <- !app_assoc. simpl. split; [done|].
    split; [constructor; [by eexists|done]|]. split; [by rewrite Hlen|].
    split; [done|]. split; [done|]. by rewrite Hc, <- app_assoc.
Qed.

(** C4, where the code departs from it.  A route records the path of an
    output after the step that creates and fills it has returned, not in
    the step that creates it.  When the writer raises after [open] has
    created the output, the path is in no ledger.  In the merge route,
    whatever the documents and whatever the libraries: the answer is the
    error of the writer, the output file is in the workspace with what
    the writer had written, no task is scheduled, and the one call of
    [borrar_archivos] is on the uploads, a list that does not hold the
    output.  In the compress route, for one document, likewise.  And at
    the failing inputs: a one-page document sent to either route, with a
    writer that raises while it serialises, leaves a world whose ledger is
    not complete. *)
Theorem salida_registrada_tarde :
  (forall (files : list UploadFile) (pagess : list (list page)) (w : World)
          (data : list Byte.byte) (e : exception),
     files <> [] ->
     Forall2 (documento_valido lib) files pagess ->
     PdfWriter_write lib (concat pagess) = (data, Some e) ->
     let output_path :=
       PyStr.join OUTPUT_DIR ("Unido_" +:+ uuid4_hex lib (uuid_draws w) +:+ ".pdf") in
     let out := api_unir lib files w in
     out.2 = JSONResponse 500 (str e) /\
     (output, output_path) ∈ created out.1 /\
     fs out.1 !! output_path = Some data /\
     background_tasks out.1 = background_tasks w /\
     exists paths, borrados out.1 = borrados w ++ [paths] /\
                   length paths = length files /\
                   output_path ∉ paths) /\
  (forall (upload : UploadFile) (w : World) (ext : string) (pages writer_pages : list page)
          (data : list Byte.byte) (e : exception),
     validar_extension (filename upload) {[ ".pdf" ]} = Ok ext ->
     (Z.of_nat (length (file upload)) <= MAX_MB_PER_FILE * 1024 * 1024)%Z ->
     PdfReader_pages lib (file upload) = Ok pages ->
     map_result (compress_content_streams lib) pages = Ok writer_pages ->
     PdfWriter_write lib writer_pages = (data, Some e) ->
     let input_path := PyStr.join UPLOAD_DIR (uuid4_hex lib (uuid_draws w) +:+ ".pdf") in
     let output_path := mini_path lib (S (uuid_draws w)) in
     let out := api_comprimir lib [upload] w in
     out.2 = JSONResponse 500 (str e) /\
     created out.1 = created w ++ [(input, input_path); (output, output_path)] /\
     fs out.1 !! output_path = Some data /\
     background_tasks out.1 = background_tasks w /\
     borrados out.1 = borrados w ++ [[input_path]] /\
     output_path ∉ [input_path]) /\
  ledger_completo (serve lib_escritura_falla (PostUnir [documento]) (fresh ∅ 0)).1 = false /\
  ledger_completo (serve lib_escritura_falla (PostComprimir [documento]) (fresh ∅ 0)).1 = false.
Proof.
  split; [|split; [|split; by vm_compute]].
  - intros files pagess w data e Hne Hfiles Hwrite. cbv zeta.
    set (output_path :=
           PyStr.join OUTPUT_DIR ("Unido_" +:+ uuid4_hex lib (uuid_draws w) +:+ ".pdf")).
    set (w0 := mkWorld (fs w) (S (uuid_draws w)) (background_tasks w) (created w)
                       (borrados w)).
    destruct (unir_files_rutas files pagess Hfiles w0 (mkUnirLocals [] []))
      as (w' & paths & Hloop & Hall & Hlen & Hb & Ht & Hc).
    cbn [merger unir_temp_paths] in Hloop. rewrite !app_nil_l in Hloop.
    unfold w0 in Hb, Ht, Hc. cbn [borrados background_tasks created] in Hb, Ht, Hc.
    assert (api_unir lib files w =
            try_except (unir_try lib files output_path) unir_temp_paths
              (mkUnirLocals [] []) w0) as ->.
    { destruct files; [done|reflexivity]. }
    assert (unir_try lib files output_path (w0, mkUnirLocals [] []) =
            ((mkWorld (<[output_path := data]> (fs w')) (uuid_draws w')
                      (background_tasks w') (created w' ++ [(output, output_path)])
                      (borrados w'), mkUnirLocals (concat pagess) paths), Raise e))
      as Htry.
    { unfold unir_try. unfold bind at 1. rewrite Hloop.
      unfold bind at 1. unfold get_locals at 1. cbn [fst snd merger].
      unfold bind at 1. unfold in_world at 1, write_pdf, bind at 1, open_wb.
      cbn [fst snd fs uuid_draws background_tasks created borrados].
      rewrite Hwrite. unfold bind, write, raise, with_fs. cbn [fst snd fs].
      by rewrite alter_insert_eq. }
    unfold try_except. rewrite Htry. clear Htry Hloop. cbn [fst snd unir_temp_paths].
    destruct (borrar_archivos_spec paths
                (mkWorld (<[output_path := data]> (fs w')) (uuid_draws w')
                   (background_tasks w') (created w' ++ [(output, output_path)])
                   (borrados w'))) as (Hfs & Ht' & Hc' & Hb').
    cbv zeta in *. cbn [fs background_tasks created borrados] in *.
    assert (output_path ∉ paths) as Hout.
    { intros Hin. rewrite Forall_forall in Hall. destruct (Hall _ Hin) as [n Hn].
      symmetry in Hn. by apply rutas_distintas in Hn. }
    split; [done|]. split; [rewrite Hc'; apply elem_of_app; right; apply list_elem_of_here|].
    split; [rewrite Hfs, decide_False by done; apply lookup_insert_eq|].
    split; [by rewrite Ht', Ht|].
    exists paths. by rewrite Hb', Hb.
  - intros upload w ext pages writer_pages data e Hval Hfit Hread Hcomp Hwrite. cbv zeta.
    set (input_path := PyStr.join UPLOAD_DIR (uuid4_hex lib (uuid_draws w) +:+ ".pdf")).
    set (output_path := mini_path lib (S (uuid_draws w))).
    set (w2 := mkWorld (<[output_path := data]> (<[input_path := file upload]> (fs w)))
                       (S (S (uuid_draws w))) (background_tasks w)
                       ((created w ++ [(input, input_path)]) ++ [(output, output_path)])
                       (borrados w)).
    assert (comprimir_file lib upload (w, mkComprimirLocals [] [] 0 0) =
            ((w2, mkComprimirLocals [] [input_path]
                    (Z.of_nat (length (file upload))) 0), Raise e)) as Hfile.
    { unfold comprimir_file.
      unfold bind at 1. unfold lift_result at 1. rewrite Hval.
      unfold bind at 1. unfold in_world at 1, uuid4 at 1, uuid4_draw. cbn [fst snd].
      unfold bind at 1. unfold in_world at 1. cbn [fst snd].
      rewrite guardar_con_limite_eq by done.
      cbn [fst snd fs uuid_draws background_tasks created borrados].
      destruct (_ >? _)%Z eqn:E; [apply Z.gtb_gt in E; lia|]. clear E.
      unfold bind at 1. unfold set_locals at 1. cbn [fst snd].
      unfold bind at 1. unfold in_world at 1, os_path_getsize at 1.
      cbn [fst snd fs uuid_draws background_tasks created borrados].
      rewrite lookup_insert_eq.
      unfold bind at 1. unfold set_locals at 1.
      cbn [fst snd processed_files temp_inputs total_orig total_comp].
      unfold bind at 1. unfold in_world at 1, PdfReader, bind at 1, read_file.
      cbn [fst snd fs uuid_draws background_tasks created borrados].
      rewrite lookup_insert_eq. unfold lift_result at 1. rewrite Hread.
      unfold bind at 1. unfold lift_result at 1. rewrite Hcomp.
      unfold bind at 1. unfold in_world at 1, uuid4 at 1, uuid4_draw. cbn [fst snd].
      unfold bind at 1. unfold in_world at 1, write_pdf, bind at 1, open_wb.
      cbn [fst snd fs uuid_draws background_tasks created borrados].
      rewrite Hwrite.
      unfold bind, write, raise, with_fs. cbn [fst snd fs app].
      by rewrite alter_insert_eq. }
    assert (api_comprimir lib [upload] w =
            ((borrar_archivos [input_path] w2).1, JSONResponse 500 (str e))) as ->.
    { unfold api_comprimir, try_except, comprimir_try. cbn [for_each].
      unfold bind at 1. unfold bind at 1. rewrite Hfile. reflexivity. }
    cbn [fst snd].
    destruct (borrar_archivos_spec [input_path] w2) as (Hfs & Ht' & Hc' & Hb').
    cbv zeta in *.
    assert (output_path ∉ [input_path]) as Hout.
    { intros Hin%list_elem_of_singleton. symmetry in Hin.
      by apply rutas_distintas in Hin. }
    split; [done|].
    split; [rewrite Hc'; unfold w2; cbn [created]; by rewrite <- app_assoc|].
    split; [rewrite Hfs, decide_False by done; apply lookup_insert_eq|].
    split; [done|]. split; [done|]. exact Hout.
Qed.

End LedgerTardio.

Lemma salida_registrada_tarde_witness :
  fs (api_unir lib_escritura_falla [documento] (fresh ∅ 0)).1
    !! "temp_outputs/Unido_0.pdf" = Some [] /\
  borrados (api_comprimir lib_escritura_falla [documento] (fresh ∅ 0)).1 =
    [["temp_uploads/0.pdf"]].
Proof.
  assert (Forall2 (documento_valido lib_escritura_falla) [documento] [file documento])
    as Hfiles.
  { constructor; [|constructor].
    split; [by exists ".pdf"|]. split; [|done]. unfold MAX_MB_PER_FILE. simpl. lia. }
  split.
  - pose proof (proj1 (salida_registrada_tarde lib_escritura_falla) [documento]
                  [file documento] (fresh ∅ 0) [] (OtherException "PdfReadError")
                  ltac:(done) Hfiles eq_refl) as (_ & _ & Hfs & _).
    exact Hfs.
  - pose proof (proj1 (proj2 (salida_registrada_tarde lib_escritura_falla)) documento
                  (fresh ∅ 0) ".pdf" (file documento) (file documento) []
                  (OtherException "PdfReadError") eq_refl
                  ltac:(unfold MAX_MB_PER_FILE; simpl; lia) eq_refl eq_refl eq_refl)
      as (_ & _ & _ & _ & Hb & _).
    exact Hb.
Defined.

(* ===================================================================== *)
(** * The startup cleanup                                               *)
(* ===================================================================== *)

Lemma strip_prefix_app (pre s : string) : strip_prefix pre (pre +:+ s) = Some s.
Proof.
  induction pre as [|a pre IH]; [by destruct s|].
  change (String a pre +:+ s) with (String a (pre +:+ s)). simpl.
  by rewrite Ascii.eqb_refl.
Qed.

Lemma strip_prefix_Some (pre s rest : string) :
  strip_prefix pre s = Some rest -> s = pre +:+ rest.
Proof.
  revert s. induction pre as [|a pre IH]; intros s; simpl.
  - by intros [= ->].
  - destruct s as [|b s]; [done|].
    destruct (Ascii.eqb a b) eqn:E; [|done]. apply Ascii.eqb_eq in E as ->.
    intros H. apply IH in H as ->. done.
Qed.

Lemma primer_componente_sin_sep (s : string) :
  PyStr.contains "/" (primer_componente s) = false.
Proof.
  induction s as [|a s IH]; [done|]. simpl.
  destruct (Ascii.eqb a "/") eqn:E; [done|]. simpl. by rewrite E.
Qed.

Lemma primer_componente_id (s : string) :
  PyStr.contains "/" s = false -> primer_componente s = s.
Proof.
  induction s as [|a s IH]; [done|]. simpl.
  intros [-> H]%orb_false_iff. by rewrite IH.
Qed.

Lemma app_empty_r (s : string) : s +:+ "" = s.
Proof.
  induction s as [|a s IH]; [done|].
  change (String a s +:+ "") with (String a (s +:+ "")). by rewrite IH.
Qed.

(** [os.path.join(dir, name)] is [os.path.join(dir, "") + name] for a name
    that is not absolute. *)
Lemma join_relativo (dir_path name : string) :
  PyStr.startswith name "/" = false ->
  PyStr.join dir_path name = PyStr.join dir_path "" +:+ name.
Proof.
  intros Hname. unfold PyStr.join. rewrite Hname. simpl PyStr.startswith. cbv iota.
  destruct (_ || _).
  - by rewrite app_empty_r.
  - change ("/" +:+ "") with "/". change ("/" +:+ name) with (String "/" name).
    apply PyStrAppend.app_snoc.
Qed.

Lemma nombre_relativo (name : string) :
  name <> "" -> PyStr.contains "/" name = false -> PyStr.startswith name "/" = false.
Proof.
  destruct name as [|a name]; [done|]. simpl. by intros _ [-> _]%orb_false_iff.
Qed.

Lemma eqb_empty (s : string) : String.eqb s "" = false <-> s <> "".
Proof. by destruct s. Qed.

Lemma limpiar_entradas_borrar (dir_path : string) (filenames : list string) (w : World) :
  limpiar_entradas dir_path filenames w =
  borrar_paths (PyStr.join dir_path <$> filenames) w.
Proof.
  revert w. induction filenames as [|filename filenames IH]; intros w; [done|].
  simpl. apply IH.
Qed.

(** The names [os.listdir] returns: those of the entries under which some
    file or some directory lies. *)
Lemma elem_of_listdir (directorios : gset string) (dir_path name : string) (w : World) :
  name ∈ nombres_de directorios dir_path w <->
  exists path, (is_Some (fs w !! path) \/ path ∈ directorios) /\
               entrada dir_path path = Some name.
Proof.
  unfold nombres_de. rewrite elem_of_remove_dups, list_elem_of_omap. split.
  - intros (path & Hin & He). exists path. split; [|done].
    apply elem_of_app in Hin as [Hin|Hin].
    + apply list_elem_of_fmap in Hin as ([p c] & -> & Hin).
      apply elem_of_map_to_list in Hin. simpl. eauto.
    + right. by apply elem_of_elements.
  - intros (path & [[c Hc]|Hd] & He); exists path; (split; [|done]);
      apply elem_of_app.
    + left. apply list_elem_of_fmap. exists (path, c). split; [done|].
      by apply elem_of_map_to_list.
    + right. by apply elem_of_elements.
Qed.

Lemma hijo_entrada (dir_path path : string) :
  hijo dir_path path = true ->
  exists name, entrada dir_path path = Some name /\ path = PyStr.join dir_path name.
Proof.
  unfold hijo, entrada.
  destruct (strip_prefix (PyStr.join dir_path "") path) as [rest|] eqn:Hs; [|done].
  intros [Hne Hsep]%andb_true_iff.
  apply negb_true_iff in Hne, Hsep. exists rest.
  rewrite primer_componente_id by done. cbv zeta. rewrite Hne. split; [done|].
  apply strip_prefix_Some in Hs as ->. symmetry. apply join_relativo.
  apply nombre_relativo; [by apply eqb_empty|done].
Qed.

Lemma entrada_hijo (dir_path path name : string) :
  entrada dir_path path = Some name -> hijo dir_path (PyStr.join dir_path name) = true.
Proof.
  unfold entrada, hijo.
  destruct (strip_prefix (PyStr.join dir_path "") path) as [rest|]; [|done].
  cbv zeta. destruct (String.eqb (primer_componente rest) "") eqn:Hne; [done|].
  intros [= <-].
  rewrite (join_relativo dir_path (primer_componente rest)).
  - rewrite strip_prefix_app, Hne, primer_componente_sin_sep. done.
  - apply nombre_relativo; [by apply eqb_empty|apply primer_componente_sin_sep].
Qed.

(** What [limpiar_inicio] does to the world, on a directory. *)
Lemma limpiar_inicio_efecto (directorios : gset string) (dir_path : string) (w : World)
    (p : string) :
  es_directorio directorios dir_path w = true ->
  let out := limpiar_inicio directorios dir_path w in
  out.2 = Ok tt /\
  fs out.1 !! p = (if hijo dir_path p then None else fs w !! p) /\
  uuid_draws out.1 = uuid_draws w /\
  background_tasks out.1 = background_tasks w /\
  created out.1 = created w /\
  borrados out.1 = borrados w.
Proof.
  intros Hdir. cbv zeta. unfold limpiar_inicio, bind, os_listdir. rewrite Hdir.
  cbn [fst snd].
  rewrite limpiar_entradas_borrar. split; [done|]. split; [|apply borrar_paths_history].
  rewrite borrar_paths_fs.
  destruct (hijo dir_path p) eqn:Hp.
  - destruct (decide _) as [|Hout]; [done|].
    destruct (fs w !! p) as [c|] eqn:Hc; [|done]. exfalso. apply Hout.
    apply hijo_entrada in Hp as (name & He & ->).
    apply list_elem_of_fmap. exists name. split; [done|].
    apply elem_of_listdir. eexists. split; [|exact He]. eauto.
  - destruct (decide _) as [Hin|]; [|done]. exfalso.
    apply list_elem_of_fmap in Hin as (name & -> & Hin).
    apply elem_of_listdir in Hin as (path & _ & He).
    apply entrada_hijo in He. congruence.
Qed.


Lemma hijo_join (dir_path name : string) :
  name <> "" -> PyStr.contains "/" name = false ->
  hijo dir_path (PyStr.join dir_path name) = true.
Proof.
  intros Hne Hsep. unfold hijo.
  rewrite (join_relativo dir_path name) by by apply nombre_relativo.
  rewrite strip_prefix_app, Hsep. by apply eqb_empty in Hne as ->.
Qed.

Lemma app_no_vacio (p q : string) : q <> "" -> p +:+ q <> "".
Proof. intros Hq. destruct p; [done|]. discriminate. Qed.

(** X13.  What the module has done when it is loaded: the regular files
    directly inside the upload directory and the output directory are
    gone and every other file is as it was.  So no path that a request
    can create, for identifiers without a separator, is taken when the
    first request arrives. *)
Theorem limpieza_inicial_spec {page : Type} (lib : Collaborators page) (w : World) :
  let out := limpieza_inicial w in
  out.2 = Ok tt /\
  (forall p, fs out.1 !! p =
             if hijo UPLOAD_DIR p || hijo OUTPUT_DIR p then None else fs w !! p) /\
  ((forall n, PyStr.contains "/" (uuid4_hex lib n) = false) ->
   forall rp, forma lib rp -> fs out.1 !! rp.2 = None).
Proof.
  cbv zeta.
  assert (forall w0, es_directorio {[ UPLOAD_DIR; OUTPUT_DIR ]} UPLOAD_DIR w0 = true)
    as HU.
  { intros w0. unfold es_directorio. by rewrite bool_decide_eq_true_2 by set_solver. }
  assert (forall w0, es_directorio {[ UPLOAD_DIR; OUTPUT_DIR ]} OUTPUT_DIR w0 = true)
    as HO.
  { intros w0. unfold es_directorio. by rewrite bool_decide_eq_true_2 by set_solver. }
  assert (limpieza_inicial w =
          limpiar_inicio {[ UPLOAD_DIR; OUTPUT_DIR ]} OUTPUT_DIR
            (limpiar_inicio {[ UPLOAD_DIR; OUTPUT_DIR ]} UPLOAD_DIR w).1) as ->.
  { unfold limpieza_inicial, bind.
    by destruct (limpiar_inicio_efecto _ UPLOAD_DIR w "" (HU w)) as [H _];
      destruct (limpiar_inicio _ UPLOAD_DIR w) as [w1 [[]|e]]. }
  assert (forall p,
            fs (limpiar_inicio {[ UPLOAD_DIR; OUTPUT_DIR ]} OUTPUT_DIR
                  (limpiar_inicio {[ UPLOAD_DIR; OUTPUT_DIR ]} UPLOAD_DIR w).1).1 !! p =
            if hijo UPLOAD_DIR p || hijo OUTPUT_DIR p then None else fs w !! p)
    as Hfs.
  { intros p.
    destruct (limpiar_inicio_efecto _ OUTPUT_DIR
                (limpiar_inicio {[ UPLOAD_DIR; OUTPUT_DIR ]} UPLOAD_DIR w).1 p (HO _))
      as (_ & -> & _).
    destruct (limpiar_inicio_efecto _ UPLOAD_DIR w p (HU w)) as (_ & -> & _).
    by destruct (hijo UPLOAD_DIR p), (hijo OUTPUT_DIR p). }
  split; [apply (limpiar_inicio_efecto _ OUTPUT_DIR _ "" (HO _))|]. split; [done|].
  intros Hhex [r p] Hforma. simpl. rewrite Hfs.
  assert (forall ext : string, ext ∈ [".pdf"; ".jpg"; ".jpeg"; ".png"; ".zip"] ->
            ext <> "" /\ PyStr.contains "/" ext = false) as Hext.
  { intros ext. rewrite !elem_of_cons, elem_of_nil.
    intros [->|[->|[->|[->|[->|[]]]]]]; done. }
  unfold forma in Hforma. simpl in Hforma. destruct r.
  - destruct Hforma as (n & ext & Hin & ->).
    assert (ext ∈ [".pdf"; ".jpg"; ".jpeg"; ".png"; ".zip"]) as Hin'.
    { revert Hin. unfold ALLOWED_EXTENSIONS. rewrite !elem_of_union, !elem_of_singleton.
      rewrite !elem_of_cons. tauto. }
    destruct (Hext _ Hin') as [Hne Hsep].
    rewrite hijo_join; [done|by apply app_no_vacio|].
    by rewrite contains_app, Hhex, Hsep.
  - destruct Hforma as (n & prefijo & ext & Hpre & Hin & ->).
    assert (ext ∈ [".pdf"; ".jpg"; ".jpeg"; ".png"; ".zip"]) as Hin'.
    { revert Hin. rewrite !elem_of_cons. tauto. }
    destruct (Hext _ Hin') as [Hne Hsep].
    assert (PyStr.contains "/" prefijo = false) as Hpsep.
    { revert Hpre. unfold prefijos_salida. rewrite !elem_of_cons, elem_of_nil.
      intros [->|[->|[->|[->|[->|[->|[]]]]]]]; done. }
    rewrite (hijo_join OUTPUT_DIR), orb_true_r; [done| |].
    + by apply app_no_vacio, app_no_vacio.
    + by rewrite !contains_app, Hhex, Hsep, Hpsep.
Qed.

Lemma lib_unario_sano : identificadores_sanos lib_unario.
Proof.
  split.
  - simpl. intros n. induction n as [|n IH]; intros [|m]; simpl; try done.
    intros [= H]. f_equal. by apply IH.
  - simpl. intros n. induction n as [|n IH]; [done|]. simpl. exact IH.
Qed.

Lemma limpieza_inicial_spec_witness :
  fs (limpieza_inicial (fresh {[ "temp_uploads/a.pdf" := [Byte.x25] ]} 0)).1
    !! "temp_uploads/a.pdf" = None.
Proof.
  assert (forma lib_unario (input, "temp_uploads/a.pdf")) as Hforma.
  { exists 1, ".pdf". split; [|reflexivity].
    apply (bool_decide_unpack _). by vm_compute. }
  destruct (limpieza_inicial_spec lib_unario (fresh {[ "temp_uploads/a.pdf" := [Byte.x25] ]} 0))
    as (_ & _ & Hrp).
  apply (Hrp (fun n => proj2 (proj2 lib_unario_sano n)) _ Hforma).
Defined.

(* ===================================================================== *)
(** * The image route                                                   *)
(* ===================================================================== *)

Lemma app_punto_inj (h h' s s' : string) :
  PyStr.contains "." h = false -> PyStr.contains "." h' = false ->
  h +:+ String "." s = h' +:+ String "." s' -> h = h'.
Proof.
  revert h'. induction h as [|a h IH]; intros [|a' h']; simpl.
  - done.
  - intros _ [Ha _]%orb_false_iff. change ("" +:+ ?x) with x.
    change (String a' h' +:+ ?x) with (String a' (h' +:+ x)).
    intros [= <- _]. done.
  - intros [Ha _]%orb_false_iff _. change ("" +:+ ?x) with x.
    change (String a h +:+ ?x) with (String a (h +:+ x)).
    intros [= -> _]. done.
  - intros [_ Hh]%orb_false_iff [_ Hh']%orb_false_iff.
    change (String a h +:+ ?x) with (String a (h +:+ x)).
    change (String a' h' +:+ ?x) with (String a' (h' +:+ x)).
    intros [= -> H]. f_equal. by eapply IH.
Qed.

Lemma extension_imagen (ext : string) :
  ext ∈ ({[ ".jpg"; ".jpeg"; ".png" ]} : gset string) -> exists s, ext = String "." s.
Proof.
  rewrite !elem_of_union, !elem_of_singleton. intros [[->| ->]| ->]; eauto.
Qed.

Section Album.
Context {page : Type} (lib : Collaborators page).

Lemma ruta_imagen_eq (n : nat) (ext : string) :
  identificadores_sanos lib ->
  (exists s, ext = String "." s) ->
  PyStr.join UPLOAD_DIR (uuid4_hex lib n +:+ ext) =
  "temp_uploads/" +:+ uuid4_hex lib n +:+ ext.
Proof.
  intros Hsanos [s ->]. rewrite join_relativo; [done|].
  destruct Hsanos as [_ Hhex]. destruct (Hhex n) as [_ Hsep].
  destruct (uuid4_hex lib n) as [|a h]; [done|].
  simpl in *. by apply orb_false_iff in Hsep as [-> _].
Qed.

Lemma ruta_imagen_inj (n m : nat) (ext ext' : string) :
  identificadores_sanos lib ->
  (exists s, ext = String "." s) -> (exists s, ext' = String "." s) ->
  PyStr.join UPLOAD_DIR (uuid4_hex lib n +:+ ext) =
  PyStr.join UPLOAD_DIR (uuid4_hex lib m +:+ ext') -> n = m.
Proof.
  intros Hsanos He He'. rewrite !ruta_imagen_eq by done.
  intros H%String.app_inj. destruct He as [s ->], He' as [s' ->].
  destruct Hsanos as [Hinj Hhex]. apply Hinj.
  eapply app_punto_inj; [apply Hhex|apply Hhex|exact H].
Qed.

Lemma img2pdf_file_valido (f : UploadFile) (ext : string) (w : World) (l : list string) :
  imagen_valida f ext ->
  let path := PyStr.join UPLOAD_DIR (uuid4_hex lib (uuid_draws w) +:+ ext) in
  img2pdf_file lib f (w, l) =
  ((mkWorld (<[path := file f]> (fs w)) (S (uuid_draws w)) (background_tasks w)
            (created w ++ [(input, path)]) (borrados w), l ++ [path]), Ok tt).
Proof.
  intros [Hval Hfit]. cbv zeta. unfold img2pdf_file.
  unfold bind at 1. unfold lift_result at 1. rewrite Hval.
  unfold bind at 1. unfold in_world at 1, uuid4 at 1, uuid4_draw. cbn [fst snd].
  unfold bind at 1. unfold in_world at 1. cbn [fst snd].
  rewrite guardar_con_limite_eq by done.
  cbn [fst snd fs uuid_draws background_tasks created borrados].
  destruct (_ >? _)%Z eqn:E; [apply Z.gtb_gt in E; lia|]. reflexivity.
Qed.

Lemma img2pdf_files_validos (files : list UploadFile) (exts : list string) :
  identificadores_sanos lib ->
  Forall2 imagen_valida files exts ->
  forall (w : World) (l : list string),
  exists w',
    for_each files (img2pdf_file lib) (w, l) =
      ((w', l ++ rutas_imagenes lib (uuid_draws w) exts), Ok tt) /\
    uuid_draws w' = uuid_draws w + length files /\
    background_tasks w' = background_tasks w /\
    Forall2 (fun p f => fs w' !! p = Some (file f))
            (rutas_imagenes lib (uuid_draws w) exts) files /\
    (forall q, (forall k ext, uuid_draws w <= k -> (exists s, ext = String "." s) ->
                  q <> PyStr.join UPLOAD_DIR (uuid4_hex lib k +:+ ext)) ->
               fs w' !! q = fs w !! q).
Proof.
  intros Hsanos.
  induction 1 as [|f ext files exts Hf _ IH]; intros w l.
  - exists w. simpl. rewrite app_nil_r. repeat split; [lia|constructor].
  - simpl for_each. unfold bind. rewrite (img2pdf_file_valido f ext w l Hf).
    match goal with |- context [for_each files _ (?w1, ?l1)] =>
      destruct (IH w1 l1) as (w' & -> & Hd & Ht & Hall & Hframe)
    end.
    cbn [uuid_draws background_tasks fs] in *.
    assert (exists s, ext = String "." s) as Hext.
    { destruct Hf as [Hval _]. by eapply extension_imagen, validar_extension_Ok. }
    exists w'. simpl rutas_imagenes. rewrite <- app_assoc. simpl app.
    split; [done|]. split; [simpl; lia|]. split; [done|]. split.
    + constructor; [|done]. rewrite Hframe.
      * apply lookup_insert_eq.
      * intros k ext' Hk Hext' Heq. apply ruta_imagen_inj in Heq; [lia|done..].
    + intros q Hq. rewrite Hframe.
      * apply lookup_insert_ne. intros <-. by apply (Hq (uuid_draws w) ext).
      * intros k ext' Hk. apply Hq. lia.
Qed.

Lemma read_files_Ok (paths : list string) (contents : list (list Byte.byte)) (w : World) :
  Forall2 (fun p c => fs w !! p = Some c) paths contents ->
  read_files paths w = (w, Ok contents).
Proof.
  induction 1 as [|p c paths contents Hp _ IH]; [done|].
  simpl. unfold bind at 1. unfold read_file. rewrite Hp.
  unfold bind at 1. by rewrite IH.
Qed.

(** X14.  With identifiers that do not collide: on images that are all
    accepted and fit the limit, the image route hands [img2pdf.convert]
    the contents of the uploads in the order of the request.  When the
    conversion succeeds the response is the album, which holds the
    converted bytes, and the cleanup of the images and of the album is
    scheduled; when it raises the response is the 500 of that exception
    and no image is left in the workspace. *)
Theorem api_img2pdf_album (files : list UploadFile) (exts : list string) (w : World) :
  identificadores_sanos lib ->
  files <> [] ->
  Forall2 imagen_valida files exts ->
  let output_path :=
    PyStr.join OUTPUT_DIR ("Album_" +:+ uuid4_hex lib (uuid_draws w) +:+ ".pdf") in
  let img_paths := rutas_imagenes lib (S (uuid_draws w)) exts in
  let out := api_img2pdf lib files w in
  match img2pdf_convert lib (file <$> files) with
  | Ok pdf_bytes =>
      out.2 = FileResponse output_path "PDFlex_Album.pdf" [] /\
      fs out.1 !! output_path = Some pdf_bytes /\
      background_tasks out.1 = background_tasks w ++ [img_paths ++ [output_path]]
  | Raise e =>
      out.2 = JSONResponse 500 (str e) /\
      forall p, p ∈ img_paths -> fs out.1 !! p = None
  end.
Proof.
  intros Hsanos Hne Hfiles. cbv zeta.
  set (output_path :=
         PyStr.join OUTPUT_DIR ("Album_" +:+ uuid4_hex lib (uuid_draws w) +:+ ".pdf")).
  set (w0 := mkWorld (fs w) (S (uuid_draws w)) (background_tasks w) (created w)
                     (borrados w)).
  set (img_paths := rutas_imagenes lib (S (uuid_draws w)) exts).
  destruct (img2pdf_files_validos files exts Hsanos Hfiles w0 [])
    as (w' & Hloop & Hd & Ht & Hall & _).
  cbn [app uuid_draws background_tasks] in Hloop, Hall, Ht. fold img_paths in Hloop, Hall.
  assert (api_img2pdf lib files w =
          try_except (img2pdf_try lib files output_path) (fun img_paths => img_paths)
            [] w0) as ->.
  { destruct files; [done|reflexivity]. }
  assert (img2pdf_try lib files output_path (w0, []) =
          (pdf_bytes <- lift_result (img2pdf_convert lib (file <$> files)) ;;
           in_world (open_wb output output_path) ;;
           in_world (write output_path pdf_bytes) ;;
           in_world (add_task (img_paths ++ [output_path])) ;;
           ret (FileResponse output_path "PDFlex_Album.pdf" [])) (w', img_paths))
    as Htry.
  { unfold img2pdf_try. unfold bind at 1. rewrite Hloop.
    unfold bind at 1. unfold get_locals at 1. cbn [fst snd].
    unfold bind at 1. unfold in_world at 1. cbn [fst snd].
    rewrite (read_files_Ok img_paths (file <$> files)); [done|].
    by apply Forall2_fmap_r. }
  unfold try_except. rewrite Htry. clear Htry Hloop.
  destruct (img2pdf_convert lib (file <$> files)) as [pdf_bytes|e].
  - unfold bind, lift_result, in_world, open_wb, write, add_task, ret, with_fs.
    cbn [fst snd fs background_tasks].
    split; [done|]. rewrite alter_insert_eq, Ht. split; [apply lookup_insert_eq|done].
  - unfold bind, lift_result. cbn [fst snd]. split; [done|]. intros p Hp.
    destruct (borrar_archivos_spec img_paths w') as (-> & _).
    by rewrite decide_True.
Qed.

End Album.

Lemma api_img2pdf_album_witness :
  (api_img2pdf lib_unario [foto; dibujo] (fresh ∅ 1)).2 =
    FileResponse "temp_outputs/Album_a.pdf" "PDFlex_Album.pdf" [] /\
  fs (api_img2pdf lib_unario [foto; dibujo] (fresh ∅ 1)).1 !! "temp_outputs/Album_a.pdf" =
    Some [Byte.xff; Byte.xd8; Byte.x89].
Proof.
  assert (Forall2 imagen_valida [foto; dibujo] [".jpg"; ".png"]) as Hfiles.
  { constructor; [|constructor; [|constructor]].
    - split; [done|]. unfold MAX_MB_PER_FILE. simpl. lia.
    - split; [done|]. unfold MAX_MB_PER_FILE. simpl. lia. }
  pose proof (api_img2pdf_album lib_unario [foto; dibujo] [".jpg"; ".png"] (fresh ∅ 1)
                lib_unario_sano ltac:(done) Hfiles) as (Hr & Hfs & _).
  split; [exact Hr|exact Hfs].
Defined.

(* ===================================================================== *)
(** * Isolation                                                         *)
(* ===================================================================== *)

Section Propio.
Context {page : Type} (lib : Collaborators page).
Context {L : Type} (ledger : L -> list string) (w0 : World).

Lemma crece_refl (w : World) : conserva w w.
Proof. by repeat split. Qed.

Lemma aislado_crece (w w' : World) : aislado w0 w -> crece w w' -> aislado w0 w'.
Proof.
  intros [Hfs Ht] (Hr & Hfs' & Ht'). split.
  - intros p Hp. rewrite Hfs' by done. apply Hfs. intros Hin. by apply Hp, Hr.
  - intros paths q Hpaths Hq. rewrite Ht' in Hpaths. eapply Hr, Ht; eauto.
Qed.

Lemma vivo_conserva (w w' : World) (q : string) :
  vivo w q -> conserva w w' -> vivo w' q.
Proof. intros [Hq Hs] [(Hr & _) Hsome]. split; auto. Qed.

Lemma propio_propio_error pend (s : World * L) :
  propio ledger w0 pend s -> propio_error ledger w0 s.
Proof. intros [Ha Hv]. split; [done|]. intros q Hq. apply Hv. by left. Qed.

(** A step on the world that creates [nuevos] and, when it raises, has at
    least touched nothing but created paths. *)
Lemma propio_in_world {A} (m : M World A) (pend nuevos : list string) :
  (forall w, (forall q, q ∈ pend -> vivo w q) ->
     match m w with
     | (w', Ok _) => conserva w w' /\ forall q, q ∈ nuevos -> vivo w' q
     | (w', Raise _) => crece w w'
     end) ->
  hoare (propio ledger w0 pend) (in_world m)
        (fun s _ => propio ledger w0 (nuevos ++ pend) s) (propio_error ledger w0).
Proof.
  intros Hm. apply hoare_in_world. intros w l [Ha Hv]. simpl in *.
  assert (forall q, q ∈ pend -> vivo w q) as Hpend by (intros q Hq; apply Hv; by right).
  specialize (Hm w Hpend). destruct (m w) as [w' [a|e]].
  - destruct Hm as [Hc Hn]. split; [by eapply aislado_crece, Hc|]. simpl.
    intros q [Hq|[Hq|Hq]%elem_of_app]; [|by apply Hn|].
    + eapply vivo_conserva; [|exact Hc]. apply Hv. by left.
    + eapply vivo_conserva; [|exact Hc]. apply Hv. by right.
  - split; [by eapply aislado_crece|]. simpl. intros q Hq.
    destruct Hm as (Hr & _). apply Hr. apply Hv. by left.
Qed.

Lemma propio_pure {A} (r : result A) pend :
  hoare (propio ledger w0 pend) (lift_result r)
        (fun s _ => propio ledger w0 pend s) (propio_error ledger w0).
Proof.
  eapply hoare_conseq; [apply hoare_lift_result| | |]; simpl.
  - apply propio_propio_error.
  - done.
  - tauto.
  - done.
Qed.

Lemma propio_uuid4 pend :
  hoare (propio ledger w0 pend) (in_world (uuid4 lib))
        (fun s _ => propio ledger w0 pend s) (propio_error ledger w0).
Proof. apply hoare_in_world. by intros w l H. Qed.

Lemma propio_read {A} (m : M World A) pend :
  readonly m ->
  hoare (propio ledger w0 pend) (in_world m)
        (fun s _ => propio ledger w0 pend s) (propio_error ledger w0).
Proof.
  intros Hm.
  eapply hoare_conseq;
    [by apply hoare_readonly | intros s H; exact H | intros s a H; exact H
    | apply propio_propio_error].
Qed.

Lemma propio_guard (b : bool) (e : exception) pend :
  hoare (propio ledger w0 pend) (if b then raise e else ret tt)
        (fun s _ => propio ledger w0 pend s) (propio_error ledger w0).
Proof.
  destruct b.
  - eapply hoare_pre; [apply hoare_raise|apply propio_propio_error].
  - apply (hoare_ret tt (fun s _ => propio ledger w0 pend s)).
Qed.

Lemma rutas_snoc (w : World) (r : role) (path : string) (m : gmap string (list Byte.byte))
    (d : nat) (t : list (list string)) (b : list (list string)) (q : string) :
  q ∈ rutas (mkWorld m d t (created w ++ [(r, path)]) b) <-> q ∈ rutas w \/ q = path.
Proof.
  unfold rutas. simpl. rewrite fmap_app, elem_of_app. simpl.
  by rewrite list_elem_of_singleton.
Qed.

(** [open(path, "wb")] *)
Lemma open_wb_conserva (r : role) (path : string) (w : World) :
  conserva w (open_wb r path w).1 /\ vivo (open_wb r path w).1 path.
Proof.
  unfold open_wb. simpl. split; [split; [split; [|split]|]|].
  - intros q Hq. apply rutas_snoc. by left.
  - intros p Hp. simpl. apply lookup_insert_ne. intros ->. apply Hp, rutas_snoc. by right.
  - done.
  - intros q Hq. simpl. destruct (decide (q = path)) as [->|Hne].
    + rewrite lookup_insert_eq. eauto.
    + by rewrite lookup_insert_ne.
  - split; [apply rutas_snoc; by right|]. simpl. rewrite lookup_insert_eq. eauto.
Qed.

(** [f.write(data)] on a path that the request has created. *)
Lemma write_conserva (path : string) (data : list Byte.byte) (w : World) :
  path ∈ rutas w -> conserva w (write path data w).1.
Proof.
  intros Hpath. unfold write, with_fs. simpl. split; [split; [|split]|].
  - done.
  - intros p Hp. simpl. apply lookup_alter_ne. intros ->. by apply Hp.
  - done.
  - intros q Hq. simpl. destruct (decide (q = path)) as [->|Hne].
    + rewrite lookup_alter_eq. destruct Hq as [c ->]. simpl. eauto.
    + by rewrite lookup_alter_ne.
Qed.

Lemma conserva_trans (w1 w2 w3 : World) :
  conserva w1 w2 -> conserva w2 w3 -> conserva w1 w3.
Proof.
  intros [(Hr & Hfs & Ht) Hs] [(Hr' & Hfs' & Ht') Hs']. split; [split; [|split]|].
  - auto.
  - intros p Hp. rewrite Hfs' by done. apply Hfs. intros Hin. by apply Hp, Hr'.
  - congruence.
  - auto.
Qed.

Lemma propio_guardar (upload_file : UploadFile) (path : string) pend :
  hoare (propio ledger w0 pend)
        (in_world (guardar_con_limite upload_file path MAX_MB_PER_FILE))
        (fun s _ => propio ledger w0 ([path] ++ pend) s) (propio_error ledger w0).
Proof.
  apply propio_in_world. intros w _.
  rewrite guardar_con_limite_eq by done.
  destruct (_ >? _)%Z.
  - split; [|split].
    + intros q Hq. apply rutas_snoc. by left.
    + intros p Hp. simpl. apply lookup_delete_ne. intros ->.
      apply Hp, rutas_snoc. by right.
    + done.
  - split; [split; [split; [|split]|]|].
    + intros q Hq. apply rutas_snoc. by left.
    + intros p Hp. simpl. apply lookup_insert_ne. intros ->.
      apply Hp, rutas_snoc. by right.
    + done.
    + intros q Hq. simpl. destruct (decide (q = path)) as [->|Hne].
      * rewrite lookup_insert_eq. eauto.
      * by rewrite lookup_insert_ne.
    + intros q ->%list_elem_of_singleton. split; [apply rutas_snoc; by right|].
      simpl. rewrite lookup_insert_eq. eauto.
Qed.

Lemma propio_open_wb (path : string) pend :
  hoare (propio ledger w0 pend) (in_world (open_wb output path))
        (fun s _ => propio ledger w0 ([path] ++ pend) s) (propio_error ledger w0).
Proof.
  apply propio_in_world. intros w _.
  destruct (open_wb_conserva output path w) as [Hc Hv].
  unfold open_wb in *. simpl in *. split; [done|].
  by intros q ->%list_elem_of_singleton.
Qed.

Lemma propio_write (path : string) (data : list Byte.byte) pend :
  path ∈ pend ->
  hoare (propio ledger w0 pend) (in_world (write path data))
        (fun s _ => propio ledger w0 pend s) (propio_error ledger w0).
Proof.
  intros Hin. apply (propio_in_world _ pend []). intros w Hpend.
  unfold write. split; [|by intros q Hq%elem_of_nil].
  apply write_conserva. by apply Hpend.
Qed.

(** An open for writing followed by a write that may fail half-way. *)
Lemma open_write_conserva (path : string) (data : list Byte.byte) (w : World) :
  conserva w (write path data (open_wb output path w).1).1 /\
  vivo (write path data (open_wb output path w).1).1 path.
Proof.
  destruct (open_wb_conserva output path w) as [Hc [Hr Hs]].
  pose proof (write_conserva path data _ Hr) as Hc'.
  split; [by eapply conserva_trans|].
  eapply vivo_conserva; [|exact Hc']. by split.
Qed.

Lemma propio_write_pdf (path : string) (pages : list page) pend :
  hoare (propio ledger w0 pend) (in_world (write_pdf lib path pages))
        (fun s _ => propio ledger w0 ([path] ++ pend) s) (propio_error ledger w0).
Proof.
  apply propio_in_world. intros w _.
  destruct (open_write_conserva path (PdfWriter_write lib pages).1 w) as [Hc Hv].
  unfold write_pdf, bind. unfold open_wb at 1.
  destruct (PdfWriter_write lib pages) as [data [e|]]; simpl in *.
  - apply Hc.
  - split; [done|]. by intros q ->%list_elem_of_singleton.
Qed.

Lemma propio_write_zip (final_path : string) (paths : list string) pend :
  hoare (propio ledger w0 pend) (in_world (write_zip lib final_path paths))
        (fun s _ => propio ledger w0 ([final_path] ++ pend) s) (propio_error ledger w0).
Proof.
  apply propio_in_world. intros w _.
  unfold write_zip, bind. unfold open_wb at 1.
  match goal with |- context [read_entries paths ?w1] =>
    pose proof (readonly_read_entries paths w1) as Hro;
    destruct (read_entries paths w1) as [w2 [entries|e]]
  end; simpl in Hro; subst w2.
  - destruct (open_write_conserva final_path (ZipFile_write lib entries).1 w) as [Hc Hv].
    destruct (ZipFile_write lib entries) as [data [e|]]; simpl in *.
    + apply Hc.
    + split; [done|]. by intros q ->%list_elem_of_singleton.
  - apply (open_wb_conserva output final_path w).
Qed.

(** [paths.append(path)] *)
Lemma propio_append (path : string) (f : L -> L) :
  (forall l q, q ∈ ledger (f l) -> q ∈ ledger l \/ q = path) ->
  hoare (propio ledger w0 [path]) (set_locals f)
        (fun s _ => propio ledger w0 [] s) (propio_error ledger w0).
Proof.
  intros Hf. eapply hoare_pre; [apply hoare_set_locals|].
  intros [w l] [Ha Hv]. split; [done|]. simpl in *.
  intros q [Hq|Hq]; [|by apply elem_of_nil in Hq].
  apply Hv. destruct (Hf _ _ Hq) as [?| ->]; [by left|right; apply list_elem_of_here].
Qed.

Lemma propio_assign (f : L -> L) pend :
  (forall l, ledger (f l) = ledger l) ->
  hoare (propio ledger w0 pend) (set_locals f)
        (fun s _ => propio ledger w0 pend s) (propio_error ledger w0).
Proof.
  intros Hf. eapply hoare_pre; [apply hoare_set_locals|].
  intros [w l] [Ha Hv]. split; [done|]. simpl in *. by rewrite Hf.
Qed.

(** [background_tasks.add_task(borrar_archivos, paths)] over paths of the
    ledger and of [pend]. *)
Lemma propio_add_task (paths : list string) pend :
  hoare (fun s => propio ledger w0 pend s /\
                  forall q, q ∈ paths -> q ∈ ledger s.2 \/ q ∈ pend)
        (in_world (add_task paths))
        (fun s _ => propio ledger w0 pend s) (propio_error ledger w0).
Proof.
  apply hoare_in_world. intros w l [[[Hfs Ht] Hv] Hpaths]. simpl in *.
  split; [split|]; simpl.
  - exact Hfs.
  - intros ps q [Hps|Hps]%elem_of_app Hq.
    + by eapply Ht.
    + apply list_elem_of_singleton in Hps as ->. by apply Hv, Hpaths.
  - exact Hv.
Qed.

Lemma propio_file_response (path name : string) (headers : list (string * string)) pend :
  hoare (fun s => propio ledger w0 pend s /\ (path ∈ ledger s.2 \/ path ∈ pend))
        (ret (FileResponse path name headers)) (servido w0) (propio_error ledger w0).
Proof.
  intros s [[Ha Hv] Hpath]. split; [done|]. exists path, name, headers. split; [done|].
  by apply Hv.
Qed.

End Propio.

Lemma py_index_elem {A} (xs : list A) (i : Z) (x : A) :
  py_index xs i = Ok x -> x ∈ xs.
Proof.
  unfold py_index. destruct (_ <? 0)%Z; [done|].
  destruct (xs !! _) as [y|] eqn:Hy; [|done]. intros [= <-].
  by eapply list_elem_of_lookup_2.
Qed.

(** A step on the world keeps what is known of the local variables. *)
Lemma hoare_frame_locals {L A} (m : M World A) (P : World * L -> Prop)
    (Q : World * L -> A -> Prop) (E : World * L -> Prop) (F : L -> Prop) :
  hoare P (in_world m) Q E ->
  hoare (fun s => P s /\ F s.2) (in_world m) (fun s a => Q s a /\ F s.2) E.
Proof.
  intros Hm [w l] [HP HF]. specialize (Hm (w, l) HP). unfold in_world in *. simpl in *.
  destruct (m w) as [w' [a|e]]; [by split|done].
Qed.

Section RutasPropias.
Context {page : Type} (lib : Collaborators page) (w0 : World).

Lemma elem_of_snoc_l (xs : list string) (x q : string) :
  q ∈ xs ++ [x] -> q ∈ xs \/ q = x.
Proof. rewrite elem_of_app, list_elem_of_singleton. tauto. Qed.

Lemma unir_file_propio (file : UploadFile) :
  hoare (propio (@unir_temp_paths page) w0 []) (unir_file lib file)
        (fun s _ => propio (@unir_temp_paths page) w0 [] s)
        (propio_error (@unir_temp_paths page) w0).
Proof.
  unfold unir_file.
  hstep ltac:(apply propio_pure).
  hstep ltac:(apply propio_uuid4).
  hstep ltac:(apply propio_guardar).
  hstep ltac:(apply propio_append; intros l q; apply elem_of_snoc_l).
  hstep ltac:(apply propio_read, readonly_PdfReader).
  hlast ltac:(by apply propio_assign).
Qed.

(** The end of the four routes that write one output: schedule the
    cleanup of the ledger and of the output, and serve the output. *)
Lemma entrega_propia {L : Type} (ledger : L -> list string) (output_path name : string)
    (headers : list (string * string)) (paths : L -> list string) :
  (forall l q, q ∈ paths l -> q ∈ ledger l \/ q ∈ [output_path]) ->
  hoare (propio ledger w0 [output_path])
        (l <- get_locals ;;
         in_world (add_task (paths l)) ;;
         ret (FileResponse output_path name headers))
        (servido w0) (propio_error ledger w0).
Proof.
  intros Hpaths.
  eapply hoare_bind; [apply hoare_get_locals|]. intros l. cbv beta.
  eapply hoare_bind.
  - eapply hoare_pre; [apply (propio_add_task _ _ _ [output_path])|].
    intros s [Hp ->]. split; [exact Hp|]. apply Hpaths.
  - intros u. eapply hoare_pre; [apply (propio_file_response _ _ _ _ _ [output_path])|].
    intros s Hp. split; [exact Hp|]. right. apply list_elem_of_here.
Qed.

Lemma unir_try_propio (files : list UploadFile) (output_path : string) :
  hoare (propio (@unir_temp_paths page) w0 []) (unir_try lib files output_path)
        (servido w0) (propio_error (@unir_temp_paths page) w0).
Proof.
  unfold unir_try.
  hstep ltac:(apply hoare_for_each, unir_file_propio).
  eapply hoare_bind; [apply hoare_get_locals|]. intros l. cbv beta.
  hstep ltac:(apply propio_write_pdf).
  apply (entrega_propia _ _ _ _ (fun l => unir_temp_paths l ++ [output_path])).
  intros l' q. rewrite elem_of_app. tauto.
Qed.

Lemma comprimir_ledger_input (l : comprimir_locals) (path q : string) :
  q ∈ comprimir_ledger (mkComprimirLocals (processed_files l) (temp_inputs l ++ [path])
                          (total_orig l) (total_comp l)) ->
  q ∈ comprimir_ledger l \/ q = path.
Proof.
  unfold comprimir_ledger. simpl.
  rewrite !elem_of_app, list_elem_of_singleton. tauto.
Qed.

Lemma comprimir_ledger_output (l : comprimir_locals) (path q : string) :
  q ∈ comprimir_ledger (mkComprimirLocals (processed_files l ++ [path]) (temp_inputs l)
                          (total_orig l) (total_comp l)) ->
  q ∈ comprimir_ledger l \/ q = path.
Proof.
  unfold comprimir_ledger. simpl.
  rewrite !elem_of_app, list_elem_of_singleton. tauto.
Qed.

Lemma comprimir_file_propio (file : UploadFile) :
  hoare (propio comprimir_ledger w0 []) (comprimir_file lib file)
        (fun s _ => propio comprimir_ledger w0 [] s) (propio_error comprimir_ledger w0).
Proof.
  unfold comprimir_file.
  hstep ltac:(apply propio_pure).
  hstep ltac:(apply propio_uuid4).
  hstep ltac:(apply propio_guardar).
  hstep ltac:(apply propio_append; intros l q; apply comprimir_ledger_input).
  hstep ltac:(apply propio_read, readonly_getsize).
  hstep ltac:(by apply propio_assign).
  hstep ltac:(apply propio_read, readonly_PdfReader).
  hstep ltac:(apply propio_pure).
  hstep ltac:(apply propio_uuid4).
  hstep ltac:(apply propio_write_pdf).
  hstep ltac:(apply propio_read, readonly_getsize).
  hstep ltac:(by apply propio_assign).
  hlast ltac:(apply propio_append; intros l q; apply comprimir_ledger_output).
Qed.

Lemma comprimir_try_propio (files : list UploadFile) :
  hoare (propio comprimir_ledger w0 []) (comprimir_try lib files)
        (servido w0) (propio_error comprimir_ledger w0).
Proof.
  unfold comprimir_try.
  hstep ltac:(apply hoare_for_each, comprimir_file_propio).
  eapply hoare_bind; [apply hoare_get_locals|]. intros l. cbv beta.
  eapply hoare_bind
    with (Q := fun s final => propio comprimir_ledger w0 [] s /\
                              final.1 ∈ comprimir_ledger s.2).
  { destruct (_ =? _)%Z.
    - eapply hoare_bind.
      { apply (hoare_lift_result _ (fun s => propio comprimir_ledger w0 [] s /\ l = s.2)).
        intros s [Hp _]. by eapply propio_propio_error. }
      intros final_path. intros s [[Hp ->] Hidx]. simpl. split; [done|].
      apply elem_of_app. right. by eapply py_index_elem.
    - hstep ltac:(apply propio_uuid4).
      hstep ltac:(apply propio_write_zip).
      eapply hoare_bind with (Q := fun s _ => propio comprimir_ledger w0 [] s /\
                                              _ ∈ comprimir_ledger s.2).
      + eapply hoare_pre; [apply hoare_set_locals|].
        intros [w l0] [Ha Hv]. simpl in *. split.
        * split; [done|]. simpl. intros q [Hq|Hq]; [|by apply elem_of_nil in Hq].
          apply Hv. apply comprimir_ledger_output in Hq as [?| ->]; [by left|].
          right. apply list_elem_of_here.
        * unfold comprimir_ledger. simpl. rewrite !elem_of_app, list_elem_of_singleton.
          right. right. reflexivity.
      + intros u. intros s H. exact H. }
  intros final. cbv beta zeta.
  eapply hoare_bind; [apply hoare_get_locals|]. intros l'. cbv beta.
  eapply hoare_bind.
  { apply (hoare_lift_result _
             (fun s => (propio comprimir_ledger w0 [] s /\
                        final.1 ∈ comprimir_ledger s.2) /\ l' = s.2)).
    intros s [[Hp _] _]. by eapply propio_propio_error. }
  intros pct. cbv beta.
  eapply hoare_bind.
  - eapply hoare_pre;
      [eapply hoare_frame_locals with (F := fun l => final.1 ∈ comprimir_ledger l);
       apply (propio_add_task comprimir_ledger w0 _ [])|].
    intros s [[[Hp Hfinal] ->] _]. split; [|exact Hfinal]. split; [exact Hp|].
    intros q Hq. by left.
  - intros u. eapply hoare_pre; [apply (propio_file_response _ _ _ _ _ [])|].
    intros s [Hp Hfinal]. split; [exact Hp|]. by left.
Qed.

Lemma img2pdf_file_propio (file : UploadFile) :
  hoare (propio lista w0 []) (img2pdf_file lib file)
        (fun s _ => propio lista w0 [] s) (propio_error lista w0).
Proof.
  unfold img2pdf_file.
  hstep ltac:(apply propio_pure).
  hstep ltac:(apply propio_uuid4).
  hstep ltac:(apply propio_guardar).
  hlast ltac:(apply propio_append; intros l q; apply elem_of_snoc_l).
Qed.

Lemma img2pdf_try_propio (files : list UploadFile) (output_path : string) :
  hoare (propio lista w0 []) (img2pdf_try lib files output_path)
        (servido w0) (propio_error lista w0).
Proof.
  unfold img2pdf_try.
  hstep ltac:(apply hoare_for_each, img2pdf_file_propio).
  eapply hoare_bind; [apply hoare_get_locals|]. intros img_paths. cbv beta.
  eapply hoare_bind.
  { eapply hoare_pre;
      [eapply hoare_frame_locals with (F := fun l => img_paths = l);
       apply (propio_read lista w0 _ []), readonly_read_files|].
    intros s H. exact H. }
  intros contents. cbv beta.
  eapply hoare_bind.
  { apply (hoare_lift_result _ (fun s => propio lista w0 [] s /\ img_paths = s.2)).
    intros s [Hp _]. by eapply propio_propio_error. }
  intros pdf_bytes. cbv beta.
  eapply hoare_bind.
  { eapply hoare_pre;
      [eapply hoare_frame_locals with (F := fun l => img_paths = l);
       apply (propio_open_wb lista w0 output_path [])|].
    intros s [H _]. exact H. }
  intros u. cbv beta.
  eapply hoare_bind.
  { eapply hoare_frame_locals with (F := fun l => img_paths = l).
    apply (propio_write lista w0 output_path pdf_bytes [output_path]), list_elem_of_here. }
  intros u'. cbv beta.
  eapply hoare_bind.
  - eapply hoare_pre; [apply (propio_add_task lista w0 _ [output_path])|].
    intros s [Hp ->]. split; [exact Hp|]. intros q. rewrite elem_of_app. tauto.
  - intros u''. eapply hoare_pre; [apply (propio_file_response _ _ _ _ _ [output_path])|].
    intros s Hp. split; [exact Hp|]. right. apply list_elem_of_here.
Qed.

Lemma extraer_try_propio (file : UploadFile) (inicio fin : Z) :
  hoare (propio lista w0 []) (extraer_try lib file inicio fin)
        (servido w0) (propio_error lista w0).
Proof.
  unfold extraer_try.
  hstep ltac:(apply propio_pure).
  hstep ltac:(apply propio_uuid4).
  hstep ltac:(apply propio_guardar).
  hstep ltac:(apply propio_append; intros l q; apply elem_of_snoc_l).
  hstep ltac:(apply propio_read, readonly_PdfReader).
  hstep ltac:(apply propio_guard).
  hstep ltac:(apply propio_pure).
  hstep ltac:(apply propio_uuid4).
  hstep ltac:(apply propio_write_pdf).
  apply (entrega_propia lista _ _ _ (fun temp_paths => temp_paths ++ [_])).
  intros l' q. rewrite elem_of_app. tauto.
Qed.

Lemma rotar_try_propio (file : UploadFile) (grados : Z) :
  hoare (propio lista w0 []) (rotar_try lib file grados)
        (servido w0) (propio_error lista w0).
Proof.
  unfold rotar_try.
  hstep ltac:(apply propio_pure).
  hstep ltac:(apply propio_guard).
  hstep ltac:(apply propio_uuid4).
  hstep ltac:(apply propio_guardar).
  hstep ltac:(apply propio_append; intros l q; apply elem_of_snoc_l).
  hstep ltac:(apply propio_read, readonly_PdfReader).
  hstep ltac:(apply propio_pure).
  hstep ltac:(apply propio_uuid4).
  hstep ltac:(apply propio_write_pdf).
  apply (entrega_propia lista _ _ _ (fun temp_paths => temp_paths ++ [_])).
  intros l' q. rewrite elem_of_app. tauto.
Qed.

End RutasPropias.

Section PeticionAislada.
Context {page : Type} (lib : Collaborators page).

Lemma borrar_archivos_aislado (w0 w : World) (paths : list string) :
  aislado w0 w -> (forall q, q ∈ paths -> q ∈ rutas w) ->
  aislado w0 (borrar_archivos paths w).1.
Proof.
  intros [Hfs Ht] Hpaths.
  destruct (borrar_archivos_spec paths w) as (Hfs' & Ht' & Hc' & _). cbv zeta in *.
  unfold aislado, rutas in *. rewrite Ht', Hc'. split; [|done].
  intros p Hp. rewrite Hfs'. rewrite decide_False; [by apply Hfs|].
  intros Hin. by apply Hp, Hpaths.
Qed.

Lemma run_tasks_aislado (w0 : World) (tasks : list (list string)) :
  forall w, aislado w0 w ->
    (forall paths q, paths ∈ tasks -> q ∈ paths -> q ∈ rutas w) ->
    (forall p, p ∉ rutas w -> fs (run_tasks tasks w) !! p = fs w0 !! p) /\
    rutas (run_tasks tasks w) = rutas w.
Proof.
  induction tasks as [|paths tasks IH]; intros w Ha Htasks; simpl.
  - split; [apply Ha|done].
  - assert (rutas (borrar_archivos paths w).1 = rutas w) as Hr.
    { unfold rutas. by destruct (borrar_archivos_spec paths w) as (_ & _ & -> & _). }
    destruct (IH (borrar_archivos paths w).1) as [Hfs Hr'].
    + apply borrar_archivos_aislado; [done|]. intros q Hq.
      eapply Htasks; [apply list_elem_of_here|done].
    + intros ps q Hps Hq. rewrite Hr. eapply Htasks; [|done].
      apply elem_of_cons. by right.
    + rewrite Hr in *. split; [|done]. intros p Hp. by apply Hfs.
Qed.

Lemma run_background_tasks_aislado (w0 w : World) :
  aislado w0 w ->
  forall p, p ∉ rutas (run_background_tasks w) ->
            fs (run_background_tasks w) !! p = fs w0 !! p.
Proof.
  intros [Hfs Ht]. unfold run_background_tasks.
  destruct (run_tasks_aislado w0 (background_tasks w)
              (mkWorld (fs w) (uuid_draws w) [] (created w) (borrados w))) as [Hfs' Hr].
  - split; [done|]. simpl. intros paths q Hin. by apply elem_of_nil in Hin.
  - done.
  - intros p. rewrite Hr. apply Hfs'.
Qed.

Lemma try_except_aislado {L : Type} (ledger : L -> list string)
    (body : M (World * L) response) (init : L) (w0 w : World) :
  hoare (propio ledger w0 []) body (servido w0) (propio_error ledger w0) ->
  aislado w0 w -> ledger init = [] ->
  let out := try_except body ledger init w in
  aislado w0 out.1 /\
  forall path name headers, out.2 = FileResponse path name headers -> vivo out.1 path.
Proof.
  intros Hbody Ha Hinit. unfold try_except.
  assert (propio ledger w0 [] (w, init)) as Hstart.
  { split; [done|]. simpl. rewrite Hinit. intros q [Hq|Hq]; by apply elem_of_nil in Hq. }
  specialize (Hbody _ Hstart). destruct (body (w, init)) as [[w1 l] [r|e]]; cbn [fst snd].
  - destruct Hbody as (Ha1 & path & name & headers & -> & Hv). cbn [fst] in *.
    split; [done|]. by intros ? ? ? [= <- _ _].
  - destruct Hbody as [Ha1 Hl]. cbn [fst snd] in *.
    split; [by apply borrar_archivos_aislado|]. done.
Qed.

Lemma aislado_inicio (files : gmap string (list Byte.byte)) (draws draws' : nat) :
  aislado (fresh files draws) (fresh files draws').
Proof. split; [done|]. simpl. intros paths q Hin. by apply elem_of_nil in Hin. Qed.

(** What every route leaves when it returns, before the background tasks. *)
Lemma app_aislado (req : request) (files : gmap string (list Byte.byte)) (draws : nat) :
  let out := app lib req (fresh files draws) in
  aislado (fresh files draws) out.1 /\
  forall path name headers, out.2 = FileResponse path name headers -> vivo out.1 path.
Proof.
  destruct req as [[|f fs']|[|f fs']|[|f fs']|f inicio fin|f grados]; unfold app;
    try (split; [apply aislado_inicio|done]).
  - unfold api_unir. unfold uuid4_draw. cbn [fresh].
    apply (try_except_aislado (@unir_temp_paths page));
      [apply unir_try_propio|apply aislado_inicio|done].
  - unfold api_comprimir.
    apply (try_except_aislado comprimir_ledger);
      [apply comprimir_try_propio|apply aislado_inicio|done].
  - unfold api_img2pdf. unfold uuid4_draw. cbn [fresh].
    apply (try_except_aislado lista);
      [apply img2pdf_try_propio|apply aislado_inicio|done].
  - unfold api_extraer.
    apply (try_except_aislado lista);
      [apply extraer_try_propio|apply aislado_inicio|done].
  - unfold api_rotar.
    apply (try_except_aislado lista);
      [apply rotar_try_propio|apply aislado_inicio|done].
Qed.

(** X10.  A request touches no file but those it creates: when the request
    and its background tasks are over, every path that the request has
    not opened for writing holds what it held before (or is absent, if it
    was).  In particular a path that has not the form of a workspace
    path, an identifier with an extension under the upload directory or a
    prefixed identifier under the output directory, is never touched,
    whatever the declared filenames of the uploads are. *)
Theorem peticion_aislada (req : request) (files : gmap string (list Byte.byte))
    (draws : nat) (p : string) :
  let w' := (serve lib req (fresh files draws)).1 in
  (p ∉ rutas w' -> fs w' !! p = files !! p) /\
  ((forall rp, forma lib rp -> rp.2 <> p) -> fs w' !! p = files !! p).
Proof.
  cbv zeta.
  assert (p ∉ rutas (serve lib req (fresh files draws)).1 ->
          fs (serve lib req (fresh files draws)).1 !! p = files !! p) as Hout.
  { unfold serve. destruct (app_aislado req files draws) as [Ha _]. cbv zeta in Ha.
    destruct (app lib req (fresh files draws)) as [w1 r]. cbn [fst] in *.
    intros Hp. by rewrite (run_background_tasks_aislado _ _ Ha p Hp). }
  split; [done|]. intros Hforma. apply Hout.
  unfold rutas. intros (rp & -> & Hrp)%list_elem_of_fmap.
  destruct (serve_forma lib req (fresh files draws) rp Hrp) as [Hnil|Hf].
  - by apply elem_of_nil in Hnil.
  - by apply (Hforma rp).
Qed.

(** X11.  The file a route serves exists when the route returns: the path
    of the [FileResponse] was created by this request and holds a file in
    the state the response is built in; it is deleted only afterwards, by
    the background task. *)
Theorem respuesta_existe (req : request) (files : gmap string (list Byte.byte))
    (draws : nat) (path name : string) (headers : list (string * string)) :
  (app lib req (fresh files draws)).2 = FileResponse path name headers ->
  is_Some (fs (app lib req (fresh files draws)).1 !! path) /\
  path ∈ rutas (app lib req (fresh files draws)).1 /\
  fs (serve lib req (fresh files draws)).1 !! path = None.
Proof.
  intros Hr. destruct (app_aislado req files draws) as [_ Hv]. cbv zeta in Hv.
  destruct (Hv _ _ _ Hr) as [Hin Hsome]. split; [done|]. split; [done|].
  assert (sin_archivos req = false) as Hreq.
  { destruct req as [[|f fs']|[|f fs']|[|f fs']|f inicio fin|f grados]; done. }
  pose proof (serve_limpio lib req files draws Hreq) as (paths & _ & _ & _ & _ & Hall).
  assert ((serve lib req (fresh files draws)).2 = FileResponse path name headers) as Hr'.
  { unfold serve. by destruct (app lib req (fresh files draws)) as [w1 r]. }
  rewrite Hr' in Hall. simpl in Hall.
  assert (rutas (serve lib req (fresh files draws)).1 =
          rutas (app lib req (fresh files draws)).1) as Hrutas.
  { unfold serve, rutas. destruct (app lib req (fresh files draws)) as [w1 r]. cbn [fst].
    by rewrite created_run_background_tasks. }
  rewrite <- Hrutas in Hin. unfold rutas in Hin.
  apply list_elem_of_fmap in Hin as (rp & -> & Hrp). by apply Hall.
Qed.

End PeticionAislada.

Lemma peticion_aislada_witness :
  fs (serve lib_demo (PostRotar documento 90) (fresh {[ "notas.txt" := [Byte.x31] ]} 0)).1
    !! "notas.txt" = Some [Byte.x31] /\
  fs (serve lib_demo (PostExtraer documento 3 2) (fresh {[ "/etc/passwd" := [] ]} 0)).1
    !! "/etc/passwd" = Some [].
Proof.
  split.
  - etrans.
    + apply (proj1 (peticion_aislada lib_demo (PostRotar documento 90)
                      {[ "notas.txt" := [Byte.x31] ]} 0 "notas.txt")).
      apply (bool_decide_unpack _). by vm_compute.
    + by vm_compute.
  - etrans.
    + apply (proj1 (peticion_aislada lib_demo (PostExtraer documento 3 2)
                      {[ "/etc/passwd" := [] ]} 0 "/etc/passwd")).
      apply (bool_decide_unpack _). by vm_compute.
    + by vm_compute.
Defined.

Lemma respuesta_existe_witness :
  is_Some (fs (app lib_demo (PostUnir [documento; cinco_paginas]) (fresh ∅ 0)).1
             !! "temp_outputs/Unido_0.pdf") /\
  fs (serve lib_demo (PostUnir [documento; cinco_paginas]) (fresh ∅ 0)).1
    !! "temp_outputs/Unido_0.pdf" = None.
Proof.
  assert ((app lib_demo (PostUnir [documento; cinco_paginas]) (fresh ∅ 0)).2 =
          FileResponse "temp_outputs/Unido_0.pdf" "PDFlex_Unido.pdf"
            [("X-Success-Message", "Unión exitosa")]) as Hrun by (vm_compute; reflexivity).
  destruct (respuesta_existe lib_demo _ _ _ _ _ _ Hrun) as (Hs & _ & Hn).
  split; [exact Hs|exact Hn].
Defined.

